(** * Zoom recording pipeline: a shallow embedding and its properties

    The development follows the Python sources:
    - [src/utils/retry.py]              -> module [Retry]
    - [src/models/recording.py]         -> [ProcessingStatus],
                                           [ZoomWebhookPayload]
    - [src/database.py]                 -> [DBClient], [DBRecording], [World]
    - [src/services/client_service.py]  -> [identify_client] and its helpers,
                                           [update_client_summary]
    - [src/services/summary_service.py] -> [SummaryService_identify_client]
    - [src/webhook/zoom_handler.py]     -> [handle_recording_completed]
    - [src/workers/processing_worker.py]-> [process_recording],
                                           [retry_failed_recordings]
    - [src/api/meetings.py]             -> [retry_meeting]

    Conventions of the model:
    - a Python [str] is the list of its Unicode code points, so that [len],
      slicing, [strip] and [re] see characters the way Python does;
    - asynchronous code is run sequentially, one [await] after the other,
      in a state-and-exception monad [M] over the persistent store;
    - an assignment to a loaded row followed by [session.commit()] is one
      update of the table: commits do not fail, and every attribute the
      sources assign is committed before the next call that can raise;
    - the collaborators (Zoom, YouTube, Whisper, GPT, Notion, Sheets,
      Calendar, Slack, the file system, the clock) are a record [Env] of
      the answers they give during one run: a value or a raised exception,
      as seen after the callee's own retry wrapper;
    - the trace [log] records, in order, each start of the pipeline, the
      status a recording's row holds after each write to it, each call of
      a collaborator and the variables of the text-generation requests of
      the resolver and the aggregator;
    - Python's own library functions ([str.lower], [json], [strftime]) are
      an interface [PyLib]; module [ExampleLib] is an instance the
      concrete examples run on. *)

From Stdlib Require Import List ZArith NArith QArith Qminmax Qpower Lqa.
From Stdlib Require Import Bool String Ascii Lia Sorted Permutation.
Import ListNotations.
Close Scope Q_scope.

Set Implicit Arguments.

(* ===================================================================== *)
(** * Part I: definitions                                                 *)
(* ===================================================================== *)

(** ** Python strings *)

Module PyStr.

Definition str := list N.

(** Decoder for the UTF-8 bytes of a Rocq string literal; it is only
    used to write Python string constants legibly. *)
Fixpoint utf8_decode (bs : list N) : str :=
  match bs with
  | [] => []
  | b0 :: r0 =>
      if (b0 <? 128)%N then b0 :: utf8_decode r0
      else
        match r0 with
        | [] => []
        | b1 :: r1 =>
            if (b0 <? 224)%N
            then ((b0 - 192) * 64 + (b1 - 128))%N :: utf8_decode r1
            else
              match r1 with
              | [] => []
              | b2 :: r2 =>
                  if (b0 <? 240)%N
                  then ((b0 - 224) * 4096 + (b1 - 128) * 64 + (b2 - 128))%N
                         :: utf8_decode r2
                  else
                    match r2 with
                    | [] => []
                    | b3 :: r3 =>
                        ((b0 - 240) * 262144 + (b1 - 128) * 4096
                         + (b2 - 128) * 64 + (b3 - 128))%N
                          :: utf8_decode r3
                    end
              end
        end
  end.

Definition py (s : string) : str :=
  utf8_decode (List.map N_of_ascii (list_ascii_of_string s)).

(** [a == b] on strings. *)
Fixpoint eqb (a b : str) : bool :=
  match a, b with
  | [], [] => true
  | x :: a', y :: b' => (x =? y)%N && eqb a' b'
  | _, _ => false
  end.

(** Truthiness of a string: [if s:]. *)
Definition truthy (s : str) : bool :=
  match s with [] => false | _ :: _ => true end.

(** [s[:n]]. *)
Definition slice_to (n : nat) (s : str) : str := firstn n s.

Fixpoint startswith (s p : str) : bool :=
  match p, s with
  | [], _ => true
  | x :: p', y :: s' => (x =? y)%N && startswith s' p'
  | _ :: _, [] => false
  end.

(** [p in s] (substring test). *)
Fixpoint contains (s p : str) : bool :=
  startswith s p
  || match s with
     | [] => false
     | _ :: s' => contains s' p
     end.

(** [c.isspace()] for one code point. *)
Definition isspace (c : N) : bool :=
  ((9 <=? c) && (c <=? 13) || (28 <=? c) && (c <=? 32)
   || (c =? 133) || (c =? 160) || (c =? 5760)
   || (8192 <=? c) && (c <=? 8202)
   || (c =? 8232) || (c =? 8233) || (c =? 8239) || (c =? 8287)
   || (c =? 12288))%N.

Fixpoint lstrip (s : str) : str :=
  match s with
  | [] => []
  | c :: r => if isspace c then lstrip r else s
  end.

Definition rstrip (s : str) : str := rev (lstrip (rev s)).

(** [s.strip()]. *)
Definition strip (s : str) : str := rstrip (lstrip s).

Definition newline : N := 10.

(** The lazy group of [re.search(open + "(.+?)" + close, s)] once the
    opening glyph has been consumed: [acc] holds the characters taken so
    far (at least one), [.] refuses a newline. *)
Fixpoint lazy_until (close : N) (acc rest : str) : option str :=
  match rest with
  | [] => None
  | c :: rest' =>
      if (c =? close)%N then Some acc
      else if (c =? newline)%N then None
      else lazy_until close (acc ++ [c]) rest'
  end.

Definition group_after (close : N) (rest : str) : option str :=
  match rest with
  | [] => None
  | c :: rest' =>
      if (c =? newline)%N then None else lazy_until close [c] rest'
  end.

(** [re.search] scans start positions from the left; the result is
    [match.group(1)] of the first position that matches. *)
Fixpoint re_search_enclosed (open close : N) (s : str) : option str :=
  match s with
  | [] => None
  | c :: rest =>
      if (c =? open)%N then
        match group_after close rest with
        | Some g => Some g
        | None => re_search_enclosed open close rest
        end
      else re_search_enclosed open close rest
  end.

(** [sep.join(parts)]. *)
Fixpoint join (sep : str) (parts : list str) : str :=
  match parts with
  | [] => []
  | [p] => p
  | p :: ps => p ++ sep ++ join sep ps
  end.

(** [email.split("@")]. *)
Fixpoint split_on (sep : N) (cur s : str) : list str :=
  match s with
  | [] => [cur]
  | c :: r =>
      if (c =? sep)%N then cur :: split_on sep [] r
      else split_on sep (cur ++ [c]) r
  end.

Definition split (sep : N) (s : str) : list str := split_on sep [] s.

Fixpoint mem (x : str) (l : list str) : bool :=
  match l with
  | [] => false
  | y :: l' => eqb x y || mem x l'
  end.

End PyStr.

Import PyStr.

(** ** Exceptions and results *)

(** A raised [Exception] instance: its class name and [str(e)]. *)
Record Exn := mkExn { exn_type : string; exn_text : str }.

Inductive result (A : Type) : Type :=
| Ok (a : A)
| Raise (e : Exn).
Arguments Ok {A} a.
Arguments Raise {A} e.

(** ** Retry utilities: [src/utils/retry.py] *)

Module Retry.

(** [RetryConfig]; [exceptions] is the [isinstance] test against the
    configured tuple of exception types. *)
Record RetryConfig := {
  cfg_max_attempts : Z;
  cfg_initial_delay : Q;
  cfg_max_delay : Q;
  cfg_exponential_base : Q;
  cfg_exceptions : Exn -> bool
}.

Definition default_config : RetryConfig :=
  {| cfg_max_attempts := 3;
     cfg_initial_delay := 1;
     cfg_max_delay := 60;
     cfg_exponential_base := 2;
     cfg_exceptions := fun _ => true |}.

(** Python's [min(a, b)]: the first argument unless the second is
    strictly smaller. *)
Definition py_min (a b : Q) : Q :=
  match Qcompare b a with Lt => b | _ => a end.

(** [range(lo, hi)]. *)
Definition range (lo hi : Z) : list Z :=
  List.map (fun i => (lo + Z.of_nat i)%Z) (seq 0 (Z.to_nat (hi - lo))).

(** [raise None]. *)
Definition raise_none_error : Exn :=
  mkExn "TypeError" (py "exceptions must derive from BaseException").

Section Wrapper.
Context {S A : Type}.

(** What one execution of the wrapper did: the state the operation
    left behind, how often it was invoked, and the arguments of
    [asyncio.sleep] in order. *)
Record Run := mkRun { op_state : S; calls : nat; slept : list Q }.

Variable config : RetryConfig.
(** The wrapped coroutine, as a function of the state it acts on. *)
Variable func : S -> S * result A.

Let max_attempts := cfg_max_attempts config.
Let max_delay := cfg_max_delay config.
Let exponential_base := cfg_exponential_base config.

(** The body of [for attempt in range(1, max_attempts + 1)] together
    with the statement after the loop. *)
Fixpoint attempts_loop (attempts : list Z) (last_exception : option Exn)
         (delay : Q) (st : Run) : Run * result A :=
  match attempts with
  | [] =>
      match last_exception with
      | Some e => (st, Raise e)
      | None => (st, Raise raise_none_error)
      end
  | attempt :: rest =>
      let (s', r) := func (op_state st) in
      let st' := mkRun s' (Datatypes.S (calls st)) (slept st) in
      match r with
      | Ok v => (st', Ok v)
      | Raise e =>
          if cfg_exceptions config e then
            if (attempt =? max_attempts)%Z then (st', Raise e)
            else
              attempts_loop rest (Some e)
                (py_min (delay * exponential_base) max_delay)
                (mkRun s' (Datatypes.S (calls st)) (slept st ++ [delay]))
          else (st', Raise e)
      end
  end.

Definition wrapper (s : S) : Run * result A :=
  attempts_loop (range 1 (max_attempts + 1)) None
                (cfg_initial_delay config) (mkRun s 0 []).

(** The state of the operation after [n] invocations. *)
Fixpoint after (n : nat) (s : S) : S :=
  match n with
  | O => s
  | Datatypes.S n' => after n' (fst (func s))
  end.

(** The first [n] invocations from [s] raise exceptions that the
    configuration catches. *)
Fixpoint fails (n : nat) (s : S) : Prop :=
  match n with
  | O => True
  | Datatypes.S n' =>
      match func s with
      | (s', Raise e) => cfg_exceptions config e = true /\ fails n' s'
      | (_, Ok _) => False
      end
  end.

(** The value of [delay] after [n] failed attempts. *)
Fixpoint iter_delay (n : nat) (delay : Q) : Q :=
  match n with
  | O => delay
  | Datatypes.S n' =>
      iter_delay n' (py_min (delay * exponential_base) max_delay)
  end.

End Wrapper.

(** [async_retry(config, max_attempts, ...)]: a given [config] takes
    precedence over the keyword arguments. *)
Definition async_retry {S A : Type} (config : option RetryConfig)
           (kwargs : RetryConfig) (func : S -> S * result A)
  : S -> Run (S := S) * result A :=
  match config with
  | Some c => wrapper c func
  | None => wrapper kwargs func
  end.

(** The sleeps the loop performs when [n] attempts in a row fail and
    another attempt follows each of them. *)
Fixpoint backoff (max_delay base : Q) (n : nat) (delay : Q) : list Q :=
  match n with
  | O => []
  | Datatypes.S n' =>
      delay :: backoff max_delay base n' (py_min (delay * base) max_delay)
  end.

(** The delay formula as the specification words it: the initial delay
    times the base to the [k], capped at the maximum delay. *)
Definition spec_delay (c : RetryConfig) (k : nat) : Q :=
  Qmin (cfg_initial_delay c * cfg_exponential_base c ^ Z.of_nat k)
       (cfg_max_delay c).

(** An operation that fails [n] times and then succeeds; its state is
    the number of invocations so far. *)
Definition flaky (n : nat) (e : Exn) (v : nat) (k : nat)
  : nat * result nat :=
  (Datatypes.S k, if (k <? n)%nat then Raise e else Ok v).

(** A configuration whose initial delay lies above its maximum delay. *)
Definition steep_config : RetryConfig :=
  {| cfg_max_attempts := 3;
     cfg_initial_delay := 100;
     cfg_max_delay := 60;
     cfg_exponential_base := 2;
     cfg_exceptions := fun _ => true |}.

Definition timeout_error : Exn := mkExn "TimeoutError" (py "timed out").

End Retry.


(** ** Models: [src/models/recording.py] and [src/database.py] *)

Inductive ProcessingStatus :=
| PENDING
| DOWNLOADING
| UPLOADING_YOUTUBE
| TRANSCRIBING
| SUMMARIZING
| SAVING
| COMPLETED
| FAILED.

(** The [str] value of each member of the enumeration. *)
Definition status_value (s : ProcessingStatus) : string :=
  match s with
  | PENDING => "pending"
  | DOWNLOADING => "downloading"
  | UPLOADING_YOUTUBE => "uploading_youtube"
  | TRANSCRIBING => "transcribing"
  | SUMMARIZING => "summarizing"
  | SAVING => "saving"
  | COMPLETED => "completed"
  | FAILED => "failed"
  end.

(** The name of each member, [s.name].  The status column is declared
    [Column(SQLEnum(ProcessingStatus))], which stores a member as its
    name; the routes report [s.value]. *)
Definition status_name (s : ProcessingStatus) : string :=
  match s with
  | PENDING => "PENDING"
  | DOWNLOADING => "DOWNLOADING"
  | UPLOADING_YOUTUBE => "UPLOADING_YOUTUBE"
  | TRANSCRIBING => "TRANSCRIBING"
  | SUMMARIZING => "SUMMARIZING"
  | SAVING => "SAVING"
  | COMPLETED => "COMPLETED"
  | FAILED => "FAILED"
  end.

Definition status_eqb (a b : ProcessingStatus) : bool :=
  match a, b with
  | PENDING, PENDING | DOWNLOADING, DOWNLOADING
  | UPLOADING_YOUTUBE, UPLOADING_YOUTUBE | TRANSCRIBING, TRANSCRIBING
  | SUMMARIZING, SUMMARIZING | SAVING, SAVING
  | COMPLETED, COMPLETED | FAILED, FAILED => true
  | _, _ => false
  end.

(** The state names of the specification's status set, in its order. *)
Definition spec_state_names : list string :=
  ["pending"; "downloading"; "uploading_video"; "transcribing";
   "summarizing"; "saving"; "completed"]%string.

(** Datetimes are seconds since the epoch. *)
Abbreviation datetime := Z (only parsing).

(** [class DBClient]: the columns the modelled code reads or writes.
    [zoom_meeting_ids] and [title_patterns] hold JSON text. *)
Module DBClient.
Record t := mk {
  id : Z;
  name : str;
  description : option str;
  cumulative_summary : option str;
  zoom_meeting_ids : option str;
  title_patterns : option str;
  meeting_count : Z;
  last_meeting_at : option datetime;
  notion_page_id : option str
}.

Definition with_zoom_meeting_ids (c : t) (v : option str) : t :=
  mk (id c) (name c) (description c) (cumulative_summary c) v
     (title_patterns c) (meeting_count c) (last_meeting_at c)
     (notion_page_id c).

Definition with_notion_page_id (c : t) (v : option str) : t :=
  mk (id c) (name c) (description c) (cumulative_summary c)
     (zoom_meeting_ids c) (title_patterns c) (meeting_count c)
     (last_meeting_at c) v.

Definition with_rollup (c : t) (summary : str) (count : Z)
           (last : datetime) : t :=
  mk (id c) (name c) (description c) (Some summary)
     (zoom_meeting_ids c) (title_patterns c) count (Some last)
     (notion_page_id c).
End DBClient.

(** [class DBRecording]. *)
Module DBRecording.
Record t := mk {
  id : Z;
  zoom_meeting_id : str;
  zoom_meeting_uuid : str;
  topic : str;
  start_time : datetime;
  duration_minutes : Z;
  host_email : str;
  recording_url : option str;
  recording_type : str;
  status : ProcessingStatus;
  error_message : option str;
  retry_count : Z;
  youtube_url : option str;
  transcript : option str;
  summary : option str;
  decisions : option str;
  action_items : option str;
  client_id : option Z;
  calendar_event_id : option str;
  notion_page_id : option str;
  updated_at : datetime;
  completed_at : option datetime
}.

Definition with_status (r : t) (s : ProcessingStatus) (now : datetime) : t :=
  mk (id r) (zoom_meeting_id r) (zoom_meeting_uuid r) (topic r)
     (start_time r) (duration_minutes r) (host_email r) (recording_url r)
     (recording_type r) s (error_message r) (retry_count r)
     (youtube_url r) (transcript r) (summary r) (decisions r)
     (action_items r) (client_id r) (calendar_event_id r)
     (notion_page_id r) now (completed_at r).

Definition with_youtube_url (r : t) (v : str) : t :=
  mk (id r) (zoom_meeting_id r) (zoom_meeting_uuid r) (topic r)
     (start_time r) (duration_minutes r) (host_email r) (recording_url r)
     (recording_type r) (status r) (error_message r) (retry_count r)
     (Some v) (transcript r) (summary r) (decisions r)
     (action_items r) (client_id r) (calendar_event_id r)
     (notion_page_id r) (updated_at r) (completed_at r).

Definition with_transcript (r : t) (v : str) : t :=
  mk (id r) (zoom_meeting_id r) (zoom_meeting_uuid r) (topic r)
     (start_time r) (duration_minutes r) (host_email r) (recording_url r)
     (recording_type r) (status r) (error_message r) (retry_count r)
     (youtube_url r) (Some v) (summary r) (decisions r)
     (action_items r) (client_id r) (calendar_event_id r)
     (notion_page_id r) (updated_at r) (completed_at r).

Definition with_summaries (r : t) (s d a : str) : t :=
  mk (id r) (zoom_meeting_id r) (zoom_meeting_uuid r) (topic r)
     (start_time r) (duration_minutes r) (host_email r) (recording_url r)
     (recording_type r) (status r) (error_message r) (retry_count r)
     (youtube_url r) (transcript r) (Some s) (Some d)
     (Some a) (client_id r) (calendar_event_id r)
     (notion_page_id r) (updated_at r) (completed_at r).

Definition with_client_id (r : t) (v : Z) : t :=
  mk (id r) (zoom_meeting_id r) (zoom_meeting_uuid r) (topic r)
     (start_time r) (duration_minutes r) (host_email r) (recording_url r)
     (recording_type r) (status r) (error_message r) (retry_count r)
     (youtube_url r) (transcript r) (summary r) (decisions r)
     (action_items r) (Some v) (calendar_event_id r)
     (notion_page_id r) (updated_at r) (completed_at r).

Definition with_calendar_event_id (r : t) (v : str) : t :=
  mk (id r) (zoom_meeting_id r) (zoom_meeting_uuid r) (topic r)
     (start_time r) (duration_minutes r) (host_email r) (recording_url r)
     (recording_type r) (status r) (error_message r) (retry_count r)
     (youtube_url r) (transcript r) (summary r) (decisions r)
     (action_items r) (client_id r) (Some v)
     (notion_page_id r) (updated_at r) (completed_at r).

Definition with_notion_page_id (r : t) (v : str) : t :=
  mk (id r) (zoom_meeting_id r) (zoom_meeting_uuid r) (topic r)
     (start_time r) (duration_minutes r) (host_email r) (recording_url r)
     (recording_type r) (status r) (error_message r) (retry_count r)
     (youtube_url r) (transcript r) (summary r) (decisions r)
     (action_items r) (client_id r) (calendar_event_id r)
     (Some v) (updated_at r) (completed_at r).

(** [status = COMPLETED; completed_at = utcnow()]. *)
Definition with_completed (r : t) (now : datetime) : t :=
  mk (id r) (zoom_meeting_id r) (zoom_meeting_uuid r) (topic r)
     (start_time r) (duration_minutes r) (host_email r) (recording_url r)
     (recording_type r) COMPLETED (error_message r) (retry_count r)
     (youtube_url r) (transcript r) (summary r) (decisions r)
     (action_items r) (client_id r) (calendar_event_id r)
     (notion_page_id r) (updated_at r) (Some now).

(** [status = FAILED; error_message = msg; retry_count += 1]. *)
Definition with_failure (r : t) (msg : str) : t :=
  mk (id r) (zoom_meeting_id r) (zoom_meeting_uuid r) (topic r)
     (start_time r) (duration_minutes r) (host_email r) (recording_url r)
     (recording_type r) FAILED (Some msg) (retry_count r + 1)
     (youtube_url r) (transcript r) (summary r) (decisions r)
     (action_items r) (client_id r) (calendar_event_id r)
     (notion_page_id r) (updated_at r) (completed_at r).

End DBRecording.

(** ** The store and the trace of effects *)

(** External capabilities the pipeline calls. *)
Inductive Service :=
| SvcDownload
| SvcUpload
| SvcTranscribe
| SvcSummarize
| SvcNotifyIdentification
| SvcCreateClientPage
| SvcCreateMeetingPage
| SvcAppendMeetingRecord
| SvcAppendClientSheet
| SvcFindCalendarEvent
| SvcUpdateCalendarEvent
| SvcNotionClientSummary
| SvcSheetsClientSummary
| SvcNotifyComplete
| SvcNotifyError
| SvcCleanupFile.

Inductive Event :=
| EvStart (rid : Z)
    (* process_recording(rid) was entered *)
| EvStatus (rid : Z) (s : ProcessingStatus)
    (* the status the row of [rid] holds after a commit that followed an
       assignment to [recording.status] *)
| EvCall (svc : Service)
    (* an external capability was invoked *)
| EvInfer (title domains transcript_start : str)
    (* the client-inference text-generation request and its variables *)
| EvCumulative (meeting_summaries : list (str * str))
    (* the cumulative-summary request and its dated inputs *).

(** The tables, the auto-increment counters, the background-task queue
    and the trace. *)
Record World := mkWorld {
  recordings : list DBRecording.t;
  clients : list DBClient.t;
  next_recording_id : Z;
  next_client_id : Z;
  tasks : list Z;
  log : list Event
}.

Definition set_recordings (w : World) (rs : list DBRecording.t) : World :=
  mkWorld rs (clients w) (next_recording_id w) (next_client_id w)
          (tasks w) (log w).

Definition set_clients (w : World) (cs : list DBClient.t) : World :=
  mkWorld (recordings w) cs (next_recording_id w) (next_client_id w)
          (tasks w) (log w).

Definition add_log (w : World) (e : Event) : World :=
  mkWorld (recordings w) (clients w) (next_recording_id w)
          (next_client_id w) (tasks w) (log w ++ [e]).

(** ** The state-and-exception monad

    A raised exception keeps the state reached so far, as in Python. *)

Definition M (A : Type) : Type := World -> World * result A.

Definition ret {A} (a : A) : M A := fun w => (w, Ok a).

Definition raise {A} (e : Exn) : M A := fun w => (w, Raise e).

Definition bind {A B} (m : M A) (k : A -> M B) : M B :=
  fun w =>
    match m w with
    | (w', Ok a) => k a w'
    | (w', Raise e) => (w', Raise e)
    end.

(** [try: body except Exception as e: handler e]. *)
Definition try_except {A} (body : M A) (handler : Exn -> M A) : M A :=
  fun w =>
    match body w with
    | (w', Ok a) => (w', Ok a)
    | (w', Raise e) => handler e w'
    end.

Definition get_world : M World := fun w => (w, Ok w).

Definition modify (f : World -> World) : M unit := fun w => (f w, Ok tt).

Definition emit (e : Event) : M unit := modify (fun w => add_log w e).

Definition lift {A} (r : result A) : M A := fun w => (w, r).

Declare Scope py_scope.
Delimit Scope py_scope with py.
Notation "x <- m ;; k" := (bind m (fun x => k))
  (at level 100, m at next level, right associativity) : py_scope.
Notation "m ;; k" := (bind m (fun _ => k))
  (at level 100, right associativity) : py_scope.
Open Scope py_scope.

(** An awaited external call: it is recorded, then yields its outcome. *)
Definition call {A} (svc : Service) (outcome : result A) : M A :=
  emit (EvCall svc) ;; lift outcome.

(** ** Queries *)

(** [result.scalar_one_or_none()]. *)
Definition multiple_results : Exn :=
  mkExn "MultipleResultsFound"
        (py "Multiple rows were found when one or none was required").

Definition scalar_one_or_none {A} (rows : list A) : result (option A) :=
  match rows with
  | [] => Ok None
  | [r] => Ok (Some r)
  | _ :: _ :: _ => Raise multiple_results
  end.

(** A lookup by primary key: at most one row carries it. *)
Definition select_recording (rid : Z) : M (option DBRecording.t) :=
  w <- get_world ;;
  ret (find (fun r => (DBRecording.id r =? rid)%Z) (recordings w)).

(** Assign to attributes of the loaded row and commit. *)
Definition update_recording (rid : Z) (f : DBRecording.t -> DBRecording.t)
  : M unit :=
  modify (fun w =>
    set_recordings w
      (List.map (fun r => if (DBRecording.id r =? rid)%Z then f r else r)
                (recordings w))).

Definition store_client (c : DBClient.t) : M unit :=
  modify (fun w =>
    set_clients w
      (List.map (fun r => if (DBClient.id r =? DBClient.id c)%Z then c else r)
                (clients w))).

Definition select_client (cid : Z) : M (option DBClient.t) :=
  w <- get_world ;;
  ret (find (fun c => (DBClient.id c =? cid)%Z) (clients w)).

(** ** Library functions the sources rely on

    [str.lower], [json.loads], [json.dumps], [datetime.strftime] and the
    decimal rendering of an [int] are Python's own; the model takes them as an interface.  [json_loads]
    answers [Some l] when the text decodes to the list of strings [l] and
    [None] when [json.loads] raises; a text that decodes to anything else
    is outside the columns' type and is treated like a decoding error. *)
Class PyLib := {
  str_lower : str -> str;
  json_loads : str -> option (list str);
  json_dumps : list str -> str;
  strftime_ymd : datetime -> str;
  str_of_int : Z -> str
}.

(** What the collaborators answer during one run of the pipeline: each
    field is the outcome of the corresponding awaited call once its own
    retry wrapper has finished. *)
Record Env := mkEnv {
  utcnow : datetime;
  auto_delete_after_processing : bool;
  downloaded_file_exists : bool;
  format_exc : Exn -> str;
  download_recording : result str;
  upload_video : result str;
  transcribe : result str;
  generate_summary : result str;
  extract_decisions : result str;
  extract_action_items : result str;
  call_gpt_identify : str -> str -> str -> result str;
  send_client_identification_request : result unit;
  create_client_page : result str;
  create_meeting_page : result str;
  append_meeting_record : result unit;
  append_to_client_sheet : result unit;
  find_event_by_zoom_meeting : result (option str);
  update_event_with_recording : result unit;
  generate_cumulative_summary : list (str * str) -> result str;
  notion_update_client_summary : result unit;
  sheets_update_client_summary : result unit;
  send_processing_complete : result unit;
  send_processing_error : result unit
}.

Definition quote_char : N := 34.

(** The f-string [f'["{s}"]']. *)
Definition fstring_json_list (s : str) : str :=
  py "[" ++ [quote_char] ++ s ++ [quote_char] ++ py "]".

Definition unknown_sentinel : str := py "不明".

Section WithLib.
Context {L : PyLib}.

Definition json_decode_error : Exn :=
  mkExn "JSONDecodeError" (py "Expecting value").

(** [json.loads(column)] when the column is truthy, [[]] otherwise. *)
Definition get_json_list (column : option str) : result (list str) :=
  match column with
  | None => Ok []
  | Some text =>
      if truthy text then
        match json_loads text with
        | Some l => Ok l
        | None => Raise json_decode_error
        end
      else Ok []
  end.

Definition get_zoom_meeting_ids (c : DBClient.t) : result (list str) :=
  get_json_list (DBClient.zoom_meeting_ids c).

Definition set_zoom_meeting_ids (c : DBClient.t) (ids : list str)
  : DBClient.t :=
  DBClient.with_zoom_meeting_ids c (Some (json_dumps ids)).

Definition get_title_patterns (c : DBClient.t) : result (list str) :=
  get_json_list (DBClient.title_patterns c).

(** *** [SummaryService.identify_client] *)

Definition SummaryService_identify_client (env : Env)
           (title transcript_start : str) (email_domains : list str)
  : M str :=
  let domains :=
    match email_domains with
    | [] => unknown_sentinel
    | _ :: _ => join (py ", ") email_domains
    end in
  emit (EvInfer title domains (slice_to 1000 transcript_start)) ;;
  r <- lift (call_gpt_identify env title domains
                               (slice_to 1000 transcript_start)) ;;
  ret (strip r).

(** *** [class ClientService] *)

Fixpoint match_ids_loop (cs : list DBClient.t) (zoom_meeting_id : str)
  : result (option DBClient.t) :=
  match cs with
  | [] => Ok None
  | client :: cs' =>
      match get_zoom_meeting_ids client with
      | Raise e => Raise e
      | Ok meeting_ids =>
          if mem zoom_meeting_id meeting_ids then Ok (Some client)
          else match_ids_loop cs' zoom_meeting_id
      end
  end.

Definition _match_by_meeting_id (zoom_meeting_id : str)
  : M (option DBClient.t) :=
  w <- get_world ;;
  lift (match_ids_loop (clients w) zoom_meeting_id).

Definition _extract_client_from_title (title : str) : option str :=
  match re_search_enclosed 12304 12305 title with
  | Some g => Some (strip g)
  | None =>
      match re_search_enclosed 91 93 title with
      | Some g => Some (strip g)
      | None => None
      end
  end.

Definition any_pattern_in (patterns : list str) (title_lower : str) : bool :=
  existsb (fun pattern => contains title_lower (str_lower pattern)) patterns.

Fixpoint match_patterns_loop (cs : list DBClient.t) (title_lower : str)
  : result (option DBClient.t) :=
  match cs with
  | [] => Ok None
  | client :: cs' =>
      match get_title_patterns client with
      | Raise e => Raise e
      | Ok patterns =>
          if any_pattern_in patterns title_lower then Ok (Some client)
          else if contains title_lower (str_lower (DBClient.name client))
               then Ok (Some client)
               else match_patterns_loop cs' title_lower
      end
  end.

Definition _match_by_title_pattern (title : str) : M (option DBClient.t) :=
  w <- get_world ;;
  lift (match_patterns_loop (clients w) (str_lower title)).

(** Returns the client object as it is after the call. *)
Definition _add_meeting_id_to_client (client : DBClient.t)
           (zoom_meeting_id : str) : M DBClient.t :=
  meeting_ids <- lift (get_zoom_meeting_ids client) ;;
  if mem zoom_meeting_id meeting_ids then ret client
  else
    let client' :=
      set_zoom_meeting_ids client (meeting_ids ++ [zoom_meeting_id]) in
    store_client client' ;;
    ret client'.

Definition new_client (pk : Z) (name zoom_meeting_id : str) : DBClient.t :=
  DBClient.mk pk name None None
              (Some (fstring_json_list zoom_meeting_id))
              (Some (fstring_json_list name))
              0 None None.

Definition _get_or_create_client (name zoom_meeting_id : str)
  : M DBClient.t :=
  w <- get_world ;;
  existing <- lift (scalar_one_or_none
                      (filter (fun c => eqb (DBClient.name c) name)
                              (clients w))) ;;
  match existing with
  | Some client =>
      _add_meeting_id_to_client client zoom_meeting_id
  | None =>
      let client := new_client (next_client_id w) name zoom_meeting_id in
      modify (fun w =>
        mkWorld (recordings w) (clients w ++ [client])
                (next_recording_id w) (next_client_id w + 1)
                (tasks w) (log w)) ;;
      ret client
  end.

Definition free_mail : list str :=
  [py "gmail.com"; py "yahoo.co.jp"; py "outlook.com"].

(** The [set] of domains, listed in order of first appearance. *)
Fixpoint _extract_domains_from (emails : list str) (domains : list str)
  : list str :=
  match emails with
  | [] => domains
  | email :: rest =>
      if contains email (py "@") then
        let domain := nth 1 (split 64 email) [] in
        if mem domain free_mail then _extract_domains_from rest domains
        else if mem domain domains then _extract_domains_from rest domains
        else _extract_domains_from rest (domains ++ [domain])
      else _extract_domains_from rest domains
  end.

Definition _extract_domains (emails : list str) : list str :=
  _extract_domains_from emails [].

Definition identify_client (env : Env) (meeting_title zoom_meeting_id : str)
           (transcript_start : option str)
           (participant_emails : option (list str))
  : M (option DBClient.t) :=
  (* Strategy 1: match by Zoom meeting ID *)
  client <- _match_by_meeting_id zoom_meeting_id ;;
  match client with
  | Some c => ret (Some c)
  | None =>
      (* Strategy 2: match by title pattern *)
      match _extract_client_from_title meeting_title with
      | Some ((_ :: _) as client_name) =>
          c <- _get_or_create_client client_name zoom_meeting_id ;;
          ret (Some c)
      | _ =>
          (* Strategy 3: match by stored title patterns *)
          client <- _match_by_title_pattern meeting_title ;;
          match client with
          | Some c =>
              c' <- _add_meeting_id_to_client c zoom_meeting_id ;;
              ret (Some c')
          | None =>
              (* Strategy 4: AI inference (if transcript available) *)
              match transcript_start with
              | Some ((_ :: _) as ts) =>
                  let email_domains :=
                    _extract_domains
                      (match participant_emails with
                       | Some l => l
                       | None => []
                       end) in
                  inferred_name <-
                    SummaryService_identify_client
                      env meeting_title ts email_domains ;;
                  if truthy inferred_name
                     && negb (eqb inferred_name unknown_sentinel)
                  then
                    c <- _get_or_create_client inferred_name
                                               zoom_meeting_id ;;
                    ret (Some c)
                  else ret None
              | _ => ret None
              end
          end
      end
  end.

(** [.order_by(DBRecording.start_time)]: ascending; rows with equal
    start times keep their table order. *)
Fixpoint insert_by_start_time (r : DBRecording.t) (l : list DBRecording.t)
  : list DBRecording.t :=
  match l with
  | [] => [r]
  | x :: l' =>
      if (DBRecording.start_time r <=? DBRecording.start_time x)%Z
      then r :: l
      else x :: insert_by_start_time r l'
  end.

Definition order_by_start_time (l : list DBRecording.t)
  : list DBRecording.t :=
  fold_right insert_by_start_time [] l.

Definition is_some {A} (o : option A) : bool :=
  match o with Some _ => true | None => false end.

(** [.where(DBRecording.client_id == cid)
     .where(DBRecording.summary.isnot(None))]. *)
Definition rollup_selects (cid : Z) (r : DBRecording.t) : bool :=
  match DBRecording.client_id r with
  | Some c => (c =? cid)%Z
  | None => false
  end
  && is_some (DBRecording.summary r).

Definition starts_before (a b : DBRecording.t) : Prop :=
  (DBRecording.start_time a <= DBRecording.start_time b)%Z.

(** The query of [update_client_summary], ordered by start time. *)
Definition summarized_meetings (w : World) (cid : Z) : list DBRecording.t :=
  order_by_start_time (filter (rollup_selects cid) (recordings w)).

Definition meeting_summary_entry (m : DBRecording.t) : str * str :=
  (strftime_ymd (DBRecording.start_time m),
   match DBRecording.summary m with Some s => s | None => [] end).

Definition client_not_found (client_id : Z) : Exn :=
  mkExn "ValueError" (py "Client not found: " ++ str_of_int client_id).

Definition update_client_summary (env : Env) (client_id : Z) : M str :=
  found <- select_client client_id ;;
  match found with
  | None => raise (client_not_found client_id)
  | Some client =>
      w <- get_world ;;
      let meetings := summarized_meetings w client_id in
      match meetings with
      | [] => ret []
      | m0 :: _ =>
          let meeting_summaries := List.map meeting_summary_entry meetings in
          emit (EvCumulative meeting_summaries) ;;
          cumulative <- lift (generate_cumulative_summary
                                env meeting_summaries) ;;
          store_client
            (DBClient.with_rollup client cumulative
               (Z.of_nat (List.length meetings))
               (DBRecording.start_time (last meetings m0))) ;;
          ret cumulative
      end
  end.

End WithLib.

(** ** The webhook: [src/webhook/zoom_handler.py] *)

Module RecordingFile.
Record t := mk {
  file_id : str;
  file_type : str;
  file_size : Z;
  download_url : str;
  recording_start : datetime;
  recording_end : datetime
}.
End RecordingFile.

(** [class ZoomWebhookPayload]: the properties read off [payload], with
    the timestamps already parsed. *)
Module ZoomWebhookPayload.
Record t := mk {
  account_id : str;
  meeting_id : str;
  meeting_uuid : str;
  topic : str;
  start_time : option datetime;
  duration : Z;
  host_email : str;
  files : list RecordingFile.t
}.

Definition recording_files (p : t) : list RecordingFile.t :=
  filter (fun f => mem (RecordingFile.file_type f) [py "MP4"; py "M4A"])
         (files p).

Definition get_mp4_file (p : t) : option RecordingFile.t :=
  find (fun f => eqb (RecordingFile.file_type f) (py "MP4"))
       (recording_files p).
End ZoomWebhookPayload.

Definition new_recording (pk : Z) (payload : ZoomWebhookPayload.t)
           (mp4_file : RecordingFile.t) (now : datetime) : DBRecording.t :=
  DBRecording.mk pk
    (ZoomWebhookPayload.meeting_id payload)
    (ZoomWebhookPayload.meeting_uuid payload)
    (ZoomWebhookPayload.topic payload)
    (match ZoomWebhookPayload.start_time payload with
     | Some t => t
     | None => now
     end)
    (ZoomWebhookPayload.duration payload)
    (ZoomWebhookPayload.host_email payload)
    (Some (RecordingFile.download_url mp4_file))
    (RecordingFile.file_type mp4_file)
    PENDING None 0 None None None None None None None None now None.

(** [handle_recording_completed]; [background_tasks.add_task] appends the
    new id to the task queue. *)
Definition handle_recording_completed (now : datetime)
           (payload : ZoomWebhookPayload.t) : M (option DBRecording.t) :=
  match ZoomWebhookPayload.get_mp4_file payload with
  | None => ret None
  | Some mp4_file =>
      w <- get_world ;;
      existing <-
        lift (scalar_one_or_none
                (filter (fun r => eqb (DBRecording.zoom_meeting_uuid r)
                                      (ZoomWebhookPayload.meeting_uuid payload))
                        (recordings w))) ;;
      match existing with
      | Some _ => ret None
      | None =>
          let recording :=
            new_recording (next_recording_id w) payload mp4_file now in
          modify (fun w =>
            mkWorld (recordings w ++ [recording]) (clients w)
                    (next_recording_id w + 1) (next_client_id w)
                    (tasks w ++ [DBRecording.id recording]) (log w)) ;;
          ret (Some recording)
      end
  end.

(** ** The worker: [src/workers/processing_worker.py] *)

Section Worker.
Context {L : PyLib}.

(** What the trace gets when a commit has written the status column of
    recording [rid]: the status read back from the stored row. *)
Definition trace_status (rid : Z) : M unit :=
  stored <- select_recording rid ;;
  match stored with
  | Some r => emit (EvStatus rid (DBRecording.status r))
  | None => ret tt
  end.

Definition update_status (env : Env) (rid : Z) (status : ProcessingStatus)
  : M unit :=
  update_recording rid (fun r => DBRecording.with_status r status (utcnow env)) ;;
  trace_status rid.

(** [asyncio.gather] of the three generation tasks: all three results, or
    the exception of the first task (in argument order) that failed. *)
Definition gather3 (a b c : result str) : result (str * str * str) :=
  match a, b, c with
  | Ok x, Ok y, Ok z => Ok (x, y, z)
  | Raise e, _, _ => Raise e
  | _, Raise e, _ => Raise e
  | _, _, Raise e => Raise e
  end.

Definition option_truthy (o : option str) : bool :=
  match o with Some s => truthy s | None => false end.

(** Steps 2 to 10 of the [try] block. *)
Definition stages_after_download (env : Env) (recording : DBRecording.t)
           (downloaded_file : str) : M unit :=
  let rid := DBRecording.id recording in
  (* Step 2: upload to YouTube *)
  update_status env rid UPLOADING_YOUTUBE ;;
  youtube_url <- call SvcUpload (upload_video env) ;;
  update_recording rid (fun r => DBRecording.with_youtube_url r youtube_url) ;;
  (* Step 3: transcribe *)
  update_status env rid TRANSCRIBING ;;
  transcript <- call SvcTranscribe (transcribe env) ;;
  update_recording rid (fun r => DBRecording.with_transcript r transcript) ;;
  (* Step 4: generate summary *)
  update_status env rid SUMMARIZING ;;
  sda <- call SvcSummarize
              (gather3 (generate_summary env) (extract_decisions env)
                       (extract_action_items env)) ;;
  let '(summary, decisions, action_items) := sda in
  update_recording rid
    (fun r => DBRecording.with_summaries r summary decisions action_items) ;;
  (* Step 5: identify client *)
  client <- identify_client env (DBRecording.topic recording)
              (DBRecording.zoom_meeting_id recording)
              (if truthy transcript then Some (slice_to 2000 transcript)
               else None)
              None ;;
  match client with
  | Some c =>
      update_recording rid
        (fun r => DBRecording.with_client_id r (DBClient.id c))
  | None =>
      call SvcNotifyIdentification (send_client_identification_request env)
  end ;;
  (* Step 6: save to Notion and Sheets *)
  update_status env rid SAVING ;;
  client_notion_id <-
    match client with
    | Some c =>
        if option_truthy (DBClient.notion_page_id c)
        then ret (DBClient.notion_page_id c)
        else
          created <- call SvcCreateClientPage (create_client_page env) ;;
          store_client (DBClient.with_notion_page_id c (Some created)) ;;
          ret (Some created)
    | None => ret None
    end ;;
  notion_page_id <- call SvcCreateMeetingPage (create_meeting_page env) ;;
  update_recording rid
    (fun r => DBRecording.with_notion_page_id r notion_page_id) ;;
  call SvcAppendMeetingRecord (append_meeting_record env) ;;
  match client with
  | Some _ => call SvcAppendClientSheet (append_to_client_sheet env)
  | None => ret tt
  end ;;
  (* Step 7: update calendar event *)
  calendar_event <- call SvcFindCalendarEvent
                         (find_event_by_zoom_meeting env) ;;
  match calendar_event with
  | Some event_id =>
      call SvcUpdateCalendarEvent (update_event_with_recording env) ;;
      update_recording rid
        (fun r => DBRecording.with_calendar_event_id r event_id)
  | None => ret tt
  end ;;
  (* Step 8: update client cumulative summary *)
  match client with
  | Some c =>
      cumulative <- update_client_summary env (DBClient.id c) ;;
      (* [client.notion_page_id] is [client_notion_id] since step 6 *)
      (if option_truthy client_notion_id
       then call SvcNotionClientSummary (notion_update_client_summary env)
       else ret tt) ;;
      call SvcSheetsClientSummary (sheets_update_client_summary env)
  | None => ret tt
  end ;;
  (* Step 9: send notifications *)
  call SvcNotifyComplete (send_processing_complete env) ;;
  (* Step 10: mark complete and clean up *)
  update_recording rid (fun r => DBRecording.with_completed r (utcnow env)) ;;
  trace_status rid ;;
  if auto_delete_after_processing env
  then call SvcCleanupFile (Ok tt)
  else ret tt.

(** The [except Exception as e] block; [downloaded_file] is the local
    variable as it stands when the exception arrives. *)
Definition on_failure {A} (env : Env) (rid : Z)
           (downloaded_file : option str) (e : Exn) : M A :=
  let error_msg := exn_text e ++ [newline] ++ format_exc env e in
  update_recording rid
    (fun r => DBRecording.with_failure r (slice_to 2000 error_msg)) ;;
  trace_status rid ;;
  try_except (call SvcNotifyError (send_processing_error env))
             (fun _ => ret tt) ;;
  match downloaded_file with
  | Some _ =>
      if downloaded_file_exists env then call SvcCleanupFile (Ok tt)
      else ret tt
  | None => ret tt
  end ;;
  raise e.

(** [process_recording].  The [try] block is entered in two parts that
    share the handler: up to the assignment of [downloaded_file], and
    after it, so that the handler is given the local variable as the
    sources' handler finds it. *)
Definition process_recording (env : Env) (recording_id : Z) : M unit :=
  emit (EvStart recording_id) ;;
  found <- select_recording recording_id ;;
  match found with
  | None => ret tt
  | Some recording =>
      (* Step 1: download from Zoom *)
      downloaded_file <-
        try_except
          (update_status env recording_id DOWNLOADING ;;
           call SvcDownload (download_recording env))
          (on_failure env recording_id None) ;;
      try_except
        (stages_after_download env recording downloaded_file)
        (on_failure env recording_id (Some downloaded_file))
  end.

Fixpoint for_each {A} (l : list A) (body : A -> M unit) : M unit :=
  match l with
  | [] => ret tt
  | x :: l' => body x ;; for_each l' body
  end.

(** The rows the sweep selects. *)
Definition sweep_selects (r : DBRecording.t) : bool :=
  status_eqb (DBRecording.status r) FAILED
  && (DBRecording.retry_count r <? 3)%Z.

(** [retry_failed_recordings]; [envs] gives the collaborators' answers
    for the run of each recording. *)
Definition retry_failed_recordings (envs : Z -> Env) : M unit :=
  w <- get_world ;;
  let selected := filter sweep_selects (recordings w) in
  for_each selected
    (fun recording =>
       try_except
         (process_recording (envs (DBRecording.id recording))
                            (DBRecording.id recording))
         (fun _ => ret tt)).

(** The manual retry of [api/meetings.py]; the two [HTTPException]s are
    the 404 and the 400 of the route. *)
Definition http_exception (code : string) : Exn := mkExn "HTTPException" (py code).


End Worker.

(** ** Reading the trace *)

(** The statuses traced for recording [rid], in order: each was read from
    the stored row after a write of its status column. *)
Fixpoint status_trace (rid : Z) (l : list Event) : list ProcessingStatus :=
  match l with
  | [] => []
  | EvStatus r s :: l' =>
      if (r =? rid)%Z then s :: status_trace rid l' else status_trace rid l'
  | _ :: l' => status_trace rid l'
  end.

(** The recordings [process_recording] was invoked on, in order. *)
Fixpoint started (l : list Event) : list Z :=
  match l with
  | [] => []
  | EvStart r :: l' => r :: started l'
  | _ :: l' => started l'
  end.

Definition is_start (e : Event) : bool :=
  match e with EvStart _ => true | _ => false end.

Definition is_status (e : Event) : bool :=
  match e with EvStatus _ _ => true | _ => false end.

(** Events of the resolver and of the aggregator. *)
Definition is_generation (e : Event) : bool :=
  match e with EvInfer _ _ _ | EvCumulative _ => true | _ => false end.

(** An inference request carries the placeholder in place of domains. *)
Definition infer_without_domains (e : Event) : Prop :=
  match e with
  | EvInfer _ domains _ => domains = unknown_sentinel
  | _ => True
  end.

(** The row of recording [rid]. *)
Definition row (w : World) (rid : Z) : option DBRecording.t :=
  find (fun r => (DBRecording.id r =? rid)%Z) (recordings w).

Definition client_row (w : World) (cid : Z) : option DBClient.t :=
  find (fun c => (DBClient.id c =? cid)%Z) (clients w).

(** How many recordings carry the occurrence id [uuid]. *)
Definition count_uuid (w : World) (uuid : str) : nat :=
  List.length
    (filter (fun r => eqb (DBRecording.zoom_meeting_uuid r) uuid)
            (recordings w)).

Definition client_names (w : World) : list str :=
  List.map DBClient.name (clients w).

(** The statuses the row of recording [rid] holds over a run from [w] to
    [w']: the one it has in [w], then those read from it after each write
    of its status column. *)
Definition observed_statuses (w w' : World) (rid : Z)
  : list ProcessingStatus :=
  match row w rid with
  | Some r =>
      DBRecording.status r
        :: status_trace rid (skipn (List.length (log w)) (log w'))
  | None => []
  end.

(** The events of the resolver when it is called without participant
    emails, and those of the aggregator. *)
Definition resolver_event (e : Event) : Prop :=
  match e with
  | EvInfer _ domains _ => domains = unknown_sentinel
  | _ => False
  end.

Definition rollup_event (e : Event) : Prop :=
  match e with
  | EvCumulative _ => True
  | _ => False
  end.

(** [m] only appends events that satisfy [P] to the trace. *)
Definition appends {A} (P : Event -> Prop) (m : M A) : Prop :=
  forall w, exists l, log (fst (m w)) = log w ++ l /\ Forall P l.

(** [m] leaves the recordings table as it is. *)
Definition keeps_recordings {A} (m : M A) : Prop :=
  forall w, recordings (fst (m w)) = recordings w.

(** Whenever [m] starts on a store whose row of [rid] has status [s]
    and returns normally, the row of [rid] then has status [s'], the
    events [m] appended satisfy [Q], and the statuses traced for [rid]
    are exactly [T]. *)
Definition run_ok {A} (rid : Z) (Q : Event -> Prop)
           (s : ProcessingStatus) (T : list ProcessingStatus)
           (s' : ProcessingStatus) (m : M A) : Prop :=
  forall w w' a r,
    row w rid = Some r -> DBRecording.status r = s ->
    m w = (w', Ok a) ->
    (exists r', row w' rid = Some r' /\ DBRecording.status r' = s')
    /\ exists l, log w' = log w ++ l /\ status_trace rid l = T /\ Forall Q l.

(** [m] maintains the property [I] of the store. *)
Definition preserves {A} (I : World -> Prop) (m : M A) : Prop :=
  forall w, I w -> I (fst (m w)).

(** Recording [rid] exists and has been retried [n] times. *)
Definition retried (rid n : Z) (w : World) : Prop :=
  exists r, row w rid = Some r /\ DBRecording.retry_count r = n.

(** What a successful run may have logged: the calendar calls and the
    completion notice, when invoked, returned normally. *)
Definition call_succeeded (env : Env) (e : Event) : Prop :=
  match e with
  | EvCall SvcFindCalendarEvent =>
      exists o, find_event_by_zoom_meeting env = Ok o
  | EvCall SvcUpdateCalendarEvent =>
      update_event_with_recording env = Ok tt
  | EvCall SvcNotifyComplete => send_processing_complete env = Ok tt
  | _ => True
  end.

(** The outcome the collaborators give to one of the three calls of the
    calendar-sync step and the completion notice. *)
Definition side_channel_outcome (env : Env) (svc : Service)
  : option (result unit) :=
  match svc with
  | SvcFindCalendarEvent =>
      Some (match find_event_by_zoom_meeting env with
            | Ok _ => Ok tt
            | Raise e => Raise e
            end)
  | SvcUpdateCalendarEvent => Some (update_event_with_recording env)
  | SvcNotifyComplete => Some (send_processing_complete env)
  | _ => None
  end.

(** The text the failure handler stores as [error_message]. *)
Definition stored_error (env : Env) (e : Exn) : str :=
  slice_to 2000 (exn_text e ++ [newline] ++ format_exc env e).

(** ** Notions about the accounts table *)

(** The rows after [store_client c']. *)
Definition replaced (c' : DBClient.t) (cs : list DBClient.t)
  : list DBClient.t :=
  List.map (fun r => if (DBClient.id r =? DBClient.id c')%Z then c' else r) cs.


Section ResolverNotions.
Context {L : PyLib}.

(** The learned-id set of [c] decodes and contains [zid]. *)
Definition holds_id (zid : str) (c : DBClient.t) : Prop :=
  exists ids, get_zoom_meeting_ids c = Ok ids /\ mem zid ids = true.


(** The constraints of the [clients] table: unique names, unique primary
    keys, and keys below the auto-increment counter. *)
Definition clients_wf (w : World) : Prop :=
  NoDup (client_names w)
  /\ NoDup (List.map DBClient.id (clients w))
  /\ forall c, In c (clients w) -> (DBClient.id c < next_client_id w)%Z.




End ResolverNotions.

(** ** A concrete library for examples

    ASCII lower-casing; a JSON codec for lists of strings that writes
    characters raw, escaping only the quotation mark and the backslash (as
    [json.dumps(ensure_ascii=False)] does on text without control
    characters) and that reads arrays of strings with these escapes; the
    civil date of a timestamp; decimal numerals. *)

Module ExampleLib.

Definition ascii_lower (s : str) : str :=
  List.map (fun c => if ((65 <=? c) && (c <=? 90))%N then (c + 32)%N else c) s.

Fixpoint escape (s : str) : str :=
  match s with
  | [] => []
  | c :: r =>
      if ((c =? 34) || (c =? 92))%N then 92%N :: c :: escape r
      else c :: escape r
  end.

Definition quoted (s : str) : str := 34%N :: escape s ++ [34%N].

Fixpoint items (l : list str) : str :=
  match l with
  | [] => []
  | [s] => quoted s
  | s :: l' => quoted s ++ [44%N; 32%N] ++ items l'
  end.

Definition dumps (l : list str) : str := 91%N :: items l ++ [93%N].

Inductive pstate :=
| PStart
| POpen
| PStr (acc : str)
| PEsc (acc : str)
| PAfter
| PComma
| PDone.

Definition ws (c : N) : bool :=
  ((c =? 32) || (c =? 9) || (c =? 10) || (c =? 13))%N.

Fixpoint parse (st : pstate) (done : list str) (text : str)
  : option (list str) :=
  match text with
  | [] => match st with PDone => Some done | _ => None end
  | c :: r =>
      match st with
      | PStart =>
          if ws c then parse PStart done r
          else if (c =? 91)%N then parse POpen done r else None
      | POpen =>
          if ws c then parse POpen done r
          else if (c =? 93)%N then parse PDone done r
          else if (c =? 34)%N then parse (PStr []) done r else None
      | PStr acc =>
          if (c =? 34)%N then parse PAfter (done ++ [acc]) r
          else if (c =? 92)%N then parse (PEsc acc) done r
          else parse (PStr (acc ++ [c])) done r
      | PEsc acc =>
          if ((c =? 34) || (c =? 92) || (c =? 47))%N
          then parse (PStr (acc ++ [c])) done r else None
      | PAfter =>
          if ws c then parse PAfter done r
          else if (c =? 44)%N then parse PComma done r
          else if (c =? 93)%N then parse PDone done r else None
      | PComma =>
          if ws c then parse PComma done r
          else if (c =? 34)%N then parse (PStr []) done r else None
      | PDone => if ws c then parse PDone done r else None
      end
  end.

Definition loads (text : str) : option (list str) := parse PStart [] text.

Fixpoint digits (fuel : nat) (n : Z) (acc : str) : str :=
  match fuel with
  | O => acc
  | S fuel' =>
      let acc' := (Z.to_N (n mod 10) + 48)%N :: acc in
      if (n <? 10)%Z then acc' else digits fuel' (n / 10) acc'
  end.

Definition decimal (n : Z) : str :=
  if (n <? 0)%Z
  then 45%N :: digits (S (Z.to_nat (Z.log2 (- n)))) (- n) []
  else digits (S (Z.to_nat (Z.log2 n))) n [].

Definition two_digits (n : Z) : str :=
  [(Z.to_N (n / 10 mod 10) + 48)%N; (Z.to_N (n mod 10) + 48)%N].

(** Year, month and day of a timestamp (proleptic Gregorian, UTC). *)
Definition civil (t : datetime) : Z * Z * Z :=
  let z := (t / 86400 + 719468)%Z in
  let era := (z / 146097)%Z in
  let doe := (z - era * 146097)%Z in
  let yoe := ((doe - doe / 1460 + doe / 36524 - doe / 146096) / 365)%Z in
  let doy := (doe - (365 * yoe + yoe / 4 - yoe / 100))%Z in
  let mp := ((5 * doy + 2) / 153)%Z in
  let d := (doy - (153 * mp + 2) / 5 + 1)%Z in
  let m := (if mp <? 10 then mp + 3 else mp - 9)%Z in
  let y := (yoe + era * 400 + (if m <=? 2 then 1 else 0))%Z in
  (y, m, d).

Definition ymd (t : datetime) : str :=
  let '(y, m, d) := civil t in
  decimal y ++ py "-" ++ two_digits m ++ py "-" ++ two_digits d.


Definition lib : PyLib :=
  {| str_lower := ascii_lower;
     json_loads := loads;
     json_dumps := dumps;
     strftime_ymd := ymd;
     str_of_int := decimal |}.

End ExampleLib.

(** ** Concrete runs used by the examples *)

Module Example.
Local Open Scope Z_scope.

Definition traceback : str := py "Traceback (most recent call last)".

(** Collaborators that all answer normally, except as the arguments say. *)
Definition env_with (transcribed summarized : result str)
           (calendar : result (option str)) (notified : result unit) : Env :=
  {| utcnow := 1709254800;
     auto_delete_after_processing := true;
     downloaded_file_exists := true;
     format_exc := fun _ => traceback;
     download_recording := Ok (py "downloads/111_20240301_010000.mp4");
     upload_video := Ok (py "https://www.youtube.com/watch?v=abc");
     transcribe := transcribed;
     generate_summary := summarized;
     extract_decisions := Ok (py "decisions");
     extract_action_items := Ok (py "actions");
     call_gpt_identify := fun _ _ _ => Ok unknown_sentinel;
     send_client_identification_request := Ok tt;
     create_client_page := Ok (py "notion-client-page");
     create_meeting_page := Ok (py "notion-meeting-page");
     append_meeting_record := Ok tt;
     append_to_client_sheet := Ok tt;
     find_event_by_zoom_meeting := calendar;
     update_event_with_recording := Ok tt;
     generate_cumulative_summary := fun _ => Ok (py "rollup");
     notion_update_client_summary := Ok tt;
     sheets_update_client_summary := Ok tt;
     send_processing_complete := notified;
     send_processing_error := Ok tt |}.

Definition env_ok : Env :=
  env_with (Ok (py "transcript")) (Ok (py "summary")) (Ok None) (Ok tt).

Definition api_error : Exn := mkExn "HttpError" (py "503 backend error").

Definition env_transcribe_fails : Env :=
  env_with (Raise api_error) (Ok (py "summary")) (Ok None) (Ok tt).

Definition env_summary_fails : Env :=
  env_with (Ok (py "transcript")) (Raise api_error) (Ok None) (Ok tt).

Definition env_calendar_fails : Env :=
  env_with (Ok (py "transcript")) (Ok (py "summary")) (Raise api_error) (Ok tt).

Definition env_notice_fails : Env :=
  env_with (Ok (py "transcript")) (Ok (py "summary")) (Ok None)
           (Raise api_error).

Definition acme_title : str := py "【Acme株式会社】Weekly Sync".
Definition acme_name : str := py "Acme株式会社".

Definition mp4 : RecordingFile.t :=
  RecordingFile.mk (py "f-1") (py "MP4") 1048576
                   (py "https://zoom.us/rec/download/f-1")
                   1709251200 1709254800.

Definition m4a : RecordingFile.t :=
  RecordingFile.mk (py "f-2") (py "M4A") 65536
                   (py "https://zoom.us/rec/download/f-2")
                   1709251200 1709254800.

Definition payload_with (files : list RecordingFile.t)
  : ZoomWebhookPayload.t :=
  ZoomWebhookPayload.mk (py "acct") (py "111") (py "uuid-1") acme_title
                        (Some 1709251200) 60 (py "host@example.com") files.

Definition acme_payload : ZoomWebhookPayload.t := payload_with [mp4].
Definition audio_only_payload : ZoomWebhookPayload.t := payload_with [m4a].

Definition empty_world : World := mkWorld [] [] 1 1 [] [].

(** The store after the completion event of [acme_payload]. *)
Definition ingested : World :=
  fst (handle_recording_completed 1709254800 acme_payload empty_world).

(** Accounts and recordings for the resolver and the aggregator. *)
Definition account (pk : Z) (name : str) (ids : option (list str))
  : DBClient.t :=
  DBClient.mk pk name None None
              (option_map ExampleLib.dumps ids)
              (Some (ExampleLib.dumps [name])) 0 None None.

Definition meeting (pk : Z) (start : datetime) (cid : option Z)
           (summary : option str) : DBRecording.t :=
  DBRecording.mk pk (py "111") (py "uuid-" ++ ExampleLib.decimal pk)
                 (py "Weekly Sync") start 60 (py "host@example.com")
                 None (py "MP4") COMPLETED None 0 None None summary None
                 None cid None None start (Some start).

Definition store (rs : list DBRecording.t) (cs : list DBClient.t) : World :=
  mkWorld rs cs 100 100 [] [].


(** An account named Acme株式会社 that has learned no meeting id yet. *)
Definition acme_account : DBClient.t := account 1 acme_name None.
Definition acme_store : World := store [] [acme_account].

(** Three summarized meetings of account 1, not in date order. *)
Definition d_2024_01_10 : datetime := 1704844800.
Definition d_2024_02_14 : datetime := 1707868800.
Definition d_2024_03_01 : datetime := 1709251200.

Definition three_meetings : World :=
  store [meeting 1 d_2024_03_01 (Some 1) (Some (py "third"));
         meeting 2 d_2024_01_10 (Some 1) (Some (py "first"));
         meeting 3 d_2024_02_14 (Some 1) (Some (py "second"));
         meeting 4 d_2024_02_14 (Some 1) None;
         meeting 5 d_2024_02_14 (Some 2) (Some (py "other account"))]
        [account 1 (py "Acme") (Some [py "111"])].

(** A stable meeting id with a quotation mark in it. *)
Definition quoted_id : str := py "12" ++ [quote_char] ++ py "3".

(** A single meeting whose summary is the empty string. *)
Definition empty_summary_store : World :=
  store [meeting 1 d_2024_03_01 (Some 1) (Some [])]
        [account 1 (py "Acme") (Some [py "111"])].

(** The runs and calls the examples look at, over [ExampleLib.lib]. *)
#[local] Existing Instance ExampleLib.lib.

Definition first_run : World * result unit :=
  process_recording env_ok 1 ingested.

Definition calendar_run : World * result unit :=
  process_recording env_calendar_fails 1 ingested.

Definition notice_run : World * result unit :=
  process_recording env_notice_fails 1 ingested.

Definition transcribe_run : World * result unit :=
  process_recording env_transcribe_fails 1 ingested.

(** A first attempt that fails while summarizing, after the transcript
    has been stored; the sweep then retries the recording and this time
    the transcription fails. *)
Definition after_summary_failure : World :=
  fst (process_recording env_summary_fails 1 ingested).

Definition swept : World * result unit :=
  retry_failed_recordings (fun _ => env_transcribe_fails)
                          after_summary_failure.

Definition first_event : World * result (option DBRecording.t) :=
  handle_recording_completed 1709254800 acme_payload empty_world.

Definition second_event : World * result (option DBRecording.t) :=
  handle_recording_completed 1709254900 acme_payload (fst first_event).


Definition rollup_run : World * result str :=
  update_client_summary env_ok 1 three_meetings.

End Example.

(* ===================================================================== *)
(** * Part I, continued: more of the sources                              *)
(* ===================================================================== *)

(** The definitions below follow further functions of the sources:
    - [src/utils/retry.py], the decorator at its use sites
                                        -> module [RetrySites]
    - [src/services/notification_service.py] -> module [NotificationService]
    - [src/services/zoom_service.py]    -> module [ZoomService]
    - [src/services/summary_service.py] -> module [SummaryService]
    - [src/services/youtube_service.py] -> module [YouTubeService]
    - [src/services/calendar_service.py]-> module [CalendarService]
    - [src/api/meetings.py]             -> modules [MeetingsApi],
                                           [MeetingsRoutes]
    - [src/api/clients.py]              -> module [ClientsRoutes]
    - [src/api/dashboard.py]            -> module [Dashboard]
    - [src/webhook/zoom_handler.py]     -> module [Webhook]

    Queries are read as SQLite executes them; [hmac] and [datetime] are
    interfaces, like [PyLib]. *)

From Stdlib Require Import Qround.

(** ** More of Python's sequences: slices, [find], [split()] *)

Module PySeq.

(** Where the index [i] of a slice falls in a sequence of length [len]:
    a negative index counts from the end, and both ends are clamped. *)
Definition bound (len i : Z) : Z :=
  if (i <? 0)%Z then Z.max 0 (len + i) else Z.min len i.

(** [s[start:stop]]; [None] is an omitted bound. *)
Definition slice {A} (s : list A) (start stop : option Z) : list A :=
  let len := Z.of_nat (List.length s) in
  let a := match start with Some i => bound len i | None => 0%Z end in
  let b := match stop with Some j => bound len j | None => len end in
  firstn (Z.to_nat (b - a)) (skipn (Z.to_nat a) s).

(** [len(s)] as a Python int. *)
Definition len {A} (s : list A) : Z := Z.of_nat (List.length s).

(** [s.find(p)]: the lowest index where [p] starts, or [-1]. *)
Fixpoint find_from (s p : str) (i : Z) : Z :=
  if startswith s p then i
  else match s with
       | [] => (-1)%Z
       | _ :: s' => find_from s' p (i + 1)
       end.

Definition find (s p : str) : Z := find_from s p 0.

(** [s.split()]: the maximal runs of characters that are not whitespace. *)
Fixpoint split_runs (cur : str) (s : str) : list str :=
  match s with
  | [] => match cur with [] => [] | _ :: _ => [cur] end
  | c :: r =>
      if isspace c
      then match cur with
           | [] => split_runs [] r
           | _ :: _ => cur :: split_runs [] r
           end
      else split_runs (cur ++ [c]) r
  end.

Definition split_whitespace (s : str) : list str := split_runs [] s.

(** [a or b] on an optional string: [a] when it is neither [None] nor
    empty. *)
Definition or_else (a : option str) (b : str) : str :=
  match a with
  | Some ((_ :: _) as s) => s
  | _ => b
  end.

(** [c * n] for a one-character string. *)
Definition times (c : N) (n : nat) : str := repeat c n.

(** A string that neither begins nor ends with whitespace. *)
Definition trimmed (s : str) : Prop :=
  match s with [] => True | c :: _ => isspace c = false end
  /\ match rev s with [] => True | c :: _ => isspace c = false end.

End PySeq.


(** Datetime functions of the standard library the routes rely on:
    [datetime.isoformat], and [now.replace(day=1, hour=0, minute=0,
    second=0, microsecond=0)]. *)
Class PyDatetime := {
  isoformat : datetime -> str;
  month_start : datetime -> datetime
}.

(** [hmac.new(key, msg, hashlib.sha256).hexdigest()]. *)
Class PyHmac := {
  hmac_sha256_hexdigest : str -> str -> str
}.

(** ** The decorators of the services: [@async_retry(...)] *)

Module RetrySites.
Import Retry.

(** The configuration a call site gets from its keyword arguments;
    [max_delay], [exponential_base] and [exceptions] are left at the
    defaults of [async_retry]: 60.0, 2.0 and [(Exception,)]. *)
Definition decorated (max_attempts : Z) (initial_delay : Q) : RetryConfig :=
  {| cfg_max_attempts := max_attempts;
     cfg_initial_delay := initial_delay;
     cfg_max_delay := 60;
     cfg_exponential_base := 2;
     cfg_exceptions := fun _ => true |}.

(** An operation that raises [e] whenever it is invoked, counting its
    invocations. *)
Definition always_fails {A} (e : Exn) (k : nat) : nat * result A :=
  (Datatypes.S k, Raise e).

(** Exceptions of one class only, as [exceptions=(RetryableError,)]. *)
Definition only (class : string) (e : Exn) : bool :=
  String.eqb (exn_type e) class.

Definition retryable_only : RetryConfig :=
  {| cfg_max_attempts := 3;
     cfg_initial_delay := 1;
     cfg_max_delay := 60;
     cfg_exponential_base := 2;
     cfg_exceptions := only "RetryableError" |}.

Definition no_attempts : RetryConfig :=
  {| cfg_max_attempts := 0;
     cfg_initial_delay := 1;
     cfg_max_delay := 60;
     cfg_exponential_base := 2;
     cfg_exceptions := fun _ => true |}.

End RetrySites.

(** ** Notifications: [src/services/notification_service.py] *)

Module NotificationService.
Import PySeq.
Import Retry.

(** The Slack blocks the service builds. *)
Inductive Block :=
| Header (text : str)
| SectionFields (fields : list str)
| SectionText (text : str)
| Divider.

(** [settings.slack_enabled] and [settings.slack_webhook_url]. *)
Record Settings := mkSettings {
  slack_enabled : bool;
  slack_webhook_url : option str
}.

(** [self.enabled = settings.slack_enabled and settings.slack_webhook_url],
    as a truth value. *)
Definition enabled (settings : Settings) : bool :=
  slack_enabled settings && option_truthy (slack_webhook_url settings).

(** [summary[:500] + "..." if len(summary) > 500 else summary]. *)
Definition truncated (summary : str) : str :=
  if (500 <? len summary)%Z
  then slice summary None (Some 500%Z) ++ py "..."
  else summary.

Definition complete_blocks (topic youtube_url : str)
           (client_name summary : option str) : list Block :=
  [ Header (py "✅ 録画処理完了");
    SectionFields
      [ py "*ミーティング:*" ++ [newline] ++ topic;
        py "*クライアント:*" ++ [newline]
          ++ or_else client_name (py "未識別") ];
    SectionText (py "*YouTube:* <" ++ youtube_url ++ py "|動画を見る>") ]
  ++ match summary with
     | Some ((_ :: _) as s) =>
         [ SectionText (py "*要約:*" ++ [newline] ++ truncated s) ]
     | _ => []
     end.

Section Sending.
Context {S : Type}.
(** [self.client.send(blocks=...)] acting on the state of the channel. *)
Variable send : list Block -> S -> S * result unit.
Variable settings : Settings.

(** The body of [send_processing_complete], before decoration. *)
Definition send_processing_complete_body (topic youtube_url : str)
           (client_name summary : option str) (s : S) : S * result unit :=
  if negb (enabled settings) then (s, Ok tt)
  else send (complete_blocks topic youtube_url client_name summary) s.

(** [@async_retry(max_attempts=3, initial_delay=2.0)]. *)
Definition send_processing_complete (topic youtube_url : str)
           (client_name summary : option str)
  : S -> Run (S := S) * result unit :=
  async_retry None (RetrySites.decorated 3 2)
    (send_processing_complete_body topic youtube_url client_name summary).

End Sending.

(** A channel that records what it is sent, and one that is down. *)
Definition recording_channel (blocks : list Block)
           (sent : list (list Block)) : list (list Block) * result unit :=
  (sent ++ [blocks], Ok tt).

Definition connection_error : Exn :=
  mkExn "ClientConnectorError" (py "Cannot connect to host hooks.slack.com").

Definition dead_channel (blocks : list Block)
           (tried : list (list Block)) : list (list Block) * result unit :=
  (tried ++ [blocks], Raise connection_error).

Definition slack_off : Settings := mkSettings false None.
Definition slack_on : Settings :=
  mkSettings true (Some (py "https://hooks.slack.com/services/T/B/X")).
(** Enabled in the settings, but without a webhook URL. *)
Definition slack_without_url : Settings := mkSettings true None.

End NotificationService.

(** ** The Zoom client: [src/services/zoom_service.py] *)

Module ZoomService.

(** The token cache of a [ZoomService] instance. *)
Record t := mk {
  _access_token : option str;
  _token_expires_at : option datetime
}.

(** The JSON answer of the token endpoint, as far as it is read. *)
Record TokenResponse := mkResponse {
  access_token : option str;
  expires_in : option Z
}.

Definition key_error (key : string) : Exn := mkExn "KeyError" (py key).

(** The test that guards the cached token:
    [self._access_token and self._token_expires_at
     and datetime.utcnow() < self._token_expires_at]. *)
Definition token_is_valid (now : datetime) (self : t) : bool :=
  option_truthy (_access_token self)
  && match _token_expires_at self with
     | Some expires_at => (now <? expires_at)%Z
     | None => false
     end.

(** [_get_access_token]; [now] is the clock at the validity check,
    [now'] the clock when the new expiry is computed, and [post] the
    outcome of the request to the token endpoint ([raise_for_status]
    and [response.json()] included), which is only looked at when a
    request is made. *)
Definition _get_access_token (now now' : datetime)
           (post : result TokenResponse) (self : t) : t * result str :=
  if token_is_valid now self
  then (self, Ok (match _access_token self with Some tok => tok | None => [] end))
  else
    match post with
    | Raise e => (self, Raise e)
    | Ok data =>
        match access_token data with
        | None => (self, Raise (key_error "access_token"))
        | Some fresh =>
            let expires_in :=
              (match expires_in data with Some n => n | None => 3600 end
               - 60)%Z in
            (mk (Some fresh) (Some (now' + expires_in)%Z), Ok fresh)
        end
    end.

(** A new instance: [self._access_token = None]. *)
Definition fresh_instance : t := mk None None.

End ZoomService.

(** ** The summary service: [src/services/summary_service.py] *)

Module SummaryService.
Import PySeq.

(** The marker put where the middle of a transcript was cut out:
    two newlines, [... (中略) ...], two newlines. *)
Definition cut_marker : str :=
  [newline; newline] ++ py "... (中略) ..." ++ [newline; newline].

(** [_truncate_transcript(transcript, max_chars)]. *)
Definition _truncate_transcript (transcript : str) (max_chars : Z) : str :=
  if (len transcript <=? max_chars)%Z then transcript
  else
    let half := (max_chars / 2)%Z in
    slice transcript None (Some half)
    ++ cut_marker
    ++ slice transcript (Some (- half)%Z) None.

(** The default of [max_chars]. *)
Definition default_max_chars : Z := 30000.

(** A segment of [transcript_with_timestamps["segments"]]; times are in
    seconds, as exact rationals. *)
Record Segment := mkSegment {
  seg_start : Q;
  seg_end : Q;
  seg_text : str
}.

(** A chapter: [{"time": ..., "title": ...}]. *)
Record Chapter := mkChapter {
  time : str;
  title : str
}.

Definition chunk_duration : Q := 300.

Section Chapters.
Context {L : PyLib}.
(** [self._call_gpt(prompt, max_tokens)]. *)
Variable _call_gpt : str -> Z -> result str.

Definition chapter_title_prompt (text : str) : str :=
  py "以下のテキストの内容を10文字以内の日本語タイトルにしてください。"
  ++ [newline; newline] ++ slice_to 500 text ++ [newline; newline]
  ++ py "タイトル：".

(** [_generate_chapter_title]: the answer, stripped, cut to 20
    characters. *)
Definition _generate_chapter_title (text : str) : result str :=
  match _call_gpt (chapter_title_prompt text) 50 with
  | Ok r => Ok (slice_to 20 (strip r))
  | Raise e => Raise e
  end.

(** [f"{n:02d}"]. *)
Definition format_02d (n : Z) : str :=
  let digits := str_of_int n in
  if (List.length digits <? 2)%nat then py "0" ++ digits else digits.

(** [f"{minutes:02d}:{seconds:02d}"] with
    [minutes = int(current_start // 60)] and
    [seconds = int(current_start % 60)]. *)
Definition mmss (current_start : Q) : str :=
  let minutes := Qfloor (current_start / 60) in
  let seconds := Qfloor (current_start - 60 * inject_Z minutes) in
  format_02d minutes ++ py ":" ++ format_02d seconds.

Definition nonempty {A} (l : list A) : bool :=
  match l with [] => false | _ :: _ => true end.

(** The loop over the segments and the statement after it ("add final
    chapter"), with the loop's variables as arguments. *)
Fixpoint chapters_loop (segments : list Segment) (current_start : Q)
         (chunk_texts : list str) (chapters : list Chapter)
  : result (list Chapter) :=
  match segments with
  | [] =>
      if nonempty chunk_texts then
        match _generate_chapter_title (join (py " ") chunk_texts) with
        | Ok title =>
            Ok (chapters ++ [mkChapter (mmss current_start) title])
        | Raise e => Raise e
        end
      else Ok chapters
  | seg :: rest =>
      if Qle_bool chunk_duration (seg_start seg - current_start)
         && nonempty chunk_texts
      then
        match _generate_chapter_title (join (py " ") chunk_texts) with
        | Ok title =>
            chapters_loop rest (seg_start seg) [seg_text seg]
              (chapters ++ [mkChapter (mmss current_start) title])
        | Raise e => Raise e
        end
      else
        chapters_loop rest current_start (chunk_texts ++ [seg_text seg])
                      chapters
  end.

(** [generate_chapters]; the argument is
    [transcript_with_timestamps.get("segments")]. *)
Definition generate_chapters (segments : option (list Segment))
  : result (list Chapter) :=
  match segments with
  | None | Some [] => Ok []
  | Some ((_ :: _) as segs) => chapters_loop segs 0 [] []
  end.

End Chapters.

(** The chunks the loop cuts a list of segments into, each with the time
    it starts at and its texts, in order. *)
Fixpoint chunks_from (segments : list Segment) (current_start : Q)
         (chunk_texts : list str) : list (Q * list str) :=
  match segments with
  | [] =>
      match chunk_texts with
      | [] => []
      | _ :: _ => [(current_start, chunk_texts)]
      end
  | seg :: rest =>
      if Qle_bool chunk_duration (seg_start seg - current_start)
         && nonempty chunk_texts
      then (current_start, chunk_texts)
             :: chunks_from rest (seg_start seg) [seg_text seg]
      else chunks_from rest current_start (chunk_texts ++ [seg_text seg])
  end.

(** Successive chunks start at least [chunk_duration] apart. *)
Fixpoint spaced (starts : list Q) : Prop :=
  match starts with
  | a :: (b :: _) as rest => (chunk_duration <= b - a)%Q /\ spaced rest
  | _ => True
  end.

End SummaryService.

(** ** The YouTube service: [src/services/youtube_service.py] *)

Module YouTubeService.
Import PySeq.

(** [generate_chapters(timestamps)]: one line [time title] per chapter. *)
Definition generate_chapters (timestamps : list SummaryService.Chapter)
  : str :=
  join [newline]
       (List.map (fun ts => SummaryService.time ts ++ py " "
                            ++ SummaryService.title ts)
                 timestamps).

End YouTubeService.

(** ** The calendar service: [src/services/calendar_service.py] *)

Module CalendarService.
Import PySeq.

(** A calendar event as the service reads it: [event["id"]],
    [event.get("description")] and [event.get("summary")]. *)
Record Event := mkEvent {
  id : str;
  description : option str;
  summary : option str
}.

(** [d.get(key, "")]. *)
Definition get_or_empty (value : option str) : str :=
  match value with Some s => s | None => [] end.

Section Find.
Context {L : PyLib}.

(** [any(word in event_summary for word in topic_lower.split()
         if len(word) > 2)]. *)
Definition title_overlaps (event_summary topic_lower : str) : bool :=
  existsb (fun word => contains event_summary word)
          (filter (fun word => (2 <? len word)%Z)
                  (split_whitespace topic_lower)).

(** The loop of [_find] over [events_result.get("items", [])]. *)
Fixpoint _find (events : list Event) (zoom_meeting_id topic : str)
  : option Event :=
  match events with
  | [] => None
  | event :: rest =>
      if contains (get_or_empty (description event)) zoom_meeting_id
      then Some event
      else if title_overlaps (str_lower (get_or_empty (summary event)))
                             (str_lower topic)
           then Some event
           else _find rest zoom_meeting_id topic
  end.

(** The test an event passes to be returned by [_find]. *)
Definition matches (zoom_meeting_id topic : str) (event : Event) : bool :=
  contains (get_or_empty (description event)) zoom_meeting_id
  || title_overlaps (str_lower (get_or_empty (summary event)))
                    (str_lower topic).

End Find.

(** The description [_update] writes back into the event. *)
Definition new_description (current : option str)
           (youtube_url summary_text zoom_recording_url : option str) : str :=
  let additions :=
    [ [newline; newline] ++ times 61 40;
      py "📹 ミーティング録画情報";
      times 61 40 ]
    ++ match youtube_url with
       | Some ((_ :: _) as url) => [ [newline] ++ py "🎬 YouTube: " ++ url ]
       | _ => []
       end
    ++ match zoom_recording_url with
       | Some ((_ :: _) as url) => [ [newline] ++ py "📁 Zoom録画: " ++ url ]
       | _ => []
       end
    ++ match summary_text with
       | Some ((_ :: _) as text) =>
           [ [newline; newline] ++ py "📝 要約:" ++ [newline]
             ++ slice_to 1000 text ]
       | _ => []
       end in
  get_or_empty current ++ join [newline] additions.

End CalendarService.

(** ** The meetings routes: [src/api/meetings.py] *)

Module MeetingsApi.
Import PySeq.

(** [recording.transcript or recording.summary or recording.topic]. *)
Definition searched_text (recording : DBRecording.t) : str :=
  or_else (DBRecording.transcript recording)
          (or_else (DBRecording.summary recording)
                   (DBRecording.topic recording)).

Section Excerpt.
Context {L : PyLib}.

(** [_get_excerpt(recording, query, context)]. *)
Definition _get_excerpt (recording : DBRecording.t) (query : str)
           (context : Z) : str :=
  let text := searched_text recording in
  let text_lower := str_lower text in
  let query_lower := str_lower query in
  let pos := find text_lower query_lower in
  if (pos =? -1)%Z then
    if (200 <? len text)%Z
    then slice text None (Some 200%Z) ++ py "..."
    else text
  else
    let start := Z.max 0 (pos - context) in
    let end_ := Z.min (len text) (pos + len query + context) in
    let excerpt := slice text (Some start) (Some end_) in
    let excerpt := if (0 <? start)%Z then py "..." ++ excerpt else excerpt in
    let excerpt :=
      if (end_ <? len text)%Z then excerpt ++ py "..." else excerpt in
    excerpt.

(** The default of [context]. *)
Definition default_context : Z := 100.

End Excerpt.

End MeetingsApi.

(** ** Rows, queries and enumerations shared by the routes *)

Module Sql.

(** The key SQLite gives the next inserted row of a table whose integer
    primary key is declared without [AUTOINCREMENT], as
    [Column(Integer, primary_key=True)] is: one more than the largest key
    in the table, and 1 in an empty table.  A key freed by deleting the
    newest row is handed out again. *)
Definition next_rowid (ids : list Z) : Z :=
  match ids with
  | [] => 1
  | k :: ks => fold_left Z.max ks k + 1
  end.

(** [.order_by(DBRecording.start_time.desc())]; rows with equal start
    times keep their table order. *)
Fixpoint insert_by_start_time_desc (r : DBRecording.t)
         (l : list DBRecording.t) : list DBRecording.t :=
  match l with
  | [] => [r]
  | x :: l' =>
      if (DBRecording.start_time x <=? DBRecording.start_time r)%Z
      then r :: l
      else x :: insert_by_start_time_desc r l'
  end.

Definition order_by_start_time_desc (l : list DBRecording.t)
  : list DBRecording.t :=
  fold_right insert_by_start_time_desc [] l.

(** [.limit(n)] and [.offset(n)] as SQLite, the engine [Database()] is
    created with, reads them: a negative limit is no limit, a negative
    offset is no offset. *)
Definition limit {A} (n : Z) (rows : list A) : list A :=
  if (n <? 0)%Z then rows else firstn (Z.to_nat n) rows.

Definition offset {A} (n : Z) (rows : list A) : list A :=
  skipn (Z.to_nat n) rows.

(** [select(DBRecording, DBClient.name).outerjoin(DBClient,
    DBRecording.client_id == DBClient.id)]: the name joined to a row. *)
Definition joined_client_name (w : World) (r : DBRecording.t) : option str :=
  match DBRecording.client_id r with
  | Some cid => option_map DBClient.name (client_row w cid)
  | None => None
  end.

(** [func.count(...)] over the rows a [where] keeps. *)
Definition count {A} (keep : A -> bool) (rows : list A) : Z :=
  Z.of_nat (List.length (filter keep rows)).

End Sql.

(** The members of [ProcessingStatus], in definition order, and the
    lookup by value [ProcessingStatus(value)]. *)
Definition all_statuses : list ProcessingStatus :=
  [PENDING; DOWNLOADING; UPLOADING_YOUTUBE; TRANSCRIBING; SUMMARIZING;
   SAVING; COMPLETED; FAILED].

Definition ProcessingStatus_of_value (value : str) : option ProcessingStatus :=
  List.find (fun s => eqb (py (status_value s)) value) all_statuses.

Definition not_a_status (value : str) : Exn :=
  mkExn "ValueError"
        (py "'" ++ value ++ py "' is not a valid ProcessingStatus").

(** Setters of the assignments the routes make. *)
Module RowOps.

Definition with_title_patterns (c : DBClient.t) (v : option str)
  : DBClient.t :=
  DBClient.mk (DBClient.id c) (DBClient.name c) (DBClient.description c)
              (DBClient.cumulative_summary c) (DBClient.zoom_meeting_ids c)
              v (DBClient.meeting_count c) (DBClient.last_meeting_at c)
              (DBClient.notion_page_id c).

(** [client.meeting_count = n; client.last_meeting_at = t]. *)
Definition with_meeting_stats (c : DBClient.t) (n : Z) (t : datetime)
  : DBClient.t :=
  DBClient.mk (DBClient.id c) (DBClient.name c) (DBClient.description c)
              (DBClient.cumulative_summary c) (DBClient.zoom_meeting_ids c)
              (DBClient.title_patterns c) n (Some t)
              (DBClient.notion_page_id c).

(** [meeting.client_id = cid; meeting.updated_at = now]. *)
Definition with_assignment (r : DBRecording.t) (cid : Z) (now : datetime)
  : DBRecording.t :=
  DBRecording.mk
    (DBRecording.id r) (DBRecording.zoom_meeting_id r)
    (DBRecording.zoom_meeting_uuid r) (DBRecording.topic r)
    (DBRecording.start_time r) (DBRecording.duration_minutes r)
    (DBRecording.host_email r) (DBRecording.recording_url r)
    (DBRecording.recording_type r) (DBRecording.status r)
    (DBRecording.error_message r) (DBRecording.retry_count r)
    (DBRecording.youtube_url r) (DBRecording.transcript r)
    (DBRecording.summary r) (DBRecording.decisions r)
    (DBRecording.action_items r) (Some cid)
    (DBRecording.calendar_event_id r) (DBRecording.notion_page_id r)
    now (DBRecording.completed_at r).

End RowOps.

(** ** The meetings routes, continued *)

Module MeetingsRoutes.
Import PySeq.

(** [MeetingResponse], without [created_at]. *)
Record MeetingResponse := mkResponse {
  id : Z;
  zoom_meeting_id : str;
  topic : str;
  start_time : datetime;
  duration_minutes : Z;
  status : str;
  youtube_url : option str;
  client_id : option Z;
  client_name : option str
}.

Definition response_of (w : World) (recording : DBRecording.t)
  : MeetingResponse :=
  mkResponse (DBRecording.id recording)
             (DBRecording.zoom_meeting_id recording)
             (DBRecording.topic recording)
             (DBRecording.start_time recording)
             (DBRecording.duration_minutes recording)
             (py (status_value (DBRecording.status recording)))
             (DBRecording.youtube_url recording)
             (DBRecording.client_id recording)
             (Sql.joined_client_name w recording).

(** [if client_id:] on an optional int: neither [None] nor 0. *)
Definition client_filter (client_id : option Z) (r : DBRecording.t) : bool :=
  match client_id with
  | None => true
  | Some cid =>
      if (cid =? 0)%Z then true
      else match DBRecording.client_id r with
           | Some c => (c =? cid)%Z
           | None => false
           end
  end.

(** [list_meetings(client_id, status, limit, offset)]. *)
Definition list_meetings (client_id : option Z) (status : option str)
           (limit offset : Z) : M (list MeetingResponse) :=
  w <- get_world ;;
  status_filter <-
    match status with
    | Some ((_ :: _) as value) =>
        match ProcessingStatus_of_value value with
        | Some s => ret (fun r => status_eqb (DBRecording.status r) s)
        | None => raise (not_a_status value)
        end
    | _ => ret (fun _ : DBRecording.t => true)
    end ;;
  let rows :=
    Sql.limit limit
      (Sql.offset offset
         (Sql.order_by_start_time_desc
            (filter status_filter
                    (filter (client_filter client_id) (recordings w))))) in
  ret (List.map (response_of w) rows).

Section Delete.
Context {L : PyLib}.

(** [delete_meeting(meeting_id)]; the value is the message of the
    response.  The key of the next inserted recording is taken from the
    rows that are left, as SQLite does. *)
Definition delete_meeting (meeting_id : Z) : M str :=
  found <- select_recording meeting_id ;;
  match found with
  | None => raise (http_exception "404")
  | Some recording =>
      modify (fun w =>
        let remaining :=
          filter (fun r => negb (DBRecording.id r
                                 =? DBRecording.id recording)%Z)
                 (recordings w) in
        mkWorld remaining (clients w)
                (Sql.next_rowid (List.map DBRecording.id remaining))
                (next_client_id w) (tasks w) (log w)) ;;
      ret (py "Meeting " ++ str_of_int meeting_id ++ py " deleted")
  end.

End Delete.

End MeetingsRoutes.

(** ** The clients routes: [src/api/clients.py] *)

Module ClientsRoutes.
Import PySeq.

Section Routes.
Context {L : PyLib}.

Definition set_title_patterns (c : DBClient.t) (patterns : list str)
  : DBClient.t :=
  RowOps.with_title_patterns c (Some (json_dumps patterns)).

(** [create_client(request)]; the value is the row the response is
    built from. *)
Definition create_client (name : str) (description : option str)
           (title_patterns zoom_meeting_ids : option (list str))
  : M DBClient.t :=
  w <- get_world ;;
  existing <- lift (scalar_one_or_none
                      (filter (fun c => eqb (DBClient.name c) name)
                              (clients w))) ;;
  match existing with
  | Some _ => raise (http_exception "400")
  | None =>
      let client :=
        DBClient.mk (next_client_id w) name description None None None
                    0 None None in
      let client :=
        match title_patterns with
        | Some ((_ :: _) as patterns) => set_title_patterns client patterns
        | _ => client
        end in
      let client :=
        match zoom_meeting_ids with
        | Some ((_ :: _) as ids) => set_zoom_meeting_ids client ids
        | _ => client
        end in
      modify (fun w =>
        mkWorld (recordings w) (clients w ++ [client])
                (next_recording_id w) (next_client_id w + 1)
                (tasks w) (log w)) ;;
      ret client
  end.

(** The recordings a query issued inside the route sees while the
    assignment [meeting.client_id = client_id] is still pending: with
    [autoflush] the session writes pending changes before it queries,
    without it the query reads the rows as stored. *)
Definition visible_recordings (autoflush : bool) (w : World)
           (meeting' : DBRecording.t) : list DBRecording.t :=
  if autoflush
  then List.map (fun r => if (DBRecording.id r =? DBRecording.id meeting')%Z
                          then meeting' else r)
                (recordings w)
  else recordings w.

Definition belongs_to (client_id : Z) (r : DBRecording.t) : bool :=
  match DBRecording.client_id r with
  | Some c => (c =? client_id)%Z
  | None => false
  end.

(** [assign_meeting_to_client(client_id, meeting_id)]; everything is
    committed at the end, or nothing if an exception leaves the route.
    The value is the message of the response. *)
Definition assign_meeting_to_client (autoflush : bool) (now : datetime)
           (client_id meeting_id : Z) : M str :=
  found <- select_client client_id ;;
  match found with
  | None => raise (http_exception "404")
  | Some client =>
      found <- select_recording meeting_id ;;
      match found with
      | None => raise (http_exception "404")
      | Some meeting =>
          w <- get_world ;;
          let meeting' := RowOps.with_assignment meeting client_id now in
          let meetings :=
            filter (belongs_to client_id)
                   (visible_recordings autoflush w meeting') in
          let client :=
            RowOps.with_meeting_stats
              client (Z.of_nat (List.length meetings) + 1)
              (DBRecording.start_time meeting) in
          meeting_ids <- lift (get_zoom_meeting_ids client) ;;
          let client :=
            if mem (DBRecording.zoom_meeting_id meeting) meeting_ids
            then client
            else set_zoom_meeting_ids
                   client
                   (meeting_ids ++ [DBRecording.zoom_meeting_id meeting]) in
          update_recording meeting_id
            (fun r => RowOps.with_assignment r client_id now) ;;
          store_client client ;;
          ret (py "Meeting assigned to " ++ DBClient.name client)
      end
  end.

End Routes.

End ClientsRoutes.

(** ** The dashboard routes: [src/api/dashboard.py] *)

Module Dashboard.
Import PySeq.

Record DashboardStats := mkStats {
  total_meetings : Z;
  meetings_this_month : Z;
  total_clients : Z;
  active_clients : Z;
  pending_processing : Z;
  failed_processing : Z
}.

(** The statuses both processing queries list. *)
Definition processing_statuses : list ProcessingStatus :=
  [PENDING; DOWNLOADING; UPLOADING_YOUTUBE; TRANSCRIBING; SUMMARIZING;
   SAVING].

(** [DBRecording.status.in_(statuses)]. *)
Definition status_in (statuses : list ProcessingStatus) (r : DBRecording.t)
  : bool :=
  existsb (status_eqb (DBRecording.status r)) statuses.

(** [timedelta(days=30)], in seconds. *)
Definition thirty_days : Z := 30 * 86400.

Section Stats.
Context {D : PyDatetime}.

(** [get_dashboard_stats], at the clock [now]. *)
Definition get_dashboard_stats (now : datetime) (w : World)
  : DashboardStats :=
  let month_start := month_start now in
  mkStats
    (Sql.count (fun _ => true) (recordings w))
    (Sql.count (fun r => (month_start <=? DBRecording.start_time r)%Z)
               (recordings w))
    (Sql.count (fun _ => true) (clients w))
    (Sql.count (fun c => match DBClient.last_meeting_at c with
                         | Some t => (now - thirty_days <=? t)%Z
                         | None => false
                         end)
               (clients w))
    (Sql.count (status_in processing_statuses) (recordings w))
    (Sql.count (fun r => status_eqb (DBRecording.status r) FAILED)
               (recordings w)).

(** An entry of [get_pending_action_items]. *)
Record ActionItem := mkItem {
  text : str;
  meeting_id : Z;
  meeting_topic : str;
  client_name : option str;
  meeting_date : str
}.

(** The answer that stands for "no action items". *)
Definition no_action_items : str := py "アクションアイテムなし".

(** The inner loop over the lines of one recording's action items. *)
Definition items_of (w : World) (recording : DBRecording.t)
  : list ActionItem :=
  match DBRecording.action_items recording with
  | Some ((_ :: _) as action_items) =>
      List.map
        (fun item =>
           mkItem item (DBRecording.id recording)
                  (DBRecording.topic recording)
                  (Sql.joined_client_name w recording)
                  (isoformat (DBRecording.start_time recording)))
        (filter (fun item => truthy item
                             && negb (startswith item no_action_items))
                (List.map strip (split newline action_items)))
  | _ => []
  end.

(** [get_pending_action_items(limit)]. *)
Definition get_pending_action_items (limit : Z) (w : World)
  : list ActionItem :=
  let rows :=
    Sql.limit limit
      (Sql.order_by_start_time_desc
         (filter (fun r => is_some (DBRecording.action_items r))
                 (recordings w))) in
  slice (flat_map (items_of w) rows) None (Some limit).

End Stats.

(** [status_progress.get(r.status, 0)] of [get_processing_items]. *)
Definition status_progress (s : ProcessingStatus) : option Z :=
  match s with
  | PENDING => Some 0%Z
  | DOWNLOADING => Some 15%Z
  | UPLOADING_YOUTUBE => Some 35%Z
  | TRANSCRIBING => Some 55%Z
  | SUMMARIZING => Some 75%Z
  | SAVING => Some 90%Z
  | COMPLETED | FAILED => None
  end.

Definition progress_percent (s : ProcessingStatus) : Z :=
  match status_progress s with Some p => p | None => 0%Z end.

End Dashboard.

(** ** The webhook endpoint: [src/webhook/zoom_handler.py], continued *)

Module Webhook.
Import PySeq.

(** What the endpoint reads of the JSON body: [data.get("event", "")],
    [data.get("payload", {}).get("plainToken", "")], and the outcome of
    the construction of [ZoomWebhookPayload] from the body. *)
Record Data := mkData {
  event : str;
  plain_token : str;
  completed : result ZoomWebhookPayload.t
}.

(** A request: the outcome of decoding the body as UTF-8, the two
    signature headers, and the outcome of [request.json()]. *)
Record Request := mkRequest {
  body : result str;
  x_zm_signature : option str;
  x_zm_request_timestamp : option str;
  json : result Data
}.

Inductive Response :=
| UrlValidation (plainToken encryptedToken : str)
| Processing
| Ignored.

Definition not_ascii : Exn :=
  mkExn "TypeError"
        (py "comparing strings with non-ASCII characters is not supported").

(** [hmac.compare_digest(a, b)] on strings. *)
Definition compare_digest (a b : str) : result bool :=
  if forallb (fun c => (c <? 128)%N) (a ++ b) then Ok (eqb a b)
  else Raise not_ascii.

Section Endpoint.
Context {H : PyHmac}.
(** [settings.zoom_webhook_secret_token]. *)
Variable secret : str.

Definition expected_signature (payload timestamp : str) : str :=
  py "v0="
  ++ hmac_sha256_hexdigest secret
       (py "v0:" ++ timestamp ++ py ":" ++ payload).

Definition verify_webhook_signature (payload : result str)
           (signature timestamp : str) : result bool :=
  match payload with
  | Raise e => Raise e
  | Ok text => compare_digest (expected_signature text timestamp) signature
  end.

(** What follows the signature check in [handle_zoom_webhook]. *)
Definition dispatch (now : datetime) (request : Request) : M Response :=
  data <- lift (json request) ;;
  if eqb (event data) (py "endpoint.url_validation") then
    ret (UrlValidation (plain_token data)
                       (hmac_sha256_hexdigest secret (plain_token data)))
  else if eqb (event data) (py "recording.completed") then
    webhook_payload <- lift (completed data) ;;
    handle_recording_completed now webhook_payload ;;
    ret Processing
  else ret Ignored.

Definition handle_zoom_webhook (now : datetime) (request : Request)
  : M Response :=
  match x_zm_signature request, x_zm_request_timestamp request with
  | Some ((_ :: _) as signature), Some ((_ :: _) as timestamp) =>
      valid <- lift (verify_webhook_signature (body request)
                                              signature timestamp) ;;
      if valid then dispatch now request
      else raise (http_exception "401")
  | _, _ => dispatch now request
  end.

End Endpoint.

End Webhook.

(** ** Reading the rows *)

(** Whenever [m] starts in a store that satisfies [P] and returns [a]
    normally, the store it leaves satisfies [Q a]. *)
Definition ensures {A} (P : World -> Prop) (m : M A)
           (Q : A -> World -> Prop) : Prop :=
  forall w w' a, P w -> m w = (w', Ok a) -> Q a w'.

(** [after] stands where [before] stood, and is [before] itself unless
    it is the row of recording [rid]. *)
Definition same_unless (rid : Z) (before after : DBRecording.t) : Prop :=
  DBRecording.id after = DBRecording.id before
  /\ (DBRecording.id before <> rid -> after = before).

(** The recordings table of [w'] has the rows of [l], those of recording
    [rid] possibly rewritten. *)
Definition only_touches (rid : Z) (l : list DBRecording.t) (w' : World)
  : Prop :=
  Forall2 (same_unless rid) l (recordings w').

(** What a run that returned normally has left in the row that held
    [entry] when it started. *)
Definition completed_from (env : Env) (entry r' : DBRecording.t) : Prop :=
  exists url text s d a page,
    upload_video env = Ok url
    /\ transcribe env = Ok text
    /\ generate_summary env = Ok s
    /\ extract_decisions env = Ok d
    /\ extract_action_items env = Ok a
    /\ create_meeting_page env = Ok page
    /\ DBRecording.status r' = COMPLETED
    /\ DBRecording.completed_at r' = Some (utcnow env)
    /\ DBRecording.youtube_url r' = Some url
    /\ DBRecording.transcript r' = Some text
    /\ DBRecording.summary r' = Some s
    /\ DBRecording.decisions r' = Some d
    /\ DBRecording.action_items r' = Some a
    /\ DBRecording.notion_page_id r' = Some page
    /\ DBRecording.error_message r' = DBRecording.error_message entry
    /\ DBRecording.retry_count r' = DBRecording.retry_count entry.

(** Recording [rid] is stored as the row [r]. *)
Definition row_is (rid : Z) (r : DBRecording.t) (w : World) : Prop :=
  row w rid = Some r.

(** [I] looks at the recordings table only. *)
Definition on_recordings (I : World -> Prop) : Prop :=
  forall w w', recordings w' = recordings w -> I w -> I w'.

(** What a sweep leaves of a row it selected: completed, or failed once
    more. *)
Definition swept_from (r r' : DBRecording.t) : Prop :=
  DBRecording.status r' = COMPLETED
  \/ (DBRecording.status r' = FAILED
      /\ DBRecording.retry_count r'
         = (DBRecording.retry_count r + 1)%Z).

(** The accounts of [w'] are those of [w], keys and names as they were,
    followed by the accounts [added]. *)
Definition extends_accounts (w w' : World) (added : list DBClient.t)
  : Prop :=
  exists kept,
    clients w' = kept ++ added
    /\ List.map DBClient.id kept = List.map DBClient.id (clients w)
    /\ List.map DBClient.name kept = List.map DBClient.name (clients w).

(** What makes [d] the domain the resolver takes from [email]. *)
Definition domain_of (email d : str) : Prop :=
  contains email (py "@") = true
  /\ d = nth 1 (split 64 email) []
  /\ mem d free_mail = false.

(** The accounts table [w'] and the answer [answer] a run of the
    resolver may leave, started on the table of [w]: the constraints
    hold, the accounts of [w] are all there, and at most one account was
    added, the one that is returned. *)
Definition accounts_outcome (w w' : World) (answer : option DBClient.t)
  : Prop :=
  clients_wf w'
  /\ exists added,
       extends_accounts w w' added
       /\ (added = []
           \/ exists c,
                added = [c]
                /\ answer = Some c
                /\ DBClient.id c = next_client_id w
                /\ DBClient.name c <> []
                /\ PySeq.trimmed (DBClient.name c)
                /\ ~ In (DBClient.name c) (client_names w)).

(** The same for the pair a run returns; a run that raises has no
    answer. *)
Definition outcome_of (w : World) (run : World * result (option DBClient.t))
  : Prop :=
  match snd run with
  | Ok a => accounts_outcome w (fst run) a
  | Raise _ => accounts_outcome w (fst run) None
  end.

(** ** Further concrete cases used by the examples *)

Module Cases.
Import Example.
Local Open Scope Z_scope.

#[local] Existing Instance ExampleLib.lib.

(** A meeting with a stored transcript, for the search excerpt. *)
Definition budget_meeting : DBRecording.t :=
  DBRecording.with_transcript
    (meeting 1 d_2024_03_01 (Some 1) (Some (py "summary")))
    (py "We agreed on the Budget for the next quarter and closed the meeting.").

(** Two transcript segments more than 300 seconds apart, the first of
    which does not start at 0, and a title generator that answers every
    request with the same padded title. *)
Definition two_segments : list SummaryService.Segment :=
  [SummaryService.mkSegment 2 10 (py "hello");
   SummaryService.mkSegment 400 410 (py "world")].

Definition kickoff (prompt : str) : str := py " Kickoff ".

Definition titled (prompt : str) (max_tokens : Z) : result str :=
  Ok (kickoff prompt).

(** A stand-in for HMAC-SHA256 in the examples: two hexadecimal digits
    of a checksum of key and message. *)
Definition hex_digit (n : N) : N :=
  nth (N.to_nat n) (py "0123456789abcdef") 48%N.

Definition checksum (key msg : str) : str :=
  let total := (fold_left N.add (key ++ msg) 0 mod 256)%N in
  [hex_digit (total / 16)%N; hex_digit (total mod 16)%N].

Definition toy_hmac : PyHmac := {| hmac_sha256_hexdigest := checksum |}.

Definition webhook_secret : str := py "s3cret".

(** A completion event for [acme_payload], sent without signature
    headers, with the right signature and with a wrong one. *)
Definition completion_data : Webhook.Data :=
  Webhook.mkData (py "recording.completed") [] (Ok acme_payload).

Definition completion_body : str := py "{}".

Definition unsigned_completion : Webhook.Request :=
  Webhook.mkRequest (Ok completion_body) None None (Ok completion_data).

Definition timestamp : str := py "1709254800".

Definition signed_completion : Webhook.Request :=
  Webhook.mkRequest
    (Ok completion_body)
    (Some (Webhook.expected_signature (H := toy_hmac) webhook_secret
                                      completion_body timestamp))
    (Some timestamp) (Ok completion_data).

Definition forged_completion : Webhook.Request :=
  Webhook.mkRequest (Ok completion_body) (Some (py "v0=00"))
                    (Some timestamp) (Ok completion_data).

(** A meeting of [three_meetings] that belongs to another account. *)
Definition other_meeting : DBRecording.t :=
  meeting 5 d_2024_02_14 (Some 2) (Some (py "other account")).

(** A completion event for the occurrence of [other_meeting], sent again
    after that meeting was deleted. *)
Definition returning_payload : ZoomWebhookPayload.t :=
  ZoomWebhookPayload.mk (py "acct") (py "111") (py "uuid-5") acme_title
                        (Some 1709251200) 60 (py "host@example.com") [mp4].

(** A recording that has failed [n] times. *)
Definition failed_meeting (pk n : Z) : DBRecording.t :=
  DBRecording.mk pk (py "111") (py "uuid-" ++ ExampleLib.decimal pk)
                 (py "Weekly Sync") d_2024_03_01 60 (py "host@example.com")
                 None (py "MP4") FAILED (Some (py "503 backend error")) n
                 None None None None None None None None d_2024_03_01 None.

(** A table around the retry ceiling: a recording that has failed twice,
    one that has failed three times, a completed one and one that has
    failed once. *)
Definition ceiling_store : World :=
  store [failed_meeting 1 2; failed_meeting 2 3;
         meeting 3 d_2024_02_14 None None; failed_meeting 4 1] [].

(** A sweep in which the run of recording 4 fails again, while
    transcribing, and every other run succeeds. *)
Definition ceiling_envs (rid : Z) : Env :=
  if (rid =? 4)%Z then env_transcribe_fails else env_ok.

Definition ceiling_sweep : World * result unit :=
  retry_failed_recordings ceiling_envs ceiling_store.


(** The resolver on an empty accounts table. *)
Definition first_acme_run : World * result (option DBClient.t) :=
  identify_client env_ok acme_title (py "111") None None empty_world.

End Cases.

(* ===================================================================== *)
(** * Part II: properties                                                 *)
(* ===================================================================== *)

(** ** The retry wrapper *)


Module RetryFacts.
Import Retry.

Section Wrapper.
Context {S A : Type}.
Variable config : RetryConfig.
Variable func : S -> S * result A.

Local Abbreviation fails := (Retry.fails config func).
Local Abbreviation after := (Retry.after func).
Local Abbreviation iter_delay := (Retry.iter_delay config).

Lemma attempts_loop_calls :
  forall attempts last delay st,
    (calls (fst (attempts_loop config func attempts last delay st))
     <= calls st + List.length attempts)%nat.
Proof.
  induction attempts as [|attempt rest IH]; intros last delay st; simpl.
  - destruct last; simpl; lia.
  - destruct (func (op_state st)) as [s' [v|e]]; simpl; try lia.
    destruct (cfg_exceptions config e); simpl; try lia.
    destruct (attempt =? cfg_max_attempts config)%Z; simpl; try lia.
    specialize (IH (Some e)
                   (py_min (delay * cfg_exponential_base config)
                           (cfg_max_delay config))
                   (mkRun s' (Datatypes.S (calls st)) (slept st ++ [delay]))).
    simpl in IH. lia.
Qed.

Lemma range_length : forall lo hi, List.length (range lo hi) = Z.to_nat (hi - lo).
Proof. intros. unfold range. now rewrite length_map, length_seq. Qed.

(** The wrapped operation is invoked at most [max_attempts] times. *)
Lemma wrapper_calls_bound :
  forall s, (calls (fst (wrapper config func s))
             <= Z.to_nat (cfg_max_attempts config))%nat.
Proof.
  intros s. unfold wrapper.
  pose proof (attempts_loop_calls
                (range 1 (cfg_max_attempts config + 1)) None
                (cfg_initial_delay config) (mkRun s 0 [])) as H.
  rewrite range_length in H. simpl in H.
  replace (cfg_max_attempts config + 1 - 1)%Z
    with (cfg_max_attempts config) in H by lia.
  exact H.
Qed.

Lemma range_cons :
  forall lo hi, (lo < hi)%Z -> range lo hi = lo :: range (lo + 1) hi.
Proof.
  intros lo hi H. unfold range.
  replace (Z.to_nat (hi - lo)) with (Datatypes.S (Z.to_nat (hi - (lo + 1))))
    by lia.
  simpl. f_equal; [lia|].
  rewrite <- seq_shift, map_map. apply map_ext. intros; lia.
Qed.

Lemma attempts_loop_skip :
  forall n a last delay st,
    fails n (op_state st) ->
    (a + Z.of_nat n <= cfg_max_attempts config)%Z ->
    exists last',
      attempts_loop config func (range a (cfg_max_attempts config + 1))
                    last delay st
      = attempts_loop config func
          (range (a + Z.of_nat n) (cfg_max_attempts config + 1))
          last' (iter_delay n delay)
          (mkRun (after n (op_state st)) (calls st + n)
                 (slept st ++ backoff (cfg_max_delay config)
                                      (cfg_exponential_base config) n delay)).
Proof.
  induction n as [|n IH]; intros a last delay st Hf Hle.
  - exists last. simpl. rewrite Z.add_0_r, Nat.add_0_r, app_nil_r.
    now destruct st.
  - simpl in Hf. rewrite (range_cons (lo := a)) by lia. simpl.
    destruct (func (op_state st)) as [s' [v|e]] eqn:Hs; [contradiction|].
    destruct Hf as [Hc Hf]. rewrite Hc.
    destruct (Z.eqb_spec a (cfg_max_attempts config)) as [->|_]; [lia|].
    destruct (IH (a + 1)%Z (Some e)
                 (py_min (delay * cfg_exponential_base config)
                         (cfg_max_delay config))
                 (mkRun s' (Datatypes.S (calls st)) (slept st ++ [delay])))
      as [last' IH']; simpl; auto; try lia.
    exists last'. rewrite IH'. simpl.
    replace (a + 1 + Z.of_nat n)%Z
      with (a + Z.pos (Pos.of_succ_nat n))%Z by lia.
    replace (Datatypes.S (calls st + n))
      with (calls st + Datatypes.S n)%nat by lia.
    now rewrite <- app_assoc.
Qed.

(** If the invocation after [n] caught failures succeeds, its value is
    returned and nothing is invoked after it. *)
Lemma wrapper_success :
  forall n s s' v,
    (Z.of_nat n < cfg_max_attempts config)%Z ->
    fails n s ->
    func (after n s) = (s', Ok v) ->
    wrapper config func s
    = (mkRun s' (Datatypes.S n)
             (backoff (cfg_max_delay config) (cfg_exponential_base config)
                      n (cfg_initial_delay config)),
       Ok v).
Proof.
  intros n s s' v Hn Hf Hok. unfold wrapper.
  destruct (attempts_loop_skip n 1 None (cfg_initial_delay config)
                               (mkRun s 0 []) Hf ltac:(lia)) as [last' ->].
  rewrite (range_cons (lo := 1 + Z.of_nat n)) by lia.
  cbn [attempts_loop op_state calls slept Nat.add app].
  now rewrite Hok.
Qed.

(** If all [max_attempts] invocations raise caught exceptions, the
    exception of the last one is re-raised. *)
Lemma wrapper_exhausted :
  forall n s s' e,
    cfg_max_attempts config = Z.of_nat (Datatypes.S n) ->
    fails n s ->
    func (after n s) = (s', Raise e) ->
    cfg_exceptions config e = true ->
    wrapper config func s
    = (mkRun s' (Datatypes.S n)
             (backoff (cfg_max_delay config) (cfg_exponential_base config)
                      n (cfg_initial_delay config)),
       Raise e).
Proof.
  intros n s s' e HN Hf Hr Hc. unfold wrapper.
  destruct (attempts_loop_skip n 1 None (cfg_initial_delay config)
                               (mkRun s 0 []) Hf ltac:(lia)) as [last' ->].
  rewrite (range_cons (lo := 1 + Z.of_nat n)) by lia.
  cbn [attempts_loop op_state calls slept Nat.add app].
  rewrite Hr, Hc.
  replace (1 + Z.of_nat n =? cfg_max_attempts config)%Z with true
    by (symmetry; apply Z.eqb_eq; lia).
  reflexivity.
Qed.

End Wrapper.

Lemma py_min_Qmin : forall a b, (py_min a b == Qmin a b)%Q.
Proof.
  intros a b. unfold py_min.
  destruct (Qcompare b a) eqn:H.
  - apply Qeq_alt in H. rewrite Q.min_l; [reflexivity|]. rewrite H. apply Qle_refl.
  - apply Qlt_alt in H. rewrite Q.min_r; [reflexivity|]. now apply Qlt_le_weak.
  - apply Qgt_alt in H. rewrite Q.min_l; [reflexivity|]. now apply Qlt_le_weak.
Qed.

Lemma Qpower_nat_succ :
  forall (b : Q) (k : nat),
    (1 <= b)%Q -> (b ^ Z.of_nat (Datatypes.S k) == b * b ^ Z.of_nat k)%Q.
Proof.
  intros b k Hb.
  replace (Z.of_nat (Datatypes.S k)) with (1 + Z.of_nat k)%Z by lia.
  rewrite Qpower_plus.
  - reflexivity.
  - intro H0. lra.
Qed.

Lemma Qpower_nat_ge_1 :
  forall (b : Q) (k : nat), (1 <= b)%Q -> (1 <= b ^ Z.of_nat k)%Q.
Proof.
  intros b k Hb. induction k as [|k IH].
  - apply Qle_refl.
  - rewrite Qpower_nat_succ by assumption. nra.
Qed.

(** With [0 <= initial <= max] and a base of at least 1, the [k]-th
    sleep of the loop is the delay of the specification's formula. *)
Lemma backoff_closed_form :
  forall (max base : Q) (n k : nat) (d0 : Q),
    (0 <= d0)%Q -> (d0 <= max)%Q -> (1 <= base)%Q -> (k < n)%nat ->
    (nth k (backoff max base n d0) 0 == Qmin (d0 * base ^ Z.of_nat k) max)%Q.
Proof.
  intros max base n. induction n as [|n IH]; intros k d0 H0 Hmax Hb Hk; [lia|].
  destruct k as [|k]; simpl backoff; simpl nth.
  - change (base ^ Z.of_nat 0)%Q with 1%Q.
    rewrite Q.min_l; [ring | now rewrite Qmult_1_r].
  - rewrite IH; try lia; try assumption.
    + pose proof (Qpower_nat_ge_1 k Hb) as Hp.
      rewrite Qpower_nat_succ by assumption.
      rewrite py_min_Qmin.
      destruct (Qlt_le_dec max (d0 * base)) as [Hgt|Hle].
      * rewrite (Q.min_r (d0 * base) max) by now apply Qlt_le_weak.
        rewrite Q.min_r by nra. rewrite Q.min_r by nra. reflexivity.
      * rewrite (Q.min_l (d0 * base) max) by assumption.
        now rewrite Qmult_assoc.
    + rewrite py_min_Qmin. apply Q.min_glb; [nra | lra].
    + rewrite py_min_Qmin. apply Q.le_min_r.
Qed.

(** C9 (failing input): with [initial_delay = 100] above
    [max_delay = 60], an operation that fails once sleeps 100 seconds
    before its retry, although the documented maximum delay is 60 and the
    specification's formula caps the first delay at 60. *)
Theorem first_delay_exceeds_max_delay :
  slept (fst (async_retry None steep_config (flaky 1 timeout_error 7) 0%nat))
  = [100%Q]
  /\ (cfg_max_delay steep_config < 100)%Q
  /\ (spec_delay steep_config 0 == 60)%Q
  /\ ~ (100 == spec_delay steep_config 0)%Q.
Proof.
  repeat split; try reflexivity.
  intro H. vm_compute in H. discriminate H.
Qed.

End RetryFacts.

(** ** The monad: how computations extend the trace *)

Section MonadFacts.

Lemma log_add_log : forall w e, log (add_log w e) = log w ++ [e].
Proof. reflexivity. Qed.

Lemma appends_weaken {A} (P Q : Event -> Prop) (m : M A) :
  (forall e, P e -> Q e) -> appends P m -> appends Q m.
Proof.
  intros HPQ Hm w. destruct (Hm w) as [l [Hl HP]].
  exists l. split; [assumption|]. eapply Forall_impl; eauto.
Qed.

Lemma appends_ret {A} P (a : A) : appends P (ret a).
Proof. intros w. exists []. simpl. now rewrite app_nil_r. Qed.

Lemma appends_raise {A} P e : appends P (@raise A e).
Proof. intros w. exists []. simpl. now rewrite app_nil_r. Qed.

Lemma appends_lift {A} P (r : result A) : appends P (lift r).
Proof. intros w. exists []. simpl. now rewrite app_nil_r. Qed.

Lemma appends_get_world P : appends P get_world.
Proof. intros w. exists []. simpl. now rewrite app_nil_r. Qed.

Lemma appends_emit (P : Event -> Prop) e : P e -> appends P (emit e).
Proof. intros He w. exists [e]. simpl. auto. Qed.

Lemma appends_modify P (f : World -> World) :
  (forall w, log (f w) = log w) -> appends P (modify f).
Proof. intros Hf w. exists []. simpl. now rewrite Hf, app_nil_r. Qed.

Lemma appends_bind {A B} P (m : M A) (k : A -> M B) :
  appends P m -> (forall a, appends P (k a)) -> appends P (bind m k).
Proof.
  intros Hm Hk w. unfold bind.
  destruct (Hm w) as [l1 [H1 HP1]].
  destruct (m w) as [w1 [a|e]]; simpl in *.
  - destruct (Hk a w1) as [l2 [H2 HP2]].
    exists (l1 ++ l2). rewrite H2, H1, app_assoc.
    split; [reflexivity | now apply Forall_app].
  - exists l1. auto.
Qed.

Lemma appends_try_except {A} P (m : M A) (h : Exn -> M A) :
  appends P m -> (forall e, appends P (h e)) -> appends P (try_except m h).
Proof.
  intros Hm Hh w. unfold try_except.
  destruct (Hm w) as [l1 [H1 HP1]].
  destruct (m w) as [w1 [a|e]]; simpl in *.
  - exists l1. auto.
  - destruct (Hh e w1) as [l2 [H2 HP2]].
    exists (l1 ++ l2). rewrite H2, H1, app_assoc.
    split; [reflexivity | now apply Forall_app].
Qed.

Lemma appends_call {A} (P : Event -> Prop) svc (o : result A) :
  P (EvCall svc) -> appends P (call svc o).
Proof.
  intros HP. unfold call.
  apply appends_bind; [now apply appends_emit | intros; apply appends_lift].
Qed.

Lemma appends_update_recording P rid f : appends P (update_recording rid f).
Proof. apply appends_modify. reflexivity. Qed.

Lemma appends_store_client P c : appends P (store_client c).
Proof. apply appends_modify. reflexivity. Qed.

Lemma appends_for_each {A} P (l : list A) (body : A -> M unit) :
  (forall x, appends P (body x)) -> appends P (for_each l body).
Proof.
  intros Hb. induction l as [|x l IH]; simpl.
  - apply appends_ret.
  - apply appends_bind; auto.
Qed.

Lemma keeps_ret {A} (a : A) : keeps_recordings (ret a).
Proof. intros w. reflexivity. Qed.

Lemma keeps_raise {A} e : keeps_recordings (@raise A e).
Proof. intros w. reflexivity. Qed.

Lemma keeps_lift {A} (r : result A) : keeps_recordings (lift r).
Proof. intros w. reflexivity. Qed.

Lemma keeps_get_world : keeps_recordings get_world.
Proof. intros w. reflexivity. Qed.

Lemma keeps_emit e : keeps_recordings (emit e).
Proof. intros w. reflexivity. Qed.

Lemma keeps_modify (f : World -> World) :
  (forall w, recordings (f w) = recordings w) -> keeps_recordings (modify f).
Proof. intros Hf w. simpl. apply Hf. Qed.

Lemma keeps_bind {A B} (m : M A) (k : A -> M B) :
  keeps_recordings m -> (forall a, keeps_recordings (k a)) ->
  keeps_recordings (bind m k).
Proof.
  intros Hm Hk w. unfold bind. specialize (Hm w).
  destruct (m w) as [w1 [a|e]]; simpl in *.
  - now rewrite Hk.
  - assumption.
Qed.

Lemma keeps_store_client c : keeps_recordings (store_client c).
Proof. apply keeps_modify. reflexivity. Qed.

Lemma keeps_call {A} svc (o : result A) : keeps_recordings (call svc o).
Proof.
  unfold call. apply keeps_bind; [apply keeps_emit | intros; apply keeps_lift].
Qed.

(** The trace gets the status the stored row holds, or nothing when
    there is no such row. *)
Lemma trace_status_row rid w r :
  row w rid = Some r ->
  trace_status rid w
  = (add_log w (EvStatus rid (DBRecording.status r)), Ok tt).
Proof.
  intros H. unfold row in H.
  unfold trace_status, select_recording. unfold bind, get_world, ret.
  cbv beta iota. now rewrite H.
Qed.

Lemma trace_status_none rid w :
  row w rid = None -> trace_status rid w = (w, Ok tt).
Proof.
  intros H. unfold row in H.
  unfold trace_status, select_recording. unfold bind, get_world, ret.
  cbv beta iota. now rewrite H.
Qed.

Lemma trace_status_returns rid w : snd (trace_status rid w) = Ok tt.
Proof.
  destruct (row w rid) as [r|] eqn:H.
  - now rewrite (trace_status_row _ _ H).
  - now rewrite (trace_status_none _ _ H).
Qed.

Lemma appends_trace_status (P : Event -> Prop) rid :
  (forall s, P (EvStatus rid s)) -> appends P (trace_status rid).
Proof.
  intros HP w. destruct (row w rid) as [r|] eqn:H.
  - rewrite (trace_status_row _ _ H). exists [EvStatus rid (DBRecording.status r)].
    split; [reflexivity|]. constructor; [apply HP | constructor].
  - rewrite (trace_status_none _ _ H). exists []. simpl.
    now rewrite app_nil_r.
Qed.

Lemma keeps_trace_status rid : keeps_recordings (trace_status rid).
Proof.
  intros w. destruct (row w rid) as [r|] eqn:H.
  - now rewrite (trace_status_row _ _ H).
  - now rewrite (trace_status_none _ _ H).
Qed.

Lemma find_map_update (rid : Z) (f : DBRecording.t -> DBRecording.t)
      (l : list DBRecording.t) :
  (forall r, DBRecording.id (f r) = DBRecording.id r) ->
  find (fun r => (DBRecording.id r =? rid)%Z)
       (List.map (fun r => if (DBRecording.id r =? rid)%Z then f r else r) l)
  = option_map f (find (fun r => (DBRecording.id r =? rid)%Z) l).
Proof.
  intros Hf. induction l as [|x l IH]; simpl; [reflexivity|].
  destruct (DBRecording.id x =? rid)%Z eqn:E.
  - now rewrite Hf, E.
  - now rewrite E.
Qed.

Lemma row_update_recording w rid f :
  (forall r, DBRecording.id (f r) = DBRecording.id r) ->
  row (fst (update_recording rid f w)) rid = option_map f (row w rid).
Proof. intros Hf. unfold row. simpl. now apply find_map_update. Qed.

Lemma row_keeps {A} (m : M A) w rid :
  keeps_recordings m -> row (fst (m w)) rid = row w rid.
Proof. intros H. unfold row. now rewrite H. Qed.

End MonadFacts.

(** Decompose a computation along its binds and branches. *)
Ltac appends_step :=
  match goal with
  | |- appends _ (bind _ _) => apply appends_bind; [|intros]
  | |- appends _ (ret _) => apply appends_ret
  | |- appends _ (raise _) => apply appends_raise
  | |- appends _ (lift _) => apply appends_lift
  | |- appends _ get_world => apply appends_get_world
  | |- appends _ (update_recording _ _) => apply appends_update_recording
  | |- appends _ (store_client _) => apply appends_store_client
  | |- appends _ (modify _) => apply appends_modify; reflexivity
  | |- appends _ (try_except _ _) => apply appends_try_except; [|intros]
  | |- appends _ (call _ _) => apply appends_call
  | |- appends _ (emit _) => apply appends_emit
  | |- appends _ (trace_status _) => apply appends_trace_status; intros
  | |- appends _ (match ?x with _ => _ end) => destruct x
  | |- appends _ (let '(_, _) := ?x in _) => destruct x
  end.

Ltac keeps_step :=
  match goal with
  | |- keeps_recordings (bind _ _) => apply keeps_bind; [|intros]
  | |- keeps_recordings (ret _) => apply keeps_ret
  | |- keeps_recordings (raise _) => apply keeps_raise
  | |- keeps_recordings (lift _) => apply keeps_lift
  | |- keeps_recordings get_world => apply keeps_get_world
  | |- keeps_recordings (emit _) => apply keeps_emit
  | |- keeps_recordings (trace_status _) => apply keeps_trace_status
  | |- keeps_recordings (store_client _) => apply keeps_store_client
  | |- keeps_recordings (modify _) => apply keeps_modify; reflexivity
  | |- keeps_recordings (match ?x with _ => _ end) => destruct x
  end.

(** ** The resolver and the aggregator leave recordings alone and only
       log their generation requests *)

Section ResolverFrame.
Context {L : PyLib}.

Lemma appends_add_meeting_id P c zid :
  appends P (_add_meeting_id_to_client c zid).
Proof. unfold _add_meeting_id_to_client. repeat appends_step. Qed.

Lemma appends_get_or_create P name zid :
  appends P (_get_or_create_client name zid).
Proof.
  unfold _get_or_create_client. repeat appends_step.
  apply appends_add_meeting_id.
Qed.

Lemma extract_domains_nil : _extract_domains [] = [].
Proof. reflexivity. Qed.

(** The resolver, called without participant emails, logs nothing but
    inference requests whose domains are the placeholder. *)
Lemma appends_identify_client env title zid ts :
  appends resolver_event (identify_client env title zid ts None).
Proof.
  unfold identify_client, _match_by_meeting_id, _match_by_title_pattern.
  repeat (first [ apply appends_add_meeting_id
                | apply appends_get_or_create
                | appends_step ]).
  all: try (unfold SummaryService_identify_client; rewrite extract_domains_nil;
            repeat (first [ apply appends_get_or_create | appends_step ]);
            reflexivity).
Qed.

Lemma appends_update_client_summary env cid :
  appends rollup_event (update_client_summary env cid).
Proof.
  unfold update_client_summary, select_client.
  repeat appends_step. exact I.
Qed.

Lemma keeps_add_meeting_id c zid :
  keeps_recordings (_add_meeting_id_to_client c zid).
Proof. unfold _add_meeting_id_to_client. repeat keeps_step. Qed.

Lemma keeps_get_or_create name zid :
  keeps_recordings (_get_or_create_client name zid).
Proof.
  unfold _get_or_create_client. repeat keeps_step.
  apply keeps_add_meeting_id.
Qed.

Lemma keeps_identify_client env title zid ts emails :
  keeps_recordings (identify_client env title zid ts emails).
Proof.
  unfold identify_client, _match_by_meeting_id, _match_by_title_pattern,
    SummaryService_identify_client.
  repeat (first [ apply keeps_add_meeting_id
                | apply keeps_get_or_create
                | keeps_step ]).
Qed.

Lemma keeps_update_client_summary env cid :
  keeps_recordings (update_client_summary env cid).
Proof.
  unfold update_client_summary, select_client. repeat keeps_step.
Qed.

End ResolverFrame.

(** ** The pipeline: statuses and calls of a run *)

Section PipelineFacts.
Context {L : PyLib}.

Lemma status_trace_app rid l1 l2 :
  status_trace rid (l1 ++ l2) = status_trace rid l1 ++ status_trace rid l2.
Proof.
  induction l1 as [|e l1 IH]; simpl; [reflexivity|].
  destruct e as [r|r s|svc|t d ts|ms]; simpl; auto.
  destruct (r =? rid)%Z; simpl; now rewrite IH.
Qed.

Lemma status_trace_silent rid l :
  Forall (fun e => is_status e = false) l -> status_trace rid l = [].
Proof.
  induction 1 as [|e l He _ IH]; simpl; [reflexivity|].
  destruct e; simpl in *; auto; discriminate.
Qed.

Lemma run_ok_ret {A} rid Q s (a : A) : run_ok rid Q s [] s (ret a).
Proof.
  intros w w' a' r Hr Hs H. inversion H; subst. split; [eauto|].
  exists []. rewrite app_nil_r. auto.
Qed.

Lemma run_ok_raise {A} rid Q s T s' e : run_ok rid Q s T s' (@raise A e).
Proof. intros w w' a' r _ _ H. inversion H. Qed.

Lemma run_ok_bind {A B} rid Q s s1 s2 T T1 T2 (m : M A) (k : A -> M B) :
  run_ok rid Q s T1 s1 m -> (forall a, run_ok rid Q s1 T2 s2 (k a)) ->
  T = T1 ++ T2 ->
  run_ok rid Q s T s2 (bind m k).
Proof.
  intros Hm Hk -> w w' b r Hr Hs H. unfold bind in H.
  destruct (m w) as [w1 [a|e]] eqn:Hmw; [|inversion H].
  destruct (Hm _ _ _ _ Hr Hs Hmw) as [[r1 [Hr1 Hs1]] [l1 [H1 [HT1 HQ1]]]].
  destruct (Hk a _ _ _ _ Hr1 Hs1 H) as [Hrow2 [l2 [H2 [HT2 HQ2]]]].
  split; [exact Hrow2|].
  exists (l1 ++ l2). rewrite H2, H1, app_assoc, status_trace_app, HT1, HT2.
  repeat split. now apply Forall_app.
Qed.

(** A step that leaves the recordings alone and logs no status. *)
Lemma run_ok_keeps {A} rid (P Q : Event -> Prop) s (m : M A) :
  keeps_recordings m -> appends P m ->
  (forall e, P e -> Q e /\ is_status e = false) ->
  run_ok rid Q s [] s m.
Proof.
  intros Hk Hm HP w w' a r Hr Hs H. split.
  - exists r. split; [|exact Hs].
    pose proof (@row_keeps _ m w rid Hk) as Hrow. rewrite H in Hrow.
    simpl in Hrow. congruence.
  - destruct (Hm w) as [l [Hl HPl]].
    rewrite H in Hl. simpl in Hl. exists l. repeat split; auto.
    + apply status_trace_silent. eapply Forall_impl; [|exact HPl].
      intros e He. now apply HP.
    + eapply Forall_impl; [|exact HPl]. intros e He. now apply HP.
Qed.

Lemma run_ok_silent {A} rid Q s (m : M A) :
  keeps_recordings m -> (forall w, log (fst (m w)) = log w) ->
  run_ok rid Q s [] s m.
Proof.
  intros Hk Hm w w' a r Hr Hs H. split.
  - exists r. split; [|exact Hs].
    pose proof (@row_keeps _ m w rid Hk) as Hrow. rewrite H in Hrow.
    simpl in Hrow. congruence.
  - specialize (Hm w). rewrite H in Hm. simpl in Hm.
    exists []. rewrite app_nil_r. auto.
Qed.

Lemma run_ok_call {A} rid (Q : Event -> Prop) s svc (o : result A) :
  (forall a, o = Ok a -> Q (EvCall svc)) -> run_ok rid Q s [] s (call svc o).
Proof.
  intros HQ w w' a r Hr Hs H. split.
  - exists r. split; [|exact Hs].
    pose proof (@row_keeps _ (call svc o) w rid (keeps_call svc o)) as Hrow.
    rewrite H in Hrow. simpl in Hrow. congruence.
  - unfold call, bind, emit, modify, lift in H.
    inversion H; subst. exists [EvCall svc]. simpl. repeat split.
    constructor; [eapply HQ; eauto | constructor].
Qed.

(** A write to the row of [rid]: the status it leaves is the one [f]
    gives. *)
Lemma run_ok_update rid (Q : Event -> Prop) s s' f :
  (forall r, DBRecording.id (f r) = DBRecording.id r) ->
  (forall r, DBRecording.status r = s -> DBRecording.status (f r) = s') ->
  run_ok rid Q s [] s' (update_recording rid f).
Proof.
  intros Hid Hst w w' a r Hr Hs H. split.
  - exists (f r). split; [|now apply Hst].
    pose proof (@row_update_recording w rid f Hid) as Hrow.
    rewrite H, Hr in Hrow. exact Hrow.
  - unfold update_recording, modify in H. inversion H; subst.
    exists []. simpl. rewrite app_nil_r. auto.
Qed.

(** The trace gets the status the row holds. *)
Lemma run_ok_trace_status rid (Q : Event -> Prop) s :
  Q (EvStatus rid s) -> run_ok rid Q s [s] s (trace_status rid).
Proof.
  intros HQ w w' a r Hr Hs H. rewrite (trace_status_row _ _ Hr) in H.
  inversion H; subst. split.
  - exists r. split; [exact Hr | reflexivity].
  - exists [EvStatus rid (DBRecording.status r)]. simpl.
    rewrite Z.eqb_refl. repeat split. auto.
Qed.

Lemma run_ok_update_status rid (Q : Event -> Prop) s0 env s :
  Q (EvStatus rid s) -> run_ok rid Q s0 [s] s (update_status env rid s).
Proof.
  intros HQ. unfold update_status.
  apply run_ok_bind with (s1 := s) (T1 := []) (T2 := [s]);
    [ | intros _ | reflexivity ].
  - apply run_ok_update; reflexivity.
  - now apply run_ok_trace_status.
Qed.

(** The failure handler always re-raises the exception it was given,
    also when its own error notification raises: that one is swallowed. *)
Lemma on_failure_raises {A} env rid f e w :
  snd (@on_failure A env rid f e w) = Raise e.
Proof.
  unfold on_failure.
  remember (update_recording rid
              (fun r => DBRecording.with_failure r
                 (slice_to 2000 (exn_text e ++ [newline] ++ format_exc env e))))
    as upd.
  unfold bind at 1. destruct (upd w) as [w1 [[]|e1]] eqn:Hu.
  2: { subst upd. unfold update_recording, modify in Hu. discriminate. }
  unfold bind at 1. pose proof (trace_status_returns rid w1) as Ht.
  destruct (trace_status rid w1) as [w2 [[]|e2]]; simpl in Ht;
    [|discriminate].
  unfold bind, try_except, call, emit, modify, lift, ret, raise.
  destruct (send_processing_error env); destruct f; try reflexivity;
    destruct (downloaded_file_exists env); reflexivity.
Qed.

Lemma run_ok_try_except {A} rid Q s T s' (m : M A) env f :
  run_ok rid Q s T s' m ->
  run_ok rid Q s T s' (try_except m (on_failure env rid f)).
Proof.
  intros Hm w w' a r Hr Hs H. unfold try_except in H.
  destruct (m w) as [w1 [a1|e]] eqn:Hmw.
  - inversion H; subst. eauto.
  - pose proof (@on_failure_raises A env rid f e w1) as Hraise.
    rewrite H in Hraise. discriminate Hraise.
Qed.

End PipelineFacts.

Ltac run_ok_step :=
  match goal with
  | |- run_ok _ _ _ _ _ (bind _ _) => eapply run_ok_bind; [ | intros | ]
  | |- run_ok _ _ _ _ _ (ret _) => apply run_ok_ret
  | |- run_ok _ _ _ _ _ (raise _) => apply run_ok_raise
  | |- run_ok _ _ _ _ _ (try_except _ (on_failure _ _ _)) =>
      apply run_ok_try_except
  | |- run_ok _ _ _ _ _ (update_status _ _ _) => apply run_ok_update_status
  | |- run_ok _ _ _ _ _ (trace_status _) => apply run_ok_trace_status
  | |- run_ok _ _ _ _ _ (call _ _) => apply run_ok_call
  | |- run_ok _ _ _ _ _ (update_recording _ _) =>
      eapply run_ok_update;
      [ reflexivity
      | let Hst := fresh "Hst" in
        intros ? Hst; cbn; first [exact Hst | reflexivity] ]
  | |- run_ok _ _ _ _ _ (store_client _) =>
      apply run_ok_silent; [apply keeps_store_client | reflexivity]
  | |- run_ok _ _ _ _ _ (identify_client _ _ _ _ None) =>
      eapply run_ok_keeps;
      [apply keeps_identify_client | apply appends_identify_client | ]
  | |- run_ok _ _ _ _ _ (update_client_summary _ _) =>
      eapply run_ok_keeps;
      [ apply keeps_update_client_summary
      | apply appends_update_client_summary | ]
  | |- run_ok _ _ _ _ _ (match ?x with _ => _ end) => destruct x
  | |- run_ok _ _ _ _ _ (let '(_, _) := ?x in _) => destruct x
  end.

(** Solve the bookkeeping equations [T = T1 ++ T2] once [T1] is known. *)
Ltac trace_eq :=
  match goal with
  | |- @eq (list ProcessingStatus) _ (?t1 ++ _) =>
      tryif has_evar t1 then fail else (simpl; reflexivity)
  end.

Section PipelineRuns.
Context {L : PyLib}.

Lemma stages_run_ok env recording file s0 :
  run_ok (DBRecording.id recording) (call_succeeded env) s0
         [UPLOADING_YOUTUBE; TRANSCRIBING; SUMMARIZING; SAVING; COMPLETED]
         COMPLETED
         (stages_after_download env recording file).
Proof.
  unfold stages_after_download.
  repeat run_ok_step.
  all: try exact I.
  all: try (intros [] Heq; simpl; eauto; fail).
  all: try (intros ? Heq; simpl; eauto; fail).
  all: try (intros e He; destruct e; simpl in *; try contradiction; auto; fail).
  all: repeat (try trace_eq).
Qed.


Lemma row_id w rid r : row w rid = Some r -> DBRecording.id r = rid.
Proof.
  unfold row. intros H. apply find_some in H. destruct H as [_ H].
  now apply Z.eqb_eq in H.
Qed.

Lemma started_app l1 l2 : started (l1 ++ l2) = started l1 ++ started l2.
Proof.
  induction l1 as [|e l1 IH]; simpl; [reflexivity|].
  destruct e; simpl; now rewrite ?IH.
Qed.

Lemma process_recording_run_ok env rid w w' recording :
  row w rid = Some recording ->
  process_recording env rid w = (w', Ok tt) ->
  (exists r', row w' rid = Some r' /\ DBRecording.status r' = COMPLETED)
  /\ exists new,
       log w' = log w ++ new
       /\ status_trace rid new
          = [DOWNLOADING; UPLOADING_YOUTUBE; TRANSCRIBING; SUMMARIZING;
             SAVING; COMPLETED]
       /\ Forall (call_succeeded env) new.
Proof.
  intros Hrow H.
  pose proof (row_id _ _ Hrow) as Hid.
  unfold process_recording in H.
  unfold bind at 1 in H. simpl emit in H. cbn [emit modify] in H.
  unfold bind at 1 in H. unfold select_recording at 1 in H.
  cbn [bind get_world ret add_log recordings] in H.
  fold (row w rid) in H. rewrite Hrow in H.
  match type of H with
  | ?m ?w0 = _ =>
      assert (Hm : run_ok rid (call_succeeded env)
                     (DBRecording.status recording)
                     ([DOWNLOADING] ++
                      [UPLOADING_YOUTUBE; TRANSCRIBING; SUMMARIZING; SAVING;
                       COMPLETED])
                     COMPLETED m)
  end.
  { eapply run_ok_bind; [ | intros | reflexivity ].
    - apply run_ok_try_except.
      eapply run_ok_bind; [ | intros | ].
      + apply run_ok_update_status. exact I.
      + apply run_ok_call. intros; exact I.
      + reflexivity.
    - apply run_ok_try_except. rewrite <- Hid. apply stages_run_ok. }
  destruct (Hm (add_log w (EvStart rid)) w' tt recording Hrow eq_refl H)
    as [Hend [l [Hl [HT HQ]]]].
  split; [exact Hend|].
  exists (EvStart rid :: l). simpl in Hl. rewrite Hl, <- app_assoc.
  repeat split; auto. constructor; [exact I | assumption].
Qed.


Section Appends.
Variable P : Event -> Prop.
Hypothesis P_status : forall rid s, P (EvStatus rid s).
Hypothesis P_call : forall svc, P (EvCall svc).
Hypothesis P_resolver : forall e, resolver_event e -> P e.
Hypothesis P_rollup : forall e, rollup_event e -> P e.

Lemma appends_update_status env rid s : appends P (update_status env rid s).
Proof. unfold update_status. repeat appends_step. apply P_status. Qed.

Lemma appends_on_failure {A} env rid f e :
  appends P (@on_failure A env rid f e).
Proof.
  unfold on_failure. repeat appends_step; auto.
  all: destruct (downloaded_file_exists env); repeat appends_step; auto.
Qed.

Lemma appends_stages env recording file :
  appends P (stages_after_download env recording file).
Proof.
  unfold stages_after_download.
  repeat (first
    [ apply appends_update_status
    | eapply appends_weaken;
      [exact P_resolver | apply appends_identify_client]
    | eapply appends_weaken;
      [exact P_rollup | apply appends_update_client_summary]
    | appends_step ]); auto.
  all: unfold select_client; repeat appends_step; auto.
  all: try (destruct (option_truthy _); repeat appends_step; auto).
  all: try (destruct (auto_delete_after_processing env);
            repeat appends_step; auto).
Qed.

(** Every run logs its start first; everything after it is a status, a
    call or a generation request. *)
Lemma process_recording_appends env rid w :
  exists l,
    log (fst (process_recording env rid w)) = log w ++ EvStart rid :: l
    /\ Forall P l.
Proof.
  unfold process_recording. unfold bind at 1. cbn [emit modify].
  match goal with
  | |- exists l, log (fst (?m ?w0)) = _ /\ _ =>
      assert (Hm : appends P m)
  end.
  { unfold select_client, select_recording.
    repeat (first [ apply appends_update_status
                  | apply appends_on_failure
                  | apply appends_stages
                  | appends_step ]); auto. }
  destruct (Hm (add_log w (EvStart rid))) as [l [Hl HP]].
  exists l. rewrite Hl. simpl. now rewrite <- app_assoc.
Qed.

End Appends.

End PipelineRuns.

(** ** Claims about whole runs *)

Section PipelineClaims.
Context {L : PyLib}.

Lemma skipn_log_app (w : World) (l new : list Event) :
  l = log w ++ new -> skipn (List.length (log w)) l = new.
Proof.
  intros ->. rewrite skipn_app, Nat.sub_diag, skipn_all. reflexivity.
Qed.

(** C1 (amended): over every successful run, the status column of the
    recording's row is read, after each write to it, as downloading,
    uploading_youtube, transcribing, summarizing, saving and completed, in
    this order and each once, and the row holds completed when the run
    returns.  For a recording that enters the pipeline as pending (after
    ingestion or a manual retry) the row therefore passes through exactly
    the seven members PENDING, DOWNLOADING, UPLOADING_YOUTUBE,
    TRANSCRIBING, SUMMARIZING, SAVING, COMPLETED of [ProcessingStatus]:
    the column stores each as its member name, and the routes report the
    member's value, which is [uploading_youtube] for the second stage. *)
Theorem successful_run_status_sequence env rid w w' recording :
  row w rid = Some recording ->
  process_recording env rid w = (w', Ok tt) ->
  observed_statuses w w' rid
  = [DBRecording.status recording; DOWNLOADING; UPLOADING_YOUTUBE;
     TRANSCRIBING; SUMMARIZING; SAVING; COMPLETED]
  /\ option_map DBRecording.status (row w' rid) = Some COMPLETED
  /\ (DBRecording.status recording = PENDING ->
      List.map status_name (observed_statuses w w' rid)
      = ["PENDING"; "DOWNLOADING"; "UPLOADING_YOUTUBE"; "TRANSCRIBING";
         "SUMMARIZING"; "SAVING"; "COMPLETED"]%string
      /\ List.map status_value (observed_statuses w w' rid)
         = ["pending"; "downloading"; "uploading_youtube"; "transcribing";
            "summarizing"; "saving"; "completed"]%string).
Proof.
  intros Hrow Hrun.
  destruct (@process_recording_run_ok _ _ _ _ _ _ Hrow Hrun)
    as [[r' [Hr' Hs']] [new [Hl [HT _]]]].
  assert (Hobs : observed_statuses w w' rid
                 = [DBRecording.status recording; DOWNLOADING;
                    UPLOADING_YOUTUBE; TRANSCRIBING; SUMMARIZING; SAVING;
                    COMPLETED]).
  { unfold observed_statuses. rewrite Hrow.
    rewrite (@skipn_log_app w (log w') new Hl), HT. reflexivity. }
  split; [exact Hobs|].
  split; [rewrite Hr'; simpl; now rewrite Hs'|].
  intros Hp. rewrite Hobs, Hp. split; reflexivity.
Qed.

(** C10: in every run of the pipeline, each client-inference request
    carries the placeholder in place of email domains: the pipeline calls
    the resolver without participant emails, so the inference tier works
    from an empty domain list. *)
Theorem pipeline_inference_has_no_domains env rid w :
  exists new,
    log (fst (process_recording env rid w)) = log w ++ new
    /\ Forall infer_without_domains new
    /\ _extract_domains [] = []
    /\ (forall title zid ts w0,
          identify_client env title zid ts None w0
          = identify_client env title zid ts (Some []) w0)
    /\ forall title ts,
         appends infer_without_domains
                 (SummaryService_identify_client env title ts
                    (_extract_domains [])).
Proof.
  assert (H3 : forall e, resolver_event e -> infer_without_domains e)
    by (intros [] H; simpl in *; try contradiction; try exact I; assumption).
  assert (H4 : forall e, rollup_event e -> infer_without_domains e)
    by (intros [] H; simpl in *; try contradiction; try exact I; assumption).
  destruct (@process_recording_appends L infer_without_domains
              (fun _ _ => I) (fun _ => I) H3 H4 env rid w) as [l [Hl HP]].
  exists (EvStart rid :: l). repeat split; auto.
  - constructor; [exact I | assumption].
  - intros title ts. unfold SummaryService_identify_client.
    rewrite extract_domains_nil. repeat appends_step. reflexivity.
Qed.

Lemma try_process_started envs rid w :
  let run := try_except (process_recording (envs rid) rid)
                        (fun _ => ret tt) w in
  snd run = Ok tt
  /\ exists new, log (fst run) = log w ++ new /\ started new = [rid].
Proof.
  assert (H3 : forall e, resolver_event e -> is_start e = false)
    by (intros [] H; simpl in *; auto; contradiction).
  assert (H4 : forall e, rollup_event e -> is_start e = false)
    by (intros [] H; simpl in *; auto; contradiction).
  destruct (@process_recording_appends L (fun e => is_start e = false)
              (fun _ _ => eq_refl) (fun _ => eq_refl) H3 H4 (envs rid) rid w)
    as [l [Hl HP]].
  assert (Hs : started l = []).
  { clear Hl. induction HP as [|x l Hx _ IH]; simpl; auto.
    destruct x; simpl in *; auto; discriminate. }
  unfold try_except.
  destruct (process_recording (envs rid) rid w) as [w1 [[]|e]];
    simpl in *; (split; [reflexivity|]);
    exists (EvStart rid :: l); (split; [assumption|]);
    simpl; now rewrite Hs.
Qed.

Lemma sweep_loop_started envs (selected : list DBRecording.t) w :
  let run :=
    for_each selected
      (fun recording =>
         try_except
           (process_recording (envs (DBRecording.id recording))
                              (DBRecording.id recording))
           (fun _ => ret tt)) w in
  snd run = Ok tt
  /\ exists new,
       log (fst run) = log w ++ new
       /\ started new = List.map DBRecording.id selected.
Proof.
  revert w. induction selected as [|r rest IH]; intros w; simpl.
  - split; [reflexivity|]. exists []. now rewrite app_nil_r.
  - unfold bind.
    destruct (try_process_started envs (DBRecording.id r) w)
      as [Hr [l1 [Hl1 Hs1]]].
    destruct (try_except _ _ w) as [w1 r1]. simpl in Hr, Hl1. subst r1.
    destruct (IH w1) as [Hr2 [l2 [Hl2 Hs2]]].
    split; [exact Hr2|].
    exists (l1 ++ l2). rewrite Hl2, Hl1, app_assoc, started_app, Hs1, Hs2.
    auto.
Qed.

End PipelineClaims.

(** ** Failing runs *)

Section FailingRuns.
Context {L : PyLib}.

Lemma preserves_keeps {A} rid n (m : M A) :
  keeps_recordings m -> preserves (retried rid n) m.
Proof.
  intros H w [r [Hr Hn]]. exists r. split; [|assumption].
  now rewrite row_keeps.
Qed.

Lemma preserves_bind {A B} I (m : M A) (k : A -> M B) :
  preserves I m -> (forall a, preserves I (k a)) -> preserves I (bind m k).
Proof.
  intros Hm Hk w Hw. unfold bind. specialize (Hm w Hw).
  destruct (m w) as [w1 [a|e]]; simpl in *; [now apply Hk | assumption].
Qed.

Lemma preserves_update rid n f :
  (forall r, DBRecording.id (f r) = DBRecording.id r) ->
  (forall r, DBRecording.retry_count (f r) = DBRecording.retry_count r) ->
  preserves (retried rid n) (update_recording rid f).
Proof.
  intros Hid Hrc w [r [Hr Hn]]. exists (f r). split.
  - rewrite row_update_recording by assumption. now rewrite Hr.
  - now rewrite Hrc.
Qed.

Lemma preserves_update_status rid n env s :
  preserves (retried rid n) (update_status env rid s).
Proof.
  unfold update_status. apply preserves_bind.
  - apply preserves_update; reflexivity.
  - intros. apply preserves_keeps. apply keeps_trace_status.
Qed.

End FailingRuns.

Ltac preserves_step :=
  match goal with
  | |- preserves _ (bind _ _) => apply preserves_bind; [|intros]
  | |- preserves _ (update_status _ _ _) => apply preserves_update_status
  | |- preserves _ (update_recording _ _) =>
      apply preserves_update; reflexivity
  | |- preserves _ (call _ _) => apply preserves_keeps, keeps_call
  | |- preserves _ (emit _) => apply preserves_keeps, keeps_emit
  | |- preserves _ (trace_status _) =>
      apply preserves_keeps, keeps_trace_status
  | |- preserves _ (ret _) => apply preserves_keeps, keeps_ret
  | |- preserves _ (store_client _) => apply preserves_keeps, keeps_store_client
  | |- preserves _ (select_client _) =>
      apply preserves_keeps; unfold select_client; repeat keeps_step
  | |- preserves _ (identify_client _ _ _ _ _) =>
      apply preserves_keeps, keeps_identify_client
  | |- preserves _ (update_client_summary _ _) =>
      apply preserves_keeps, keeps_update_client_summary
  | |- preserves _ (match ?x with _ => _ end) => destruct x
  | |- preserves _ (let '(_, _) := ?x in _) => destruct x
  end.

Section FailureHandling.
Context {L : PyLib}.

Lemma preserves_stages env rid n recording file :
  DBRecording.id recording = rid ->
  preserves (retried rid n) (stages_after_download env recording file).
Proof.
  intros <-. unfold stages_after_download. repeat preserves_step.
Qed.

Lemma on_failure_row {A} env rid f e w n :
  retried rid n w ->
  exists r',
    row (fst (@on_failure A env rid f e w)) rid = Some r'
    /\ DBRecording.status r' = FAILED
    /\ DBRecording.retry_count r' = (n + 1)%Z
    /\ DBRecording.error_message r' = Some (stored_error env e).
Proof.
  intros [r [Hr Hn]].
  exists (DBRecording.with_failure r (stored_error env e)).
  split; [|simpl; rewrite Hn; auto].
  unfold on_failure.
  set (upd := update_recording rid
                (fun r0 => DBRecording.with_failure r0
                   (slice_to 2000 (exn_text e ++ [newline] ++ format_exc env e)))).
  assert (Hu : row (fst (upd w)) rid
               = Some (DBRecording.with_failure r (stored_error env e))).
  { unfold upd. rewrite row_update_recording by reflexivity.
    now rewrite Hr. }
  unfold bind at 1. destruct (upd w) as [w1 [[]|e1]] eqn:Hupd;
    [|unfold upd, update_recording, modify in Hupd; discriminate].
  simpl in Hu. rewrite <- Hu.
  apply row_keeps.
  repeat keeps_step.
  all: try apply keeps_call.
  all: unfold try_except; intros w0; unfold call, bind, emit, modify, lift;
    simpl; destruct (send_processing_error env); reflexivity.
Qed.


Lemma process_recording_enter env rid w recording :
  row w rid = Some recording ->
  process_recording env rid w
  = bind (try_except
            (update_status env rid DOWNLOADING ;;
             call SvcDownload (download_recording env))
            (on_failure env rid None))
         (fun downloaded_file =>
            try_except
              (stages_after_download env recording downloaded_file)
              (on_failure env rid (Some downloaded_file)))
         (add_log w (EvStart rid)).
Proof.
  intros Hrow. unfold process_recording.
  unfold bind at 1. cbn [emit modify].
  unfold bind at 1. unfold select_recording at 1.
  cbn [bind get_world ret add_log recordings].
  fold (row w rid). now rewrite Hrow.
Qed.

(** A run that raises leaves the recording failed, with the error text
    stored and the retry count one higher. *)
Lemma failed_run_row env rid w recording w' e :
  row w rid = Some recording ->
  process_recording env rid w = (w', Raise e) ->
  exists r',
    row w' rid = Some r'
    /\ DBRecording.status r' = FAILED
    /\ DBRecording.retry_count r' = (DBRecording.retry_count recording + 1)%Z
    /\ DBRecording.error_message r' = Some (stored_error env e).
Proof.
  intros Hrow H. pose proof (row_id _ _ Hrow) as Hid.
  rewrite (@process_recording_enter env rid w recording Hrow) in H.
  set (w0 := add_log w (EvStart rid)) in *.
  assert (H0 : retried rid (DBRecording.retry_count recording) w0)
    by (exists recording; split; auto).
  unfold bind at 1 in H. unfold try_except at 1 in H.
  set (step1 := (update_status env rid DOWNLOADING ;;
                 call SvcDownload (download_recording env))) in *.
  assert (P1 : preserves (retried rid (DBRecording.retry_count recording))
                         step1)
    by (unfold step1; repeat preserves_step).
  specialize (P1 w0 H0).
  destruct (step1 w0) as [w1 [file|e1]]; simpl in P1.
  - unfold try_except in H.
    pose proof (@preserves_stages env rid (DBRecording.retry_count recording)
                  recording file Hid w1 P1) as P2.
    destruct (stages_after_download env recording file w1) as [w2 [u|e2]];
      simpl in P2; [discriminate|].
    pose proof (@on_failure_raises unit env rid (Some file) e2 w2) as Hr.
    pose proof (@on_failure_row unit env rid (Some file) e2 w2 _ P2) as Hw.
    rewrite H in Hr, Hw. simpl in Hr, Hw. inversion Hr; subst. exact Hw.
  - pose proof (@on_failure_raises str env rid None e1 w1) as Hr.
    pose proof (@on_failure_row str env rid None e1 w1 _ P1) as Hw.
    destruct (on_failure env rid None e1 w1) as [w2 [a|e2]];
      simpl in Hr, Hw; [discriminate|].
    inversion Hr; subst. inversion H; subst. exact Hw.
Qed.

(** C3 (where the code departs from it): the calendar lookup, the
    calendar update and the processing-complete notification are awaited
    inside the [try] block with no handler of their own, unlike the
    error notification, which the failure handler guards (see
    [on_failure_raises]).  So whenever one of these three calls is made in
    a run and raises, the failure is not swallowed: the run ends in the
    general failure handler, which re-raises, and the recording is left
    [failed] with the error text stored and its retry count incremented
    by one; it does not end [completed]. *)
Theorem side_channel_failure_fails_the_run env rid w recording svc e :
  row w rid = Some recording ->
  side_channel_outcome env svc = Some (Raise e) ->
  In (EvCall svc)
     (skipn (List.length (log w)) (log (fst (process_recording env rid w)))) ->
  exists e' r',
    snd (process_recording env rid w) = Raise e'
    /\ row (fst (process_recording env rid w)) rid = Some r'
    /\ DBRecording.status r' = FAILED
    /\ DBRecording.status r' <> COMPLETED
    /\ DBRecording.retry_count r' = (DBRecording.retry_count recording + 1)%Z
    /\ DBRecording.error_message r' = Some (stored_error env e').
Proof.
  intros Hrow Hout Hin.
  destruct (process_recording env rid w) as [w' [[]|e']] eqn:Hrun.
  - exfalso. simpl in Hin.
    destruct (@process_recording_run_ok _ env rid w w' recording Hrow Hrun)
      as [_ [new [Hl [_ HQ]]]].
    rewrite (@skipn_log_app w (log w') new Hl) in Hin.
    rewrite Forall_forall in HQ. specialize (HQ _ Hin).
    destruct svc; simpl in *; try discriminate.
    + destruct HQ as [o Ho]. rewrite Ho in Hout. discriminate.
    + rewrite HQ in Hout. discriminate.
    + rewrite HQ in Hout. discriminate.
  - destruct (@failed_run_row env rid w recording w' e' Hrow Hrun) as [r' [H1 [H2 [H3 H4]]]].
    exists e', r'. simpl. repeat split; auto. rewrite H2. discriminate.
Qed.

End FailureHandling.

Section TranscriptionFailure.
Context {L : PyLib}.

Lemma call_at {A} svc (o : result A) w :
  call svc o w = (add_log w (EvCall svc), o).
Proof. reflexivity. Qed.

Lemma row_written w rid f r :
  row w rid = Some r ->
  (forall x, DBRecording.id (f x) = DBRecording.id x) ->
  row (fst (update_recording rid f w)) rid = Some (f r).
Proof.
  intros Hr Hf. rewrite (@row_update_recording w rid f Hf). now rewrite Hr.
Qed.

(** On a stored recording, [update_status] writes the status and the
    trace gets it. *)
Lemma update_status_at env rid s w r :
  row w rid = Some r ->
  update_status env rid s w
  = (add_log
       (fst (update_recording rid
               (fun x => DBRecording.with_status x s (utcnow env)) w))
       (EvStatus rid s),
     Ok tt).
Proof.
  intros Hr. unfold update_status. unfold bind at 1.
  cbn [update_recording modify fst].
  exact (@trace_status_row rid _ _
           (@row_written w rid
              (fun x => DBRecording.with_status x s (utcnow env)) r Hr
              (fun _ => eq_refl))).
Qed.

(** C4 (amended): if the download and the upload succeed and the
    transcription fails, the run re-raises the transcription error and the
    recording afterwards holds the public video reference of this run's
    upload, has status [failed], stores the truncated error text, has its
    retry count incremented by exactly one, and its transcript is what it
    was at entry (absent on a first run).  No later stage runs: after the
    transcription call only the error notification and the removal of the
    local file are invoked. *)
Theorem transcription_failure_state env rid w recording file url e :
  row w rid = Some recording ->
  download_recording env = Ok file ->
  upload_video env = Ok url ->
  transcribe env = Raise e ->
  snd (process_recording env rid w) = Raise e
  /\ (exists r',
        row (fst (process_recording env rid w)) rid = Some r'
        /\ DBRecording.youtube_url r' = Some url
        /\ DBRecording.transcript r' = DBRecording.transcript recording
        /\ DBRecording.status r' = FAILED
        /\ DBRecording.error_message r' = Some (stored_error env e)
        /\ DBRecording.retry_count r'
           = (DBRecording.retry_count recording + 1)%Z)
  /\ skipn (List.length (log w)) (log (fst (process_recording env rid w)))
     = [EvStart rid; EvStatus rid DOWNLOADING; EvCall SvcDownload;
        EvStatus rid UPLOADING_YOUTUBE; EvCall SvcUpload;
        EvStatus rid TRANSCRIBING; EvCall SvcTranscribe;
        EvStatus rid FAILED; EvCall SvcNotifyError]
       ++ (if downloaded_file_exists env then [EvCall SvcCleanupFile]
           else []).
Proof.
  intros Hrow Hd Hu Ht. pose proof (row_id _ _ Hrow) as Hid.
  set (now := utcnow env).
  set (w0 := add_log w (EvStart rid)).
  (* step 1: download *)
  set (r1 := DBRecording.with_status recording DOWNLOADING now).
  set (w1 := add_log
               (fst (update_recording rid
                       (fun x => DBRecording.with_status x DOWNLOADING now)
                       w0))
               (EvStatus rid DOWNLOADING)).
  assert (E1 : update_status env rid DOWNLOADING w0 = (w1, Ok tt))
    by exact (@update_status_at env rid DOWNLOADING w0 recording Hrow).
  assert (R1 : row w1 rid = Some r1)
    by exact (@row_written w0 rid
                (fun x => DBRecording.with_status x DOWNLOADING now)
                recording Hrow (fun _ => eq_refl)).
  set (w2 := add_log w1 (EvCall SvcDownload)).
  assert (S1 : try_except
                 (update_status env rid DOWNLOADING ;;
                  call SvcDownload (download_recording env))
                 (on_failure env rid None) w0
               = (w2, Ok file)).
  { unfold try_except, bind. rewrite E1, call_at, Hd. reflexivity. }
  (* steps 2 and 3: upload, then the failing transcription *)
  set (r2 := DBRecording.with_status r1 UPLOADING_YOUTUBE now).
  set (w3 := add_log
               (fst (update_recording rid
                       (fun x => DBRecording.with_status x UPLOADING_YOUTUBE
                                                        now)
                       w2))
               (EvStatus rid UPLOADING_YOUTUBE)).
  assert (E2 : update_status env rid UPLOADING_YOUTUBE w2 = (w3, Ok tt))
    by exact (@update_status_at env rid UPLOADING_YOUTUBE w2 r1 R1).
  assert (R2 : row w3 rid = Some r2)
    by exact (@row_written w2 rid
                (fun x => DBRecording.with_status x UPLOADING_YOUTUBE now)
                r1 R1 (fun _ => eq_refl)).
  set (r3 := DBRecording.with_youtube_url r2 url).
  set (w4 := fst (update_recording rid
                    (fun x => DBRecording.with_youtube_url x url)
                    (add_log w3 (EvCall SvcUpload)))).
  assert (R3 : row w4 rid = Some r3)
    by exact (@row_written (add_log w3 (EvCall SvcUpload)) rid
                (fun x => DBRecording.with_youtube_url x url) r2 R2
                (fun _ => eq_refl)).
  set (r4 := DBRecording.with_status r3 TRANSCRIBING now).
  set (w5 := add_log
               (fst (update_recording rid
                       (fun x => DBRecording.with_status x TRANSCRIBING now)
                       w4))
               (EvStatus rid TRANSCRIBING)).
  assert (E3 : update_status env rid TRANSCRIBING w4 = (w5, Ok tt))
    by exact (@update_status_at env rid TRANSCRIBING w4 r3 R3).
  assert (R4 : row w5 rid = Some r4)
    by exact (@row_written w4 rid
                (fun x => DBRecording.with_status x TRANSCRIBING now)
                r3 R3 (fun _ => eq_refl)).
  set (w6 := add_log w5 (EvCall SvcTranscribe)).
  assert (ST : stages_after_download env recording file w2
               = (w6, Raise e)).
  { unfold stages_after_download. rewrite Hid. cbv zeta.
    unfold bind at 1. rewrite E2.
    unfold bind at 1. rewrite call_at, Hu.
    unfold bind at 1. cbn [update_recording modify].
    unfold bind at 1.
    change (set_recordings (add_log w3 (EvCall SvcUpload))
              (List.map
                 (fun r => if (DBRecording.id r =? rid)%Z
                           then DBRecording.with_youtube_url r url else r)
                 (recordings (add_log w3 (EvCall SvcUpload)))))
      with w4.
    rewrite E3.
    unfold bind at 1. rewrite call_at, Ht. reflexivity. }
  (* the failure handler *)
  set (r5 := DBRecording.with_failure r4 (stored_error env e)).
  set (w7 := fst (update_recording rid
                    (fun x => DBRecording.with_failure x (stored_error env e))
                    w6)).
  assert (R5 : row w7 rid = Some r5)
    by exact (@row_written w6 rid
                (fun x => DBRecording.with_failure x (stored_error env e))
                r4 R4 (fun _ => eq_refl)).
  set (w8 := add_log (add_log w7 (EvStatus rid FAILED))
                     (EvCall SvcNotifyError)).
  assert (F : on_failure (A := unit) env rid (Some file) e w6
              = (if downloaded_file_exists env
                 then add_log w8 (EvCall SvcCleanupFile) else w8,
                 Raise e)).
  { unfold on_failure. unfold bind at 1. cbn [update_recording modify].
    unfold bind at 1.
    change (set_recordings w6
              (List.map
                 (fun r => if (DBRecording.id r =? rid)%Z
                           then DBRecording.with_failure r
                                  (slice_to 2000
                                     (exn_text e ++ [newline]
                                      ++ format_exc env e))
                           else r)
                 (recordings w6)))
      with w7.
    rewrite (@trace_status_row rid w7 r5 R5).
    unfold bind, try_except. rewrite call_at.
    destruct (send_processing_error env) as [[]|e1];
      destruct (downloaded_file_exists env); reflexivity. }
  assert (RUN : process_recording env rid w
                = (if downloaded_file_exists env
                   then add_log w8 (EvCall SvcCleanupFile) else w8,
                   Raise e)).
  { rewrite (process_recording_enter env rid w Hrow). fold w0.
    unfold bind at 1. rewrite S1.
    unfold try_except at 1. rewrite ST. exact F. }
  rewrite RUN. cbn [fst snd].
  split; [reflexivity|]. split.
  - exists r5. split.
    + destruct (downloaded_file_exists env); exact R5.
    + subst r5 r4 r3 r2 r1. simpl. auto.
  - apply skipn_log_app.
    destruct (downloaded_file_exists env); subst w8 w7 w6 w5 w4 w3 w2 w1 w0;
      cbn [log add_log set_recordings update_recording modify fst];
      now rewrite <- ?app_assoc.
Qed.

End TranscriptionFailure.

(** ** Ingestion *)

Section Ingestion.

Lemma eqb_eq (a b : str) : eqb a b = true <-> a = b.
Proof.
  revert b. induction a as [|x a IH]; intros [|y b]; simpl;
    try (split; [discriminate | congruence]); [tauto|].
  rewrite andb_true_iff, N.eqb_eq, IH. split.
  - intros [-> ->]. reflexivity.
  - intros H. inversion H. auto.
Qed.

Lemma eqb_refl (a : str) : eqb a a = true.
Proof. now apply eqb_eq. Qed.

Lemma mem_In (x : str) (l : list str) : mem x l = true <-> In x l.
Proof.
  induction l as [|y l IH]; simpl; [split; [discriminate | tauto]|].
  rewrite orb_true_iff, eqb_eq, IH. intuition.
Qed.

Lemma filter_length_one {A} (p : A -> bool) (l : list A) :
  List.length (filter p l) = 1%nat -> exists r, filter p l = [r].
Proof.
  destruct (filter p l) as [|r [|r' t]]; simpl; try discriminate.
  intros _. now exists r.
Qed.

Lemma handle_existing now payload w r :
  filter (fun r => eqb (DBRecording.zoom_meeting_uuid r)
                       (ZoomWebhookPayload.meeting_uuid payload))
         (recordings w) = [r] ->
  handle_recording_completed now payload w = (w, Ok None).
Proof.
  intros H. unfold handle_recording_completed.
  destruct (ZoomWebhookPayload.get_mp4_file payload); [|reflexivity].
  unfold bind, get_world, lift. now rewrite H.
Qed.

(** C2: when two completion events carry the same occurrence id, the
    first of them is one the handler ingests (it contains an MP4 file;
    an event without a video file is ignored by design) and the store
    holds at most one recording with that id, as the unique index on the
    occurrence id guarantees, then after the first call the store holds
    exactly one recording with the id, and the second call is a no-op: it
    creates no record, returns nothing and leaves the whole store, the
    existing record and the task queue included, as it was. *)
Theorem duplicate_completion_event_is_noop now1 now2 p1 p2 w :
  ZoomWebhookPayload.meeting_uuid p1 = ZoomWebhookPayload.meeting_uuid p2 ->
  ZoomWebhookPayload.get_mp4_file p1 <> None ->
  (count_uuid w (ZoomWebhookPayload.meeting_uuid p1) <= 1)%nat ->
  let first := handle_recording_completed now1 p1 w in
  let second := handle_recording_completed now2 p2 (fst first) in
  count_uuid (fst first) (ZoomWebhookPayload.meeting_uuid p1) = 1%nat
  /\ second = (fst first, Ok None)
  /\ recordings (fst second) = recordings (fst first)
  /\ tasks (fst second) = tasks (fst first).
Proof.
  intros Huuid Hmp4 Hcount first second.
  assert (H1 : count_uuid (fst first) (ZoomWebhookPayload.meeting_uuid p1)
               = 1%nat).
  { subst first. unfold handle_recording_completed.
    destruct (ZoomWebhookPayload.get_mp4_file p1) as [mp4|]; [|congruence].
    unfold count_uuid in *. unfold bind, get_world, lift.
    destruct (filter _ (recordings w)) as [|r [|r' t]] eqn:Hf;
      simpl in Hcount; try lia.
    - simpl. rewrite filter_app, Hf. simpl. now rewrite eqb_refl.
    - simpl. now rewrite Hf. }
  assert (H2 : second = (fst first, Ok None)).
  { subst second. unfold count_uuid in H1.
    destruct (filter_length_one _ _ H1) as [r Hr].
    apply handle_existing with (r := r). now rewrite <- Huuid. }
  repeat split; auto; now rewrite H2.
Qed.

(** A recording created by the completion handler is [pending], and its
    processing is queued. *)
Lemma ingestion_leaves_pending now payload w w' r :
  handle_recording_completed now payload w = (w', Ok (Some r)) ->
  DBRecording.status r = PENDING
  /\ DBRecording.retry_count r = 0%Z
  /\ recordings w' = recordings w ++ [r]
  /\ tasks w' = tasks w ++ [DBRecording.id r].
Proof.
  unfold handle_recording_completed.
  destruct (ZoomWebhookPayload.get_mp4_file payload) as [mp4|];
    [|discriminate].
  unfold bind, get_world, lift, modify, ret.
  destruct (scalar_one_or_none _) as [[existing|]|e]; try discriminate.
  intros H. inversion H; subst. repeat split.
Qed.


End Ingestion.

(** ** The resolver *)

Section Resolver.
Context {L : PyLib}.




Lemma filter_name_none name cs :
  ~ In name (List.map DBClient.name cs) ->
  filter (fun c => eqb (DBClient.name c) name) cs = [].
Proof.
  induction cs as [|x cs IH]; simpl; intros H; [reflexivity|].
  destruct (eqb (DBClient.name x) name) eqn:E.
  - apply eqb_eq in E. tauto.
  - apply IH. tauto.
Qed.

Lemma filter_name_unique c cs :
  NoDup (List.map DBClient.name cs) -> In c cs ->
  filter (fun x => eqb (DBClient.name x) (DBClient.name c)) cs = [c].
Proof.
  induction cs as [|x cs IH]; simpl; intros Hnd Hin; [contradiction|].
  inversion Hnd as [|? ? Hx Hnd']; subst.
  destruct Hin as [->|Hin].
  - rewrite eqb_refl. f_equal. now apply filter_name_none.
  - destruct (eqb (DBClient.name x) (DBClient.name c)) eqn:E.
    + apply eqb_eq in E. exfalso. apply Hx. rewrite E. now apply in_map.
    + now apply IH.
Qed.




Lemma NoDup_map_inj {A B} (f : A -> B) (l : list A) a b :
  NoDup (List.map f l) -> In a l -> In b l -> f a = f b -> a = b.
Proof.
  induction l as [|x l IH]; simpl; intros Hnd Ha Hb E; [contradiction|].
  inversion Hnd as [|? ? Hx Hnd']; subst.
  destruct Ha as [->|Ha], Hb as [->|Hb]; auto.
  - exfalso. apply Hx. rewrite E. now apply in_map.
  - exfalso. apply Hx. rewrite <- E. now apply in_map.
Qed.

Lemma names_replaced c c' cs :
  NoDup (List.map DBClient.id cs) -> In c cs ->
  DBClient.id c' = DBClient.id c -> DBClient.name c' = DBClient.name c ->
  List.map DBClient.name (replaced c' cs) = List.map DBClient.name cs
  /\ List.map DBClient.id (replaced c' cs) = List.map DBClient.id cs.
Proof.
  intros Hnd Hin Hid Hname. unfold replaced. rewrite !map_map.
  split; apply map_ext_in; intros r Hr;
    destruct (Z.eqb_spec (DBClient.id r) (DBClient.id c')) as [E|E]; auto.
  rewrite Hname. f_equal.
  apply (NoDup_map_inj DBClient.id cs); auto. congruence.
Qed.



Lemma add_meeting_id_held c zid w :
  holds_id zid c -> _add_meeting_id_to_client c zid w = (w, Ok c).
Proof.
  intros [ids [Hg Hm]].
  unfold _add_meeting_id_to_client, bind, lift, ret. now rewrite Hg, Hm.
Qed.

Lemma get_or_create_existing name zid w c :
  NoDup (client_names w) -> In c (clients w) -> DBClient.name c = name ->
  _get_or_create_client name zid w = _add_meeting_id_to_client c zid w.
Proof.
  intros Hnd Hin <-.
  unfold _get_or_create_client, bind at 1, get_world.
  rewrite (@filter_name_unique c (clients w) Hnd Hin). reflexivity.
Qed.

Lemma get_or_create_new name zid w :
  ~ In name (client_names w) ->
  _get_or_create_client name zid w
  = (mkWorld (recordings w)
             (clients w ++ [new_client (next_client_id w) name zid])
             (next_recording_id w) (next_client_id w + 1) (tasks w) (log w),
     Ok (new_client (next_client_id w) name zid)).
Proof.
  intros Hn. unfold _get_or_create_client, bind at 1, get_world.
  rewrite (@filter_name_none name (clients w) Hn). reflexivity.
Qed.


Lemma in_names name cs :
  In name (List.map DBClient.name cs) ->
  exists c, In c cs /\ DBClient.name c = name.
Proof.
  intros H. apply in_map_iff in H. destruct H as [c [E Hc]]. eauto.
Qed.

(** Get-or-create keeps the constraints of the accounts table, whatever
    the name and whether or not it finds, creates or fails. *)
Lemma get_or_create_keeps_wf name zid w :
  clients_wf w -> clients_wf (fst (_get_or_create_client name zid w)).
Proof.
  intros [Hn [Hp Hb]].
  destruct (in_dec (list_eq_dec N.eq_dec) name (client_names w)) as [Hin|Hni].
  - destruct (@in_names name (clients w) Hin) as [c [Hc Hname]].
    rewrite (@get_or_create_existing name zid w c Hn Hc Hname).
    unfold _add_meeting_id_to_client, bind, lift, store_client, modify, ret.
    destruct (get_zoom_meeting_ids c) as [ids|e]; simpl; [|now repeat split].
    destruct (mem zid ids); simpl; [now repeat split|].
    set (c' := set_zoom_meeting_ids c (ids ++ [zid])).
    destruct (@names_replaced c c' (clients w) Hp Hc eq_refl eq_refl)
      as [En Ei].
    change (clients_wf (set_clients w (replaced c' (clients w)))).
    unfold clients_wf, client_names.
    cbn [clients set_clients next_client_id]. rewrite En, Ei.
    repeat split; auto.
    intros r Hr. unfold replaced in Hr. apply in_map_iff in Hr.
    destruct Hr as [x [Hx Hxin]].
    destruct (DBClient.id x =? DBClient.id c')%Z; subst r.
    + exact (Hb c Hc).
    + now apply Hb.
  - rewrite (@get_or_create_new name zid w Hni).
    unfold clients_wf, client_names. simpl. rewrite !map_app. simpl.
    repeat split.
    + apply NoDup_app; repeat split; auto.
      * constructor; [tauto | constructor].
      * intros x Hx [<-|[]]. now apply Hni.
    + apply NoDup_app; repeat split; auto.
      * constructor; [tauto | constructor].
      * intros x Hx [<-|[]]. apply in_map_iff in Hx.
        destruct Hx as [c [E Hc]]. specialize (Hb c Hc). lia.
    + intros c Hc. apply in_app_or in Hc. destruct Hc as [Hc|[<-|[]]].
      * specialize (Hb c Hc). lia.
      * simpl. lia.
Qed.



Lemma match_patterns_in cs title_lower c :
  match_patterns_loop cs title_lower = Ok (Some c) -> In c cs.
Proof.
  induction cs as [|x cs IH]; simpl; [discriminate|].
  destruct (get_title_patterns x); [|discriminate].
  destruct (any_pattern_in _ _); [intros H; inversion H; now left|].
  destruct (contains _ _); [intros H; inversion H; now left|].
  intros H. right. now apply IH.
Qed.





End Resolver.

(** ** The cumulative-summary aggregator *)


Section Rollup.
Context {L : PyLib}.

Lemma insert_perm r l : Permutation (insert_by_start_time r l) (r :: l).
Proof.
  induction l as [|x l IH]; simpl; [reflexivity|].
  destruct (DBRecording.start_time r <=? DBRecording.start_time x)%Z.
  - reflexivity.
  - rewrite IH. apply perm_swap.
Qed.

Lemma order_by_perm l : Permutation (order_by_start_time l) l.
Proof.
  induction l as [|x l IH]; simpl; [reflexivity|].
  rewrite insert_perm. now constructor.
Qed.

Lemma insert_sorted r l :
  StronglySorted starts_before l ->
  StronglySorted starts_before (insert_by_start_time r l).
Proof.
  induction 1 as [|x l Hs IH Hx]; simpl.
  - repeat constructor.
  - destruct (Z.leb_spec (DBRecording.start_time r) (DBRecording.start_time x))
      as [Hle|Hgt].
    + constructor; [now constructor|].
      constructor; [exact Hle|].
      eapply Forall_impl; [|exact Hx]. unfold starts_before. intros; lia.
    + constructor; [exact IH|].
      eapply Permutation_Forall; [symmetry; apply insert_perm|].
      constructor; [unfold starts_before; lia | exact Hx].
Qed.

Lemma order_by_sorted l : StronglySorted starts_before (order_by_start_time l).
Proof.
  induction l as [|x l IH]; simpl; [constructor | now apply insert_sorted].
Qed.

Lemma last_in {A} (l : list A) (d : A) : l <> [] -> In (last l d) l.
Proof.
  induction l as [|x [|y l] IH]; intros H; [congruence | now left |].
  right. apply IH. discriminate.
Qed.

Lemma sorted_last_max l d m :
  StronglySorted starts_before l -> In m l -> starts_before m (last l d).
Proof.
  induction 1 as [|x l Hs IH Hx]; intros Hin; [contradiction|].
  destruct l as [|y l].
  - destruct Hin as [<-|[]]. unfold starts_before. simpl. lia.
  - change (last (x :: y :: l) d) with (last (y :: l) d).
    destruct Hin as [<-|Hin]; [|now apply IH].
    rewrite Forall_forall in Hx. apply Hx. apply last_in. discriminate.
Qed.

Lemma find_client_replaced cid c c' cs :
  find (fun r => (DBClient.id r =? cid)%Z) cs = Some c ->
  DBClient.id c' = cid ->
  find (fun r => (DBClient.id r =? cid)%Z) (replaced c' cs) = Some c'.
Proof.
  intros Hf Hid. induction cs as [|x cs IH]; simpl in *; [discriminate|].
  subst cid.
  destruct (Z.eqb_spec (DBClient.id x) (DBClient.id c')) as [E|E].
  - simpl. now rewrite Z.eqb_refl.
  - simpl. destruct (Z.eqb_spec (DBClient.id x) (DBClient.id c')); [tauto|].
    now apply IH.
Qed.

Lemma rollup_selects_spec cid r :
  rollup_selects cid r = true <->
  DBRecording.client_id r = Some cid /\ DBRecording.summary r <> None.
Proof.
  unfold rollup_selects. rewrite andb_true_iff.
  destruct (DBRecording.client_id r) as [c|];
    destruct (DBRecording.summary r) as [s|]; simpl;
    rewrite ?Z.eqb_eq; split; intros [H1 H2]; try discriminate;
    try congruence; split; congruence.
Qed.

(** C8 (amended): the refresh reads the recordings of the account whose
    summary is present (not null; an empty string counts as present),
    ordered by start time ascending.  If there is none it returns the
    empty string and leaves the store as it is.  Otherwise the dated
    summaries of exactly those recordings, in that order, are the input
    of one generation request and, when the request returns a text, the
    account afterwards stores that text as its cumulative summary, its
    meeting count is the number of those recordings and its last-meeting
    timestamp is the latest of their start times. *)
Theorem rollup_refresh env cid w client :
  client_row w cid = Some client ->
  (forall r, rollup_selects cid r = true <->
             DBRecording.client_id r = Some cid
             /\ DBRecording.summary r <> None)
  /\ Permutation (summarized_meetings w cid)
                 (filter (rollup_selects cid) (recordings w))
  /\ StronglySorted starts_before (summarized_meetings w cid)
  /\ (summarized_meetings w cid = [] ->
      update_client_summary env cid w = (w, Ok []))
  /\ (summarized_meetings w cid <> [] ->
      forall text,
        generate_cumulative_summary
          env (List.map meeting_summary_entry (summarized_meetings w cid))
        = Ok text ->
        exists c' latest,
          snd (update_client_summary env cid w) = Ok text
          /\ log (fst (update_client_summary env cid w))
             = log w ++ [EvCumulative
                           (List.map meeting_summary_entry
                                     (summarized_meetings w cid))]
          /\ recordings (fst (update_client_summary env cid w))
             = recordings w
          /\ client_row (fst (update_client_summary env cid w)) cid = Some c'
          /\ DBClient.cumulative_summary c' = Some text
          /\ DBClient.meeting_count c'
             = Z.of_nat (List.length (summarized_meetings w cid))
          /\ DBClient.last_meeting_at c' = Some latest
          /\ (forall m, In m (summarized_meetings w cid) ->
                        (DBRecording.start_time m <= latest)%Z)
          /\ (exists m, In m (summarized_meetings w cid)
                        /\ DBRecording.start_time m = latest)).
Proof.
  intros Hc.
  split; [apply rollup_selects_spec|].
  split; [apply order_by_perm|].
  split; [apply order_by_sorted|].
  assert (Hid : DBClient.id client = cid).
  { unfold client_row in Hc. apply find_some in Hc. destruct Hc as [_ H].
    now apply Z.eqb_eq in H. }
  split.
  - intros Hnil. unfold update_client_summary, select_client, bind, get_world,
                   ret.
    fold (client_row w cid). rewrite Hc, Hnil. reflexivity.
  - intros Hne text Hgen.
    destruct (summarized_meetings w cid) as [|m0 ms] eqn:Hm; [congruence|].
    exists (DBClient.with_rollup client text
              (Z.of_nat (List.length (m0 :: ms)))
              (DBRecording.start_time (last (m0 :: ms) m0))),
           (DBRecording.start_time (last (m0 :: ms) m0)).
    unfold update_client_summary, select_client, bind, get_world, ret, emit,
      modify, lift, store_client.
    fold (client_row w cid). rewrite Hc, Hm.
    cbn [fst snd log add_log recordings clients set_clients].
    rewrite Hgen. cbn [fst snd log add_log recordings clients set_clients].
    repeat split.
    + unfold client_row. cbn [clients set_clients add_log].
      apply (@find_client_replaced cid client); [exact Hc | exact Hid].
    + intros m Hin.
      apply (@sorted_last_max (m0 :: ms) m0 m); [|exact Hin].
      rewrite <- Hm. apply order_by_sorted.
    + exists (last (m0 :: ms) m0). split; [|reflexivity].
      apply last_in. discriminate.
Qed.

End Rollup.

(** ** The example codec reads back what it writes *)

Module ExampleLibFacts.
Import ExampleLib.








End ExampleLibFacts.

(** ** Concrete runs *)

Module Runs.
Import Example.

#[local] Existing Instance ExampleLib.lib.

Lemma successful_run_status_sequence_witness :
  observed_statuses ingested (fst first_run) 1
  = [PENDING; DOWNLOADING; UPLOADING_YOUTUBE; TRANSCRIBING; SUMMARIZING;
     SAVING; COMPLETED]
  /\ option_map DBRecording.status (row (fst first_run) 1) = Some COMPLETED
  /\ List.map status_name (observed_statuses ingested (fst first_run) 1)
     = ["PENDING"; "DOWNLOADING"; "UPLOADING_YOUTUBE"; "TRANSCRIBING";
        "SUMMARIZING"; "SAVING"; "COMPLETED"]%string
  /\ List.map status_value (observed_statuses ingested (fst first_run) 1)
     = ["pending"; "downloading"; "uploading_youtube"; "transcribing";
        "summarizing"; "saving"; "completed"]%string.
Proof.
  destruct (@successful_run_status_sequence ExampleLib.lib env_ok 1 ingested
              (fst first_run)
              (new_recording 1 acme_payload mp4 1709254800))
    as [H1 [H2 H3]].
  - vm_compute. reflexivity.
  - vm_compute. reflexivity.
  - split; [exact H1|]. split; [exact H2|]. apply H3. reflexivity.
Defined.

(** C1 (counterexample): the recording ingested from the completion event
    is processed successfully, and the tokens its row passes through are
    not the state names of the specification, neither as the column
    stores them (the member names, [UPLOADING_YOUTUBE] for the second
    stage) nor as the routes report them (the member values,
    [uploading_youtube] for the second stage); no member is called
    [uploading_video]. *)
Lemma status_tokens_differ_from_spec_names :
  snd first_run = Ok tt
  /\ List.map status_name (observed_statuses ingested (fst first_run) 1)
     = ["PENDING"; "DOWNLOADING"; "UPLOADING_YOUTUBE"; "TRANSCRIBING";
        "SUMMARIZING"; "SAVING"; "COMPLETED"]%string
  /\ List.map status_name (observed_statuses ingested (fst first_run) 1)
     <> spec_state_names
  /\ List.map status_value (observed_statuses ingested (fst first_run) 1)
     <> spec_state_names
  /\ (forall s, status_name s <> "uploading_video"%string
                /\ status_value s <> "uploading_video"%string).
Proof.
  split; [vm_compute; reflexivity|].
  split; [vm_compute; reflexivity|].
  split; [vm_compute; intro H; discriminate H|].
  split; [vm_compute; intro H; discriminate H|].
  intros s. destruct s; split; discriminate.
Qed.


  (** A run that the sweep starts on a recording left [failed] by an earlier
    attempt is seen from [failed], not from [pending]. *)
Lemma swept_run_is_seen_from_failed :
  let retried :=
    retry_failed_recordings (fun _ => env_ok) after_summary_failure in
  snd retried = Ok tt
  /\ observed_statuses after_summary_failure (fst retried) 1
     = [FAILED; DOWNLOADING; UPLOADING_YOUTUBE; TRANSCRIBING; SUMMARIZING;
        SAVING; COMPLETED].
Proof. split; vm_compute; reflexivity. Qed.

(** With every stage up to saving successful, a calendar lookup that
    raises leaves the recording [failed], and so does a completion
    notification that raises. *)
Lemma side_channel_failures_escalate :
  find_event_by_zoom_meeting env_calendar_fails = Raise api_error
  /\ snd calendar_run = Raise api_error
  /\ option_map DBRecording.status (row (fst calendar_run) 1) = Some FAILED
  /\ send_processing_complete env_notice_fails = Raise api_error
  /\ snd notice_run = Raise api_error
  /\ option_map DBRecording.status (row (fst notice_run) 1) = Some FAILED.
Proof. repeat split; vm_compute; reflexivity. Qed.

Lemma side_channel_failure_fails_the_run_witness :
  exists e' r',
    snd calendar_run = Raise e'
    /\ row (fst calendar_run) 1 = Some r'
    /\ DBRecording.status r' = FAILED
    /\ DBRecording.status r' <> COMPLETED
    /\ DBRecording.retry_count r' = 1%Z
    /\ DBRecording.error_message r' = Some (stored_error env_calendar_fails e').
Proof.
  apply (@side_channel_failure_fails_the_run ExampleLib.lib
           env_calendar_fails 1 ingested
           (new_recording 1 acme_payload mp4 1709254800)
           SvcFindCalendarEvent api_error).
  - vm_compute. reflexivity.
  - vm_compute. reflexivity.
  - vm_compute. tauto.
Defined.

Lemma transcription_failure_state_witness :
  snd transcribe_run = Raise api_error
  /\ (exists r',
        row (fst transcribe_run) 1 = Some r'
        /\ DBRecording.youtube_url r'
           = Some (py "https://www.youtube.com/watch?v=abc")
        /\ DBRecording.transcript r' = None
        /\ DBRecording.status r' = FAILED
        /\ DBRecording.error_message r'
           = Some (stored_error env_transcribe_fails api_error)
        /\ DBRecording.retry_count r' = 1%Z)
  /\ skipn (List.length (log ingested)) (log (fst transcribe_run))
     = [EvStart 1; EvStatus 1 DOWNLOADING; EvCall SvcDownload;
        EvStatus 1 UPLOADING_YOUTUBE; EvCall SvcUpload;
        EvStatus 1 TRANSCRIBING; EvCall SvcTranscribe;
        EvStatus 1 FAILED; EvCall SvcNotifyError; EvCall SvcCleanupFile].
Proof.
  apply (@transcription_failure_state ExampleLib.lib env_transcribe_fails 1
           ingested (new_recording 1 acme_payload mp4 1709254800)
           (py "downloads/111_20240301_010000.mp4")
           (py "https://www.youtube.com/watch?v=abc") api_error).
  - vm_compute. reflexivity.
  - reflexivity.
  - reflexivity.
  - reflexivity.
Defined.

 (** C4 (counterexample): when the failing run is a retry of a recording
    whose earlier attempt got past transcription, the recording still has
    its earlier transcript after the transcription failure. *)
Lemma retried_recording_keeps_earlier_transcript :
  transcribe env_transcribe_fails = Raise api_error
  /\ started (skipn (List.length (log after_summary_failure))
                    (log (fst swept))) = [1%Z]
  /\ option_map DBRecording.status (row (fst swept) 1) = Some FAILED
  /\ option_map DBRecording.retry_count (row (fst swept) 1) = Some 2%Z
  /\ option_map DBRecording.transcript (row (fst swept) 1)
     = Some (Some (py "transcript"))
  /\ option_map DBRecording.transcript (row (fst swept) 1) <> Some None
  /\ skipn (List.length (log after_summary_failure)) (log (fst swept))
     = [EvStart 1; EvStatus 1 DOWNLOADING; EvCall SvcDownload;
        EvStatus 1 UPLOADING_YOUTUBE; EvCall SvcUpload;
        EvStatus 1 TRANSCRIBING; EvCall SvcTranscribe;
        EvStatus 1 FAILED; EvCall SvcNotifyError; EvCall SvcCleanupFile].
Proof.
  split; [reflexivity|].
  split; [vm_compute; reflexivity|].
  split; [vm_compute; reflexivity|].
  split; [vm_compute; reflexivity|].
  split; [vm_compute; reflexivity|].
  split; [vm_compute; intro H; discriminate H|].
  vm_compute. reflexivity.
Qed.

End Runs.

(** ** Concrete stores *)

Module Stores.
Import Example.

#[local] Existing Instance ExampleLib.lib.

Lemma duplicate_completion_event_is_noop_witness :
  count_uuid (fst first_event) (py "uuid-1") = 1%nat
  /\ second_event = (fst first_event, Ok None)
  /\ recordings (fst second_event) = recordings (fst first_event)
  /\ tasks (fst second_event) = tasks (fst first_event).
Proof.
  apply (@duplicate_completion_event_is_noop 1709254800 1709254900
           acme_payload acme_payload empty_world).
  - reflexivity.
  - vm_compute. discriminate.
  - vm_compute. lia.
Defined.

(** A completion event without a video file is ignored: nothing is
    stored and nothing is queued. *)
Lemma audio_only_event_is_ignored :
  handle_recording_completed 1709254800 audio_only_payload empty_world
  = (empty_world, Ok None).
Proof. vm_compute. reflexivity. Qed.







(** The f-string that builds the learned-id column of a new account does
    not escape its argument: with a quotation mark in the stable meeting
    id the stored text is not JSON, and the next lookup raises. *)
Lemma quoted_meeting_id_breaks_lookup :
  let run := identify_client env_ok acme_title quoted_id None None
                             empty_world in
  option_map DBClient.zoom_meeting_ids
             (match snd run with Ok o => o | Raise _ => None end)
  = Some (Some (fstring_json_list quoted_id))
  /\ json_loads (fstring_json_list quoted_id) = None
  /\ snd (identify_client env_ok acme_title quoted_id None None (fst run))
     = Raise json_decode_error.
Proof. repeat split; vm_compute; reflexivity. Qed.

Lemma rollup_refresh_witness :
  List.map meeting_summary_entry (summarized_meetings three_meetings 1)
  = [(py "2024-01-10", py "first"); (py "2024-02-14", py "second");
     (py "2024-03-01", py "third")]
  /\ exists c',
       client_row (fst rollup_run) 1 = Some c'
       /\ DBClient.cumulative_summary c' = Some (py "rollup")
       /\ DBClient.meeting_count c' = 3%Z
       /\ DBClient.last_meeting_at c' = Some d_2024_03_01.
Proof.
  split; [vm_compute; reflexivity|].
  destruct (@rollup_refresh ExampleLib.lib env_ok 1 three_meetings
              (account 1 (py "Acme") (Some [py "111"])))
    as (_ & _ & _ & _ & H).
  - vm_compute. reflexivity.
  - destruct (H ltac:(vm_compute; discriminate) (py "rollup")
                ltac:(vm_compute; reflexivity))
      as (c' & latest & _ & _ & _ & Hrow & Hsum & Hcount & Hlast & _ & Hex).
    exists c'. split; [exact Hrow|]. split; [exact Hsum|].
    split; [exact Hcount|].
    vm_compute in Hrow. inversion Hrow. reflexivity.
Defined.

(** C8 (counterexample): the only recording of the account has the empty
    string as its summary; the refresh nevertheless issues a generation
    request and updates the account. *)
Lemma empty_summary_is_rolled_up :
  List.map DBRecording.summary (recordings empty_summary_store) = [Some []]
  /\ snd (update_client_summary env_ok 1 empty_summary_store)
     = Ok (py "rollup")
  /\ snd (update_client_summary env_ok 1 empty_summary_store) <> Ok []
  /\ option_map DBClient.meeting_count
       (client_row (fst (update_client_summary env_ok 1 empty_summary_store))
                   1)
     = Some 1%Z
  /\ fst (update_client_summary env_ok 1 empty_summary_store)
     <> empty_summary_store.
Proof.
  repeat split; try (vm_compute; reflexivity); vm_compute; discriminate.
Qed.

End Stores.

(* ===================================================================== *)
(** * Part III: further properties of the code                            *)
(* ===================================================================== *)

Import PySeq.

(** ** The retry wrapper: effort, sleeps and edge cases *)

Module RetryEdges.
Import Retry RetrySites.

Lemma py_min_le_r (a b : Q) : (py_min a b <= b)%Q.
Proof. rewrite RetryFacts.py_min_Qmin. apply Q.le_min_r. Qed.

Lemma backoff_length (max base : Q) (n : nat) :
  forall d, List.length (backoff max base n d) = n.
Proof. induction n as [|n IH]; intros d; simpl; [reflexivity | now rewrite IH]. Qed.

Section Wrapper.
Context {S A : Type}.
Variable config : RetryConfig.
Variable func : S -> S * result A.

(** A sleep is always followed by another invocation. *)
Lemma attempts_loop_sleeps :
  forall n a last delay st,
    Z.of_nat (Datatypes.S n) = (cfg_max_attempts config + 1 - a)%Z ->
    (List.length
       (slept (fst (attempts_loop config func
                      (range a (cfg_max_attempts config + 1))
                      last delay st)))
     + calls st + 1
     <= List.length (slept st)
        + calls (fst (attempts_loop config func
                        (range a (cfg_max_attempts config + 1))
                        last delay st)))%nat.
Proof.
  induction n as [|n IH]; intros a last delay st Hn;
    rewrite (RetryFacts.range_cons (lo := a)) by lia;
    cbn [attempts_loop];
    destruct (func (op_state st)) as [s' [v|e]]; cbn [fst slept calls];
    try lia;
    destruct (cfg_exceptions config e); cbn [fst slept calls]; try lia;
    destruct (Z.eqb_spec a (cfg_max_attempts config)) as [E|E];
    cbn [fst slept calls]; try lia.
  specialize (IH (a + 1)%Z (Some e)
                 (py_min (delay * cfg_exponential_base config)
                         (cfg_max_delay config))
                 (mkRun s' (Datatypes.S (calls st)) (slept st ++ [delay]))
                 ltac:(lia)).
  cbn [slept calls] in IH. rewrite length_app in IH. simpl in IH. lia.
Qed.

(** From the second sleep on, every delay has been through the cap. *)
Lemma attempts_loop_capped :
  forall attempts last delay st,
    Forall (fun d => (d <= cfg_max_delay config)%Q) (tl (slept st)) ->
    (slept st = [] \/ (delay <= cfg_max_delay config)%Q) ->
    Forall (fun d => (d <= cfg_max_delay config)%Q)
           (tl (slept (fst (attempts_loop config func attempts last delay
                                          st)))).
Proof.
  induction attempts as [|attempt rest IH]; intros last delay st Hs Hd;
    cbn [attempts_loop].
  - destruct last; exact Hs.
  - destruct (func (op_state st)) as [s' [v|e]]; cbn [fst slept]; auto.
    destruct (cfg_exceptions config e); cbn [fst slept]; auto.
    destruct (attempt =? cfg_max_attempts config)%Z; cbn [fst slept]; auto.
    apply IH; cbn [slept].
    + destruct (slept st) as [|d0 ds]; simpl; [constructor|].
      simpl in Hs. apply Forall_app. split; [exact Hs|].
      destruct Hd as [Hd|Hd]; [discriminate | repeat constructor; exact Hd].
    + right. apply py_min_le_r.
Qed.

(** X1: whatever the wrapped operation does, it is invoked at most
    [max_attempts] times; the wrapper sleeps only between two invocations,
    so there is always at least one sleep less than there are invocations;
    and every sleep after the first is at most [max_delay]. *)
Theorem wrapper_effort_is_bounded :
  forall s,
    (calls (fst (wrapper config func s))
     <= Z.to_nat (cfg_max_attempts config))%nat
    /\ (List.length (slept (fst (wrapper config func s)))
        <= Nat.pred (calls (fst (wrapper config func s))))%nat
    /\ Forall (fun d => (d <= cfg_max_delay config)%Q)
              (tl (slept (fst (wrapper config func s)))).
Proof.
  intros s. split; [apply RetryFacts.wrapper_calls_bound|]. split.
  - unfold wrapper.
    destruct (Z_lt_le_dec 0 (cfg_max_attempts config)) as [Hpos|Hneg].
    + pose proof (@attempts_loop_sleeps
                    (Nat.pred (Z.to_nat (cfg_max_attempts config))) 1 None
                    (cfg_initial_delay config) (mkRun s 0 [])
                    ltac:(lia)) as H.
      cbn [slept calls List.length] in H. lia.
    + unfold range.
      replace (Z.to_nat (cfg_max_attempts config + 1 - 1)) with 0%nat by lia.
      simpl. lia.
  - unfold wrapper. apply attempts_loop_capped; simpl; auto.
Qed.

(** X2: when the first [n] invocations raise exceptions the wrapper
    catches, [n] is below [max_attempts] and the next invocation returns
    [v], the wrapper returns [v]: the operation has been invoked exactly
    [n + 1] times and is not invoked again, and there were [n] sleeps:
    the initial delay, then each time the previous delay times the base,
    cut at [max_delay]. *)
Theorem retry_returns_first_success :
  forall n s s' v,
    (Z.of_nat n < cfg_max_attempts config)%Z ->
    fails config func n s ->
    func (after func n s) = (s', Ok v) ->
    wrapper config func s
    = (mkRun s' (Datatypes.S n)
             (backoff (cfg_max_delay config) (cfg_exponential_base config)
                      n (cfg_initial_delay config)),
       Ok v)
    /\ List.length (slept (fst (wrapper config func s))) = n.
Proof.
  intros n s s' v Hn Hf Hok.
  rewrite (@RetryFacts.wrapper_success _ _ config func n s s' v Hn Hf Hok).
  split; [reflexivity | apply backoff_length].
Qed.

(** X3: when [max_attempts = n + 1] and all [n + 1] invocations raise
    exceptions the wrapper catches, the exception of the last invocation
    is the one re-raised; the operation has been invoked exactly
    [max_attempts] times, with a sleep between any two invocations and
    none after the last. *)
Theorem retry_reraises_last_failure :
  forall n s s' e,
    cfg_max_attempts config = Z.of_nat (Datatypes.S n) ->
    fails config func n s ->
    func (after func n s) = (s', Raise e) ->
    cfg_exceptions config e = true ->
    wrapper config func s
    = (mkRun s' (Datatypes.S n)
             (backoff (cfg_max_delay config) (cfg_exponential_base config)
                      n (cfg_initial_delay config)),
       Raise e)
    /\ List.length (slept (fst (wrapper config func s))) = n.
Proof.
  intros n s s' e HN Hf Hr Hc.
  rewrite (@RetryFacts.wrapper_exhausted _ _ config func n s s' e HN Hf Hr Hc).
  split; [reflexivity | apply backoff_length].
Qed.

(** X4: an exception that is not an instance of the configured
    [exceptions] is not retried: it leaves the wrapper at once, also on
    the first attempt, without a sleep. *)
Theorem uncaught_exception_is_not_retried :
  forall n s s' e,
    (Z.of_nat n < cfg_max_attempts config)%Z ->
    fails config func n s ->
    func (after func n s) = (s', Raise e) ->
    cfg_exceptions config e = false ->
    wrapper config func s
    = (mkRun s' (Datatypes.S n)
             (backoff (cfg_max_delay config) (cfg_exponential_base config)
                      n (cfg_initial_delay config)),
       Raise e).
Proof.
  intros n s s' e Hn Hf Hr Hc. unfold wrapper.
  destruct (@RetryFacts.attempts_loop_skip _ _ config func n 1 None
              (cfg_initial_delay config) (mkRun s 0 []) Hf ltac:(lia))
    as [last' ->].
  rewrite (RetryFacts.range_cons (lo := 1 + Z.of_nat n)) by lia.
  cbn [attempts_loop op_state calls slept Nat.add app].
  now rewrite Hr, Hc.
Qed.

(** X5: with [max_attempts] zero or negative the loop body never runs:
    the operation is not invoked at all, and the statement after the loop
    raises [None], which Python turns into a [TypeError]. *)
Theorem no_attempt_raises_type_error :
  forall s,
    (cfg_max_attempts config <= 0)%Z ->
    wrapper config func s = (mkRun s 0 [], Raise raise_none_error).
Proof.
  intros s H. unfold wrapper, range.
  replace (Z.to_nat (cfg_max_attempts config + 1 - 1)) with 0%nat by lia.
  reflexivity.
Qed.

End Wrapper.

Lemma retry_returns_first_success_witness :
  wrapper default_config (flaky 2 timeout_error 7) 0%nat
  = (mkRun 3%nat 3 [1%Q; 2%Q], Ok 7%nat)
  /\ List.length
       (slept (fst (wrapper default_config (flaky 2 timeout_error 7) 0%nat)))
     = 2%nat.
Proof.
  apply (@retry_returns_first_success nat nat default_config
           (flaky 2 timeout_error 7) 2 0%nat 3%nat 7%nat).
  - reflexivity.
  - simpl. auto.
  - reflexivity.
Defined.

Lemma retry_reraises_last_failure_witness :
  wrapper default_config (flaky 5 timeout_error 7) 0%nat
  = (mkRun 3%nat 3 [1%Q; 2%Q], Raise timeout_error)
  /\ List.length
       (slept (fst (wrapper default_config (flaky 5 timeout_error 7) 0%nat)))
     = 2%nat.
Proof.
  apply (@retry_reraises_last_failure nat nat default_config
           (flaky 5 timeout_error 7) 2 0%nat 3%nat timeout_error).
  - reflexivity.
  - simpl. auto.
  - reflexivity.
  - reflexivity.
Defined.

Lemma uncaught_exception_is_not_retried_witness :
  wrapper retryable_only (flaky 5 timeout_error 7) 0%nat
  = (mkRun 1%nat 1 [], Raise timeout_error).
Proof.
  apply (@uncaught_exception_is_not_retried nat nat retryable_only
           (flaky 5 timeout_error 7) 0 0%nat 1%nat timeout_error).
  - reflexivity.
  - exact I.
  - reflexivity.
  - reflexivity.
Defined.

Lemma no_attempt_raises_type_error_witness :
  wrapper no_attempts (flaky 0 timeout_error 7) 0%nat
  = (mkRun 0%nat 0 [], Raise raise_none_error).
Proof.
  apply (@no_attempt_raises_type_error nat nat no_attempts
           (flaky 0 timeout_error 7) 0%nat).
  vm_compute. discriminate.
Defined.

End RetryEdges.

(** ** The completion notice and its decorator *)

Module NotificationFacts.
Import Retry RetrySites NotificationService.

Section Sending.
Context {S : Type}.
Variable send : list Block -> S -> S * result unit.

(** X6: with notifications disabled (the flag off, or no webhook URL, or
    an empty one) the decorated [send_processing_complete] returns at its
    first attempt without touching the channel and without sleeping,
    whatever the channel would have answered: a disabled notice cannot
    fail. *)
Theorem disabled_notice_cannot_fail :
  forall settings topic youtube_url client_name summary s,
    enabled settings = false ->
    send_processing_complete send settings topic youtube_url client_name
                             summary s
    = (mkRun s 1 [], Ok tt).
Proof.
  intros settings topic youtube_url client_name summary s H.
  unfold send_processing_complete, async_retry.
  apply (@RetryFacts.wrapper_success _ _ (decorated 3 2)
           (send_processing_complete_body send settings topic youtube_url
              client_name summary) 0 s s tt).
  - simpl. lia.
  - exact I.
  - simpl. unfold send_processing_complete_body. now rewrite H.
Qed.

(** X7: with notifications enabled, a channel that raises at each of
    three sends in a row is sent the same blocks three times, with sleeps
    of 2 and 4 seconds in between, and the third error is raised to the
    caller. *)
Theorem dead_channel_costs_three_sends :
  forall settings topic youtube_url client_name summary s s1 s2 s3 e1 e2 e3,
    enabled settings = true ->
    send (complete_blocks topic youtube_url client_name summary) s
    = (s1, Raise e1) ->
    send (complete_blocks topic youtube_url client_name summary) s1
    = (s2, Raise e2) ->
    send (complete_blocks topic youtube_url client_name summary) s2
    = (s3, Raise e3) ->
    send_processing_complete send settings topic youtube_url client_name
                             summary s
    = (mkRun s3 3 [2%Q; 4%Q], Raise e3).
Proof.
  intros settings topic youtube_url client_name summary s s1 s2 s3 e1 e2 e3
         Hen H1 H2 H3.
  unfold send_processing_complete, async_retry.
  assert (Hbody : forall x,
             send_processing_complete_body send settings topic youtube_url
               client_name summary x
             = send (complete_blocks topic youtube_url client_name summary) x).
  { intros x. unfold send_processing_complete_body. now rewrite Hen. }
  rewrite (@RetryFacts.wrapper_exhausted _ _ (decorated 3 2)
             (send_processing_complete_body send settings topic youtube_url
                client_name summary) 2 s s3 e3).
  - reflexivity.
  - reflexivity.
  - cbn [fails]. rewrite Hbody. rewrite H1. split; [reflexivity|].
    rewrite Hbody. rewrite H2. split; [reflexivity | exact I].
  - cbn [after]. rewrite !Hbody. rewrite H1. cbn [fst]. rewrite H2.
    exact H3.
  - reflexivity.
Qed.

End Sending.

Lemma disabled_notice_cannot_fail_witness :
  send_processing_complete dead_channel slack_without_url
    (py "Weekly Sync") (py "https://www.youtube.com/watch?v=abc") None None []
  = (mkRun [] 1 [], Ok tt).
Proof.
  apply (@disabled_notice_cannot_fail _ dead_channel slack_without_url).
  reflexivity.
Defined.

Lemma dead_channel_costs_three_sends_witness :
  let blocks :=
    complete_blocks (py "Weekly Sync")
                    (py "https://www.youtube.com/watch?v=abc") None None in
  send_processing_complete dead_channel slack_on
    (py "Weekly Sync") (py "https://www.youtube.com/watch?v=abc") None None []
  = (mkRun [blocks; blocks; blocks] 3 [2%Q; 4%Q], Raise connection_error).
Proof.
  intros blocks.
  apply (@dead_channel_costs_three_sends _ dead_channel slack_on
           (py "Weekly Sync") (py "https://www.youtube.com/watch?v=abc")
           None None [] [blocks] [blocks; blocks] [blocks; blocks; blocks]
           connection_error connection_error connection_error);
    reflexivity.
Defined.

End NotificationFacts.

(** ** The token cache of the Zoom client *)

Module ZoomServiceFacts.
Import ZoomService.

(** X8: when no valid token is cached and the token endpoint answers
    with a token and a lifetime of [n] seconds, the token is returned and
    cached with an expiry 60 seconds short of its lifetime.  From then on,
    if the token is not the empty string, every call made strictly before
    that expiry returns the cached token without looking at the endpoint,
    and every call made at or after it asks the endpoint again; a failed
    request leaves the cache as it was. *)
Theorem token_is_cached_until_a_minute_before_expiry :
  forall now now' self tok n,
    token_is_valid now self = false ->
    let cached := mk (Some tok) (Some (now' + (n - 60))%Z) in
    _get_access_token now now' (Ok (mkResponse (Some tok) (Some n))) self
    = (cached, Ok tok)
    /\ (tok <> [] ->
        forall later later' post,
          (later < now' + n - 60)%Z ->
          _get_access_token later later' post cached = (cached, Ok tok))
    /\ (forall later later' e,
          (now' + n - 60 <= later)%Z ->
          _get_access_token later later' (Raise e) cached
          = (cached, Raise e))
    /\ (forall e, _get_access_token now now' (Raise e) self
                  = (self, Raise e)).
Proof.
  intros now now' self tok n Hinv cached. repeat split.
  - unfold _get_access_token. rewrite Hinv. reflexivity.
  - intros Htok later later' post Hlt. unfold _get_access_token.
    assert (Hv : token_is_valid later cached = true).
    { unfold token_is_valid, cached. simpl.
      destruct tok; [congruence|]. simpl. apply Z.ltb_lt. lia. }
    now rewrite Hv.
  - intros later later' e Hge. unfold _get_access_token.
    assert (Hv : token_is_valid later cached = false).
    { unfold token_is_valid, cached. simpl.
      apply andb_false_iff. right. apply Z.ltb_ge. lia. }
    now rewrite Hv.
  - intros e. unfold _get_access_token. now rewrite Hinv.
Qed.

Lemma token_is_cached_until_a_minute_before_expiry_witness :
  let cached := mk (Some (py "tok-1")) (Some 4540%Z) in
  _get_access_token 1000 1000
    (Ok (mkResponse (Some (py "tok-1")) (Some 3600%Z))) fresh_instance
  = (cached, Ok (py "tok-1"))
  /\ (py "tok-1" <> [] ->
      forall later later' post,
        (later < 1000 + 3600 - 60)%Z ->
        _get_access_token later later' post cached = (cached, Ok (py "tok-1")))
  /\ (forall later later' e,
        (1000 + 3600 - 60 <= later)%Z ->
        _get_access_token later later' (Raise e) cached = (cached, Raise e))
  /\ (forall e, _get_access_token 1000 1000 (Raise e) fresh_instance
                = (fresh_instance, Raise e)).
Proof.
  apply (@token_is_cached_until_a_minute_before_expiry 1000 1000
           fresh_instance (py "tok-1") 3600).
  reflexivity.
Defined.

End ZoomServiceFacts.

(** ** Slices and [find] *)

Module PySeqFacts.

Lemma len_nonneg {A} (s : list A) : (0 <= len s)%Z.
Proof. unfold len. lia. Qed.

Lemma len_app {A} (a b : list A) : len (a ++ b) = (len a + len b)%Z.
Proof. unfold len. rewrite length_app. lia. Qed.

(** [s[:k]] for a non-negative [k]. *)
Lemma slice_prefix {A} (s : list A) (k : Z) :
  (0 <= k)%Z -> slice s None (Some k) = firstn (Z.to_nat k) s.
Proof.
  intros Hk. unfold slice, bound.
  destruct (Z.ltb_spec k 0) as [H|_]; [lia|].
  rewrite Z.sub_0_r. simpl skipn.
  destruct (Z.le_ge_cases (Z.of_nat (List.length s)) k) as [H|H].
  - rewrite Z.min_l by lia. rewrite Nat2Z.id.
    rewrite !firstn_all2; auto; lia.
  - now rewrite Z.min_r by lia.
Qed.

(** [s[-h:]] for a positive [h]. *)
Lemma slice_suffix {A} (s : list A) (h : Z) :
  (0 < h)%Z ->
  slice s (Some (- h)%Z) None = skipn (List.length s - Z.to_nat h) s.
Proof.
  intros Hh. unfold slice, bound.
  destruct (Z.ltb_spec (- h) 0) as [_|H]; [|lia].
  replace (Z.to_nat (Z.max 0 (Z.of_nat (List.length s) + - h)))
    with (List.length s - Z.to_nat h)%nat by lia.
  apply firstn_all2. rewrite length_skipn. lia.
Qed.

(** [s[a:b]] for non-negative bounds is never longer than [b - a]. *)
Lemma slice_length_le {A} (s : list A) (a b : Z) :
  (0 <= a)%Z -> (0 <= b)%Z ->
  (len (slice s (Some a) (Some b)) <= Z.max 0 (b - a))%Z.
Proof.
  intros Ha Hb. unfold slice, bound, len.
  destruct (Z.ltb_spec a 0) as [H|_]; [lia|].
  destruct (Z.ltb_spec b 0) as [H|_]; [lia|].
  rewrite length_firstn. lia.
Qed.

(** [s[a:b]] inside the sequence, by [firstn] and [skipn]. *)
Lemma slice_inside {A} (s : list A) (a b : Z) :
  (0 <= a <= b)%Z -> (b <= len s)%Z ->
  slice s (Some a) (Some b)
  = firstn (Z.to_nat (b - a)) (skipn (Z.to_nat a) s).
Proof.
  intros Hab Hb. unfold slice, bound, len in *.
  destruct (Z.ltb_spec a 0) as [H|_]; [lia|].
  destruct (Z.ltb_spec b 0) as [H|_]; [lia|].
  now rewrite !Z.min_r by lia.
Qed.

Lemma firstn_plus {A} (n m : nat) (l : list A) :
  firstn (n + m) l = firstn n l ++ firstn m (skipn n l).
Proof.
  revert l. induction n as [|n IH]; intros [|x l]; simpl; auto.
  - now rewrite firstn_nil.
  - now rewrite IH.
Qed.

Lemma in_firstn {A} (n : nat) (l : list A) (x : A) :
  In x (firstn n l) -> In x l.
Proof.
  intros H. rewrite <- (firstn_skipn n l). apply in_or_app. now left.
Qed.

Lemma in_skipn {A} (n : nat) (l : list A) (x : A) :
  In x (skipn n l) -> In x l.
Proof.
  intros H. rewrite <- (firstn_skipn n l). apply in_or_app. now right.
Qed.

Lemma startswith_app (p x : str) : startswith (p ++ x) p = true.
Proof.
  induction p as [|c p IH]; simpl; [destruct x; reflexivity|].
  now rewrite N.eqb_refl.
Qed.

Lemma startswith_length (s p : str) :
  startswith s p = true -> (List.length p <= List.length s)%nat.
Proof.
  revert s. induction p as [|x p IH]; intros [|y s]; simpl; try lia;
    try discriminate.
  intros H. apply andb_true_iff in H. destruct H as [_ H].
  apply IH in H. lia.
Qed.

Lemma startswith_firstn (s p : str) :
  startswith s p = true -> firstn (List.length p) s = p.
Proof.
  revert s. induction p as [|x p IH]; intros [|y s]; simpl; auto;
    try discriminate.
  intros H. apply andb_true_iff in H. destruct H as [E H].
  apply N.eqb_eq in E. subst. f_equal. now apply IH.
Qed.

(** What a result of [find] other than -1 means. *)
Lemma find_from_spec (p : str) :
  forall s i r,
    find_from s p i = r -> r <> (-1)%Z -> (0 <= i)%Z ->
    (i <= r <= i + len s)%Z
    /\ startswith (skipn (Z.to_nat (r - i)) s) p = true.
Proof.
  induction s as [|c s IH]; intros i r Hf Hr Hi; cbn [find_from] in Hf.
  - destruct (startswith [] p) eqn:E; [|congruence].
    subst r. rewrite Z.sub_diag. simpl. split; [unfold len; simpl; lia | exact E].
  - destruct (startswith (c :: s) p) eqn:E.
    + subst r. rewrite Z.sub_diag. simpl.
      split; [unfold len; simpl; lia | exact E].
    + destruct (IH (i + 1)%Z r Hf Hr ltac:(lia)) as [H1 H2].
      split; [unfold len in *; simpl; lia|].
      replace (Z.to_nat (r - i)) with (Datatypes.S (Z.to_nat (r - (i + 1))))
        by lia.
      exact H2.
Qed.

Lemma find_spec (s p : str) :
  find s p <> (-1)%Z ->
  (0 <= find s p)%Z
  /\ startswith (skipn (Z.to_nat (find s p)) s) p = true
  /\ (find s p + len p <= len s)%Z.
Proof.
  intros H. unfold find in *.
  destruct (@find_from_spec p s 0%Z _ eq_refl H ltac:(lia)) as [H1 H2].
  rewrite Z.sub_0_r in H2. repeat split; auto; try lia.
  pose proof (startswith_length _ _ H2) as Hl.
  rewrite length_skipn in Hl. unfold len in *. lia.
Qed.

End PySeqFacts.

(** ** Cutting a transcript to size *)

Module SummaryServiceFacts.
Import SummaryService PySeqFacts.

Lemma cut_marker_length : len cut_marker = 16%Z.
Proof. reflexivity. Qed.

(** X9: a transcript of at most [max_chars] characters is passed on
    unchanged.  A longer one (for a limit of at least 2) is replaced by
    its first [max_chars // 2] characters, the cut marker, and its last
    [max_chars // 2] characters; the result has
    [2 * (max_chars // 2) + 16] characters, which is more than
    [max_chars]. *)
Theorem truncated_transcript_shape :
  forall transcript max_chars,
    (2 <= max_chars)%Z ->
    (len transcript <= max_chars ->
     _truncate_transcript transcript max_chars = transcript)%Z
    /\ ((max_chars < len transcript)%Z ->
        _truncate_transcript transcript max_chars
        = firstn (Z.to_nat (max_chars / 2)) transcript
          ++ cut_marker
          ++ skipn (List.length transcript - Z.to_nat (max_chars / 2))
                   transcript
        /\ len (_truncate_transcript transcript max_chars)
           = (2 * (max_chars / 2) + 16)%Z
        /\ (max_chars < len (_truncate_transcript transcript max_chars))%Z).
Proof.
  intros transcript max_chars H2.
  assert (Hhalf : (1 <= max_chars / 2)%Z)
    by (apply Z.div_le_lower_bound; lia).
  assert (Hhalf2 : (max_chars / 2 <= max_chars)%Z)
    by (apply Z.div_le_upper_bound; lia).
  split.
  - intros Hle. unfold _truncate_transcript.
    destruct (Z.leb_spec (len transcript) max_chars); [reflexivity | lia].
  - intros Hgt.
    assert (Heq : _truncate_transcript transcript max_chars
                  = firstn (Z.to_nat (max_chars / 2)) transcript
                    ++ cut_marker
                    ++ skipn (List.length transcript
                              - Z.to_nat (max_chars / 2)) transcript).
    { unfold _truncate_transcript.
      destruct (Z.leb_spec (len transcript) max_chars); [lia|].
      rewrite slice_prefix by lia. rewrite slice_suffix by lia.
      reflexivity. }
    assert (Hlen : len (_truncate_transcript transcript max_chars)
                   = (2 * (max_chars / 2) + 16)%Z).
    { rewrite Heq, !len_app, cut_marker_length. unfold len in *.
      rewrite length_firstn, length_skipn. lia. }
    repeat split; auto. rewrite Hlen.
    pose proof (Z.mod_pos_bound max_chars 2 ltac:(lia)).
    pose proof (Z.div_mod max_chars 2 ltac:(lia)). lia.
Qed.

Lemma truncated_transcript_shape_witness :
  (len (py "abcdefghij") <= 4 ->
   _truncate_transcript (py "abcdefghij") 4 = py "abcdefghij")%Z
  /\ ((4 < len (py "abcdefghij"))%Z ->
      _truncate_transcript (py "abcdefghij") 4
      = firstn (Z.to_nat (4 / 2)) (py "abcdefghij")
        ++ cut_marker
        ++ skipn (List.length (py "abcdefghij") - Z.to_nat (4 / 2))
                 (py "abcdefghij")
      /\ len (_truncate_transcript (py "abcdefghij") 4)
         = (2 * (4 / 2) + 16)%Z
      /\ (4 < len (_truncate_transcript (py "abcdefghij") 4))%Z).
Proof.
  apply (@truncated_transcript_shape (py "abcdefghij") 4). lia.
Defined.

(** *** Chapters *)

Section Chapters.
Context {L : PyLib}.
Variable _call_gpt : str -> Z -> result str.
Variable answer : str -> str.
Hypothesis answers :
  forall prompt, _call_gpt prompt 50%Z = Ok (answer prompt).

(** The title a chunk gets when the model answers [answer]. *)
Let title_of (texts : list str) : str :=
  slice_to 20 (strip (answer (chapter_title_prompt (join (py " ") texts)))).

Let chapter_of (c : Q * list str) : Chapter :=
  mkChapter (mmss (fst c)) (title_of (snd c)).

Lemma chapters_loop_chunks :
  forall segs current_start chunk_texts chapters,
    chapters_loop _call_gpt segs current_start chunk_texts chapters
    = Ok (chapters
          ++ List.map chapter_of (chunks_from segs current_start chunk_texts)).
Proof.
  induction segs as [|seg rest IH]; intros cs texts chapters;
    cbn [chapters_loop chunks_from].
  - destruct texts as [|t ts]; cbn [nonempty List.map].
    + now rewrite app_nil_r.
    + unfold _generate_chapter_title. rewrite answers. reflexivity.
  - destruct (Qle_bool chunk_duration (seg_start seg - cs) && nonempty texts).
    + unfold _generate_chapter_title. rewrite answers. rewrite IH.
      cbn [List.map]. now rewrite <- app_assoc.
    + apply IH.
Qed.

End Chapters.

Lemma chunks_concat :
  forall segs current_start chunk_texts,
    List.concat (List.map snd (chunks_from segs current_start chunk_texts))
    = chunk_texts ++ List.map seg_text segs.
Proof.
  induction segs as [|seg rest IH]; intros cs texts; cbn [chunks_from].
  - destruct texts; simpl; [reflexivity | now rewrite !app_nil_r].
  - destruct (Qle_bool chunk_duration (seg_start seg - cs) && nonempty texts).
    + cbn [List.map List.concat snd]. rewrite IH. reflexivity.
    + rewrite IH. now rewrite <- app_assoc.
Qed.

Lemma chunks_head :
  forall segs current_start chunk_texts,
    segs <> [] \/ chunk_texts <> [] ->
    exists texts rest,
      chunks_from segs current_start chunk_texts
      = (current_start, texts) :: rest.
Proof.
  induction segs as [|seg rest IH]; intros cs texts H; cbn [chunks_from].
  - destruct texts as [|t ts]; [destruct H; congruence|]. eauto.
  - destruct (Qle_bool chunk_duration (seg_start seg - cs) && nonempty texts);
      [eauto|].
    apply IH. right. destruct texts; discriminate.
Qed.

Lemma chunks_spaced :
  forall segs current_start chunk_texts,
    spaced (List.map fst (chunks_from segs current_start chunk_texts)).
Proof.
  induction segs as [|seg rest IH]; intros cs texts; cbn [chunks_from].
  - destruct texts; exact I.
  - destruct (Qle_bool chunk_duration (seg_start seg - cs)) eqn:E;
      cbn [andb]; [|apply IH].
    destruct (nonempty texts); [|apply IH].
    destruct (@chunks_head rest (seg_start seg) [seg_text seg])
      as [texts' [rest' Hc]]; [right; discriminate|].
    specialize (IH (seg_start seg) [seg_text seg]). rewrite Hc in IH |- *.
    cbn [List.map fst spaced] in IH |- *. split; [|exact IH].
    now apply Qle_bool_iff.
Qed.

Lemma chunks_are_nonempty :
  forall segs current_start chunk_texts,
    Forall (fun c => snd c <> []) (chunks_from segs current_start chunk_texts).
Proof.
  induction segs as [|seg rest IH]; intros cs texts; cbn [chunks_from].
  - destruct texts; repeat constructor. discriminate.
  - destruct (Qle_bool chunk_duration (seg_start seg - cs)); cbn [andb];
      [|apply IH].
    destruct texts as [|t ts]; cbn [nonempty]; [apply IH|].
    constructor; [discriminate | apply IH].
Qed.

Lemma chunks_count :
  forall segs current_start chunk_texts,
    (List.length (chunks_from segs current_start chunk_texts)
     <= List.length segs + if nonempty chunk_texts then 1 else 0)%nat.
Proof.
  induction segs as [|seg rest IH]; intros cs texts; cbn [chunks_from].
  - destruct texts; simpl; lia.
  - destruct (Qle_bool chunk_duration (seg_start seg - cs)); cbn [andb].
    + destruct texts as [|t ts]; cbn [nonempty].
      * specialize (IH cs ([] ++ [seg_text seg])). simpl in *. lia.
      * specialize (IH (seg_start seg) [seg_text seg]). simpl in *. lia.
    + specialize (IH cs (texts ++ [seg_text seg])).
      assert (nonempty (texts ++ [seg_text seg]) = true)
        by (destruct texts; reflexivity).
      rewrite H in IH. destruct (nonempty texts); simpl; lia.
Qed.

Lemma mmss_zero {L : PyLib} : str_of_int 0 = py "0" -> mmss 0 = py "00:00".
Proof.
  intros Hzero. unfold mmss. change (Qfloor (0 / 60)) with 0%Z.
  change (Qfloor (0 - 60 * inject_Z 0)) with 0%Z.
  unfold format_02d. rewrite Hzero. reflexivity.
Qed.

(** X10: when every title request is answered, the chapters of a
    non-empty list of segments are these: the segments are cut, in order
    and without a gap, into chunks; a chunk ends where a segment starts
    at least 300 seconds after the chunk's starting time, so successive
    chapters start at least 300 seconds apart; the first chapter starts at
    0, whatever the start of the first segment, and is labelled 00:00;
    each chapter's title is the answer for its chunk, stripped and cut to
    20 characters; there are at most as many chapters as segments. *)
Theorem chapters_cover_the_segments {L : PyLib} :
  forall (_call_gpt : str -> Z -> result str) (answer : str -> str)
         (segs : list Segment),
    (forall prompt, _call_gpt prompt 50%Z = Ok (answer prompt)) ->
    segs <> [] ->
    str_of_int 0 = py "0" ->
    let chunks := chunks_from segs 0 [] in
    let title_of texts :=
      slice_to 20
        (strip (answer (chapter_title_prompt (join (py " ") texts)))) in
    generate_chapters _call_gpt (Some segs)
    = Ok (List.map (fun c => mkChapter (mmss (fst c)) (title_of (snd c)))
                   chunks)
    /\ List.concat (List.map snd chunks) = List.map seg_text segs
    /\ (exists texts rest, chunks = (0%Q, texts) :: rest)
    /\ mmss 0 = py "00:00"
    /\ spaced (List.map fst chunks)
    /\ Forall (fun c => snd c <> []) chunks
    /\ Forall (fun c => (List.length (title_of (snd c)) <= 20)%nat) chunks
    /\ (1 <= List.length chunks <= List.length segs)%nat.
Proof.
  intros _call_gpt answer segs Hans Hne Hzero chunks title_of.
  assert (Hhead : exists texts rest, chunks = (0%Q, texts) :: rest)
    by (apply chunks_head; now left).
  split; [|split; [|split; [|split; [|split; [|split; [|split]]]]]].
  - unfold generate_chapters. destruct segs as [|seg rest]; [congruence|].
    exact (chapters_loop_chunks _call_gpt answer Hans (seg :: rest) 0 [] []).
  - apply (chunks_concat segs 0 []).
  - exact Hhead.
  - now apply mmss_zero.
  - apply chunks_spaced.
  - apply chunks_are_nonempty.
  - apply Forall_forall. intros c _. unfold title_of, slice_to.
    apply firstn_le_length.
  - destruct Hhead as [texts [rest Hc]]. rewrite Hc. simpl. split; [lia|].
    pose proof (chunks_count segs 0 []) as Hn. fold chunks in Hn.
    rewrite Hc in Hn. simpl in Hn. lia.
Qed.

(** X11: the description text the YouTube service builds from the
    chapters of a non-empty list of segments begins with the line of a
    chapter at 00:00; from no chapters it builds the empty text. *)
Theorem youtube_chapters_begin_at_zero {L : PyLib} :
  forall (_call_gpt : str -> Z -> result str) (answer : str -> str)
         (segs : list Segment),
    (forall prompt, _call_gpt prompt 50%Z = Ok (answer prompt)) ->
    segs <> [] ->
    str_of_int 0 = py "0" ->
    YouTubeService.generate_chapters [] = []
    /\ exists chapters,
         generate_chapters _call_gpt (Some segs) = Ok chapters
         /\ startswith (YouTubeService.generate_chapters chapters)
                       (py "00:00 ") = true.
Proof.
  intros _call_gpt answer segs Hans Hne Hzero. split; [reflexivity|].
  destruct segs as [|seg rest]; [congruence|].
  destruct (@chunks_head (seg :: rest) 0%Q []) as [texts [more Hc]];
    [left; discriminate|].
  pose proof (chapters_loop_chunks _call_gpt answer Hans (seg :: rest) 0 [] [])
    as Hrun.
  rewrite Hc in Hrun. cbn [List.map app fst snd] in Hrun.
  eexists. split; [exact Hrun|].
  unfold YouTubeService.generate_chapters. cbn [List.map time title].
  rewrite (mmss_zero Hzero).
  destruct (List.map _ more); cbn [join List.map]; rewrite <- ?app_assoc;
    match goal with
    | |- startswith (py "00:00" ++ py " " ++ ?x) _ = true =>
        exact (PySeqFacts.startswith_app (py "00:00 ") x)
    end.
Qed.

End SummaryServiceFacts.

(** ** Matching a calendar event *)

Module CalendarServiceFacts.
Import CalendarService.

Lemma contains_empty (s : str) : contains s [] = true.
Proof. destruct s; reflexivity. Qed.

(** X12: the calendar lookup returns the first event of the time window
    that mentions the meeting id in its description or whose title shares
    a word of more than two characters with the topic, and nothing when no
    event does; since the empty string is contained in every description,
    a recording whose meeting id is empty is matched with the first event
    of the window, whatever that event is. *)
Theorem calendar_lookup_takes_first_match {L : PyLib} :
  (forall event rest topic, _find (event :: rest) [] topic = Some event)
  /\ (forall events zoom_meeting_id topic event,
        _find events zoom_meeting_id topic = Some event ->
        exists before after,
          events = before ++ event :: after
          /\ matches zoom_meeting_id topic event = true
          /\ Forall (fun e => matches zoom_meeting_id topic e = false) before)
  /\ (forall events zoom_meeting_id topic,
        _find events zoom_meeting_id topic = None ->
        Forall (fun e => matches zoom_meeting_id topic e = false) events).
Proof.
  split; [|split].
  - intros event rest topic. cbn [_find]. now rewrite contains_empty.
  - induction events as [|e es IH]; intros zid topic event H;
      cbn [_find] in H; [discriminate|].
    destruct (contains (get_or_empty (description e)) zid) eqn:E1.
    + inversion H; subst. exists [], es. repeat split; auto.
      unfold matches. now rewrite E1.
    + destruct (title_overlaps _ _) eqn:E2.
      * inversion H; subst. exists [], es. repeat split; auto.
        unfold matches. rewrite E2. apply orb_true_r.
      * destruct (IH _ _ _ H) as [before [after [He [Hm Hb]]]].
        exists (e :: before), after. subst es. repeat split; auto.
        constructor; [|exact Hb]. unfold matches. now rewrite E1, E2.
  - induction events as [|e es IH]; intros zid topic H; cbn [_find] in H;
      [constructor|].
    destruct (contains (get_or_empty (description e)) zid) eqn:E1;
      [discriminate|].
    destruct (title_overlaps _ _) eqn:E2; [discriminate|].
    constructor; [unfold matches; now rewrite E1, E2 | now apply IH].
Qed.

End CalendarServiceFacts.


(** ** Search excerpts *)

Module MeetingsApiFacts.
Import MeetingsApi PySeqFacts.

Section Excerpt.
Context {L : PyLib}.

(** X13: for a non-negative [context], an excerpt has at most 203
    characters when the query is not found, and at most
    [len(query) + 2 * context + 6] characters when it is. *)
Theorem excerpt_length_is_bounded :
  forall recording query context,
    (0 <= context)%Z ->
    (find (str_lower (searched_text recording)) (str_lower query)
     = (-1)%Z ->
     (len (_get_excerpt recording query context) <= 203)%Z)
    /\ (find (str_lower (searched_text recording)) (str_lower query)
        <> (-1)%Z ->
        (len (_get_excerpt recording query context)
         <= len query + 2 * context + 6)%Z).
Proof.
  intros recording query context Hc. unfold _get_excerpt.
  set (text := searched_text recording).
  set (pos := find (str_lower text) (str_lower query)).
  destruct (Z.eqb_spec pos (-1)) as [E|E];
    (split; intros E'; [try contradiction | try contradiction]).
  - destruct (Z.ltb_spec 200 (len text)) as [Hl|Hl].
    + rewrite len_app, slice_prefix by lia.
      change (len (py "...")) with 3%Z. unfold len.
      rewrite length_firstn. lia.
    + lia.
  - destruct (find_spec _ _ E) as [Hpos _]. fold pos in Hpos.
    set (start := Z.max 0 (pos - context)).
    set (end_ := Z.min (len text) (pos + len query + context)).
    pose proof (len_nonneg text) as Ht.
    pose proof (len_nonneg query) as Hq.
    pose proof (@slice_length_le _ text start end_ ltac:(lia) ltac:(lia))
      as Hs.
    assert (Hd : (Z.max 0 (end_ - start) <= len query + 2 * context)%Z)
      by lia.
    destruct (0 <? start)%Z; destruct (end_ <? len text)%Z;
      rewrite ?len_app; change (len (py "...")) with 3%Z; lia.
Qed.

(** X14: when lower-casing changes the length of neither the searched
    text nor the query, and the query is found, the excerpt contains the
    stretch of the text at the position of the match, which is as long as
    the query. *)
Theorem excerpt_contains_the_match :
  forall recording query context,
    (0 <= context)%Z ->
    List.length (str_lower (searched_text recording))
    = List.length (searched_text recording) ->
    List.length (str_lower query) = List.length query ->
    find (str_lower (searched_text recording)) (str_lower query)
    <> (-1)%Z ->
    let pos := find (str_lower (searched_text recording))
                    (str_lower query) in
    let hit := slice (searched_text recording) (Some pos)
                     (Some (pos + len query)%Z) in
    len hit = len query
    /\ exists before after,
         _get_excerpt recording query context = before ++ hit ++ after.
Proof.
  intros recording query context Hc Ht Hq Hfound pos hit.
  destruct (find_spec _ _ Hfound) as [Hpos [_ Hend]]. fold pos in Hpos, Hend.
  set (text := searched_text recording) in *.
  assert (Hin : (pos + len query <= len text)%Z)
    by (unfold len in *; lia).
  pose proof (len_nonneg query) as Hlq.
  assert (Hhit : hit = firstn (Z.to_nat (len query))
                              (skipn (Z.to_nat pos) text)).
  { unfold hit. rewrite slice_inside by lia. f_equal. f_equal. lia. }
  split.
  - rewrite Hhit. unfold len in *. rewrite length_firstn, length_skipn. lia.
  - unfold _get_excerpt. fold text. fold pos.
    destruct (Z.eqb_spec pos (-1)) as [E|_]; [lia|].
    set (start := Z.max 0 (pos - context)).
    set (end_ := Z.min (len text) (pos + len query + context)).
    assert (Hslice : exists b a,
               slice text (Some start) (Some end_) = b ++ hit ++ a).
    { rewrite slice_inside by lia. rewrite Hhit.
      exists (firstn (Z.to_nat (pos - start)) (skipn (Z.to_nat start) text)),
             (firstn (Z.to_nat (end_ - (pos + len query)))
                     (skipn (Z.to_nat (pos + len query)) text)).
      replace (Z.to_nat (end_ - start))
        with (Z.to_nat (pos - start)
              + (Z.to_nat (len query)
                 + Z.to_nat (end_ - (pos + len query))))%nat by lia.
      rewrite firstn_plus. f_equal.
      rewrite skipn_skipn.
      replace (Z.to_nat (pos - start) + Z.to_nat start)%nat
        with (Z.to_nat pos) by lia.
      rewrite firstn_plus. f_equal.
      rewrite skipn_skipn.
      replace (Z.to_nat (len query) + Z.to_nat pos)%nat
        with (Z.to_nat (pos + len query)) by lia.
      reflexivity. }
    destruct Hslice as [b [a Hs]]. rewrite Hs.
    destruct (0 <? start)%Z; destruct (end_ <? len text)%Z.
    + exists (py "..." ++ b), (a ++ py "..."). now rewrite <- !app_assoc.
    + exists (py "..." ++ b), a. now rewrite <- !app_assoc.
    + exists b, (a ++ py "..."). now rewrite <- !app_assoc.
    + exists b, a. reflexivity.
Qed.

End Excerpt.

End MeetingsApiFacts.

(** ** Listing, deleting and assigning meetings *)

Module RoutesFacts.
Import Sql MeetingsRoutes ClientsRoutes.

Lemma status_eqb_eq (a b : ProcessingStatus) : status_eqb a b = true <-> a = b.
Proof. destruct a, b; simpl; split; intros H; congruence. Qed.

Lemma insert_desc_perm r l :
  Permutation (insert_by_start_time_desc r l) (r :: l).
Proof.
  induction l as [|x l IH]; simpl; [reflexivity|].
  destruct (DBRecording.start_time x <=? DBRecording.start_time r)%Z.
  - reflexivity.
  - rewrite IH. apply perm_swap.
Qed.

Lemma order_desc_perm l : Permutation (order_by_start_time_desc l) l.
Proof.
  induction l as [|x l IH]; simpl; [reflexivity|].
  rewrite insert_desc_perm. now constructor.
Qed.

Lemma in_limit {A} (n : Z) (rows : list A) (x : A) :
  In x (limit n rows) -> In x rows.
Proof.
  unfold limit. destruct (n <? 0)%Z; [auto|]. apply PySeqFacts.in_firstn.
Qed.

Lemma in_offset {A} (n : Z) (rows : list A) (x : A) :
  In x (offset n rows) -> In x rows.
Proof. unfold offset. apply PySeqFacts.in_skipn. Qed.

Lemma limit_length {A} (n : Z) (rows : list A) :
  (0 <= n)%Z -> (Z.of_nat (List.length (limit n rows)) <= n)%Z.
Proof.
  intros Hn. unfold limit. destruct (Z.ltb_spec n 0); [lia|].
  rewrite length_firstn. lia.
Qed.

(** X15: a status filter is looked up among the eight values of
    [ProcessingStatus], each of which is found again from its own token.
    With such a token the route returns, at most [limit] of them for a
    non-negative [limit], only stored recordings in that status, each
    under that token; with any other non-empty text, such as
    [uploading_video], it raises [ValueError] and returns nothing. *)
Theorem status_filter_reads_enumeration_values :
  (forall s, ProcessingStatus_of_value (py (status_value s)) = Some s)
  /\ ProcessingStatus_of_value (py "uploading_video") = None
  /\ (forall client_id value limit offset w,
        value <> [] ->
        ProcessingStatus_of_value value = None ->
        list_meetings client_id (Some value) limit offset w
        = (w, Raise (not_a_status value)))
  /\ (forall client_id s limit offset w,
        exists items,
          list_meetings client_id (Some (py (status_value s))) limit offset w
          = (w, Ok items)
          /\ Forall (fun item =>
                       status item = py (status_value s)
                       /\ exists r, In r (recordings w)
                                    /\ DBRecording.status r = s
                                    /\ item = response_of w r)
                    items
          /\ ((0 <= limit)%Z -> (len items <= limit)%Z)).
Proof.
  assert (Hrt : forall s, ProcessingStatus_of_value (py (status_value s))
                          = Some s)
    by (intros []; vm_compute; reflexivity).
  split; [exact Hrt|]. split; [vm_compute; reflexivity|]. split.
  - intros client_id value limit offset w Hne Hnone.
    unfold list_meetings, bind, get_world.
    destruct value as [|c value]; [congruence|]. now rewrite Hnone.
  - intros client_id s limit offset w.
    unfold list_meetings, bind, get_world, ret.
    destruct (py (status_value s)) as [|c value] eqn:Hv;
      [destruct s; vm_compute in Hv; discriminate|].
    rewrite <- Hv, Hrt. rewrite Hv. cbv beta iota. rewrite <- Hv.
    eexists. split; [reflexivity|]. split.
    + apply Forall_forall. intros item Hin.
      apply in_map_iff in Hin. destruct Hin as [r [<- Hr]].
      apply in_limit, in_offset in Hr.
      apply (Permutation_in _ (order_desc_perm _)) in Hr.
      apply filter_In in Hr. destruct Hr as [Hr Hs].
      apply filter_In in Hr. destruct Hr as [Hr _].
      apply status_eqb_eq in Hs.
      split; [simpl; now rewrite Hs|]. exists r. auto.
    + intros Hl. unfold len. rewrite length_map. now apply limit_length.
Qed.

Lemma find_filter_other (mid rid : Z) (l : list DBRecording.t) :
  rid <> mid ->
  List.find (fun r => (DBRecording.id r =? rid)%Z)
            (filter (fun r => negb (DBRecording.id r =? mid)%Z) l)
  = List.find (fun r => (DBRecording.id r =? rid)%Z) l.
Proof.
  intros Hne. induction l as [|x l IH]; simpl; [reflexivity|].
  destruct (Z.eqb_spec (DBRecording.id x) mid) as [E|E]; simpl.
  - destruct (Z.eqb_spec (DBRecording.id x) rid); [lia | exact IH].
  - destruct (DBRecording.id x =? rid)%Z; [reflexivity | exact IH].
Qed.

Lemma find_filter_same (mid : Z) (l : list DBRecording.t) :
  List.find (fun r => (DBRecording.id r =? mid)%Z)
            (filter (fun r => negb (DBRecording.id r =? mid)%Z) l)
  = None.
Proof.
  induction l as [|x l IH]; simpl; [reflexivity|].
  destruct (DBRecording.id x =? mid)%Z eqn:E; simpl; [exact IH|].
  now rewrite E.
Qed.

Lemma filter_out_one (mid : Z) (l : list DBRecording.t) (r : DBRecording.t) :
  NoDup (List.map DBRecording.id l) -> In r l -> DBRecording.id r = mid ->
  (List.length (filter (fun x => negb (DBRecording.id x =? mid)%Z) l) + 1
   = List.length l)%nat.
Proof.
  intros Hnd Hin Hid. induction l as [|x l IH]; simpl in *; [contradiction|].
  inversion Hnd as [|? ? Hx Hnd']; subst.
  destruct Hin as [->|Hin].
  - rewrite Z.eqb_refl. simpl.
    assert (Hall : filter (fun x => negb (DBRecording.id x
                                          =? DBRecording.id r)%Z) l = l).
    { apply forallb_filter_id. apply forallb_forall. intros y Hy.
      destruct (Z.eqb_spec (DBRecording.id y) (DBRecording.id r)) as [E|E];
        [|reflexivity].
      exfalso. apply Hx. rewrite <- E. now apply in_map. }
    rewrite Hall. lia.
  - destruct (Z.eqb_spec (DBRecording.id x) (DBRecording.id r)) as [E|E].
    + exfalso. apply Hx. rewrite E. now apply in_map.
    + simpl. rewrite IH; auto.
Qed.

Section Routes.
Context {L : PyLib}.

Lemma fold_max_ge (ks : list Z) (k : Z) :
  (k <= fold_left Z.max ks k)%Z
  /\ forall x, In x ks -> (x <= fold_left Z.max ks k)%Z.
Proof.
  revert k. induction ks as [|y ks IH]; intros k; cbn.
  - split; [lia | contradiction].
  - destruct (IH (Z.max k y)) as [H1 H2]. split; [lia|].
    intros x [<-|Hx]; [lia | now apply H2].
Qed.

Lemma next_rowid_above (ids : list Z) (x : Z) :
  In x ids -> (x < Sql.next_rowid ids)%Z.
Proof.
  destruct ids as [|k ks]; [contradiction|]. cbn [Sql.next_rowid].
  destruct (fold_max_ge ks k) as [H1 H2].
  intros [<-|Hx]; [lia|]. specialize (H2 _ Hx). lia.
Qed.

(** X16: deleting a meeting that does not exist raises the 404 error
    and changes nothing.  Deleting one that exists removes exactly its
    row: the other recordings, the accounts (their meeting counts
    included) and the task queue stay as they are, and the key of the
    next insert is one more than the largest key left (1 when no row is
    left).  If no other recording carried its occurrence id, a later
    completion event for that occurrence is accepted as a new pending
    recording; its key is that next key, above every key left in the
    table, so the key of the deleted row is handed out again when that
    row was the newest and the key before it is in use. *)
Theorem deleted_meeting_is_forgotten :
  forall meeting_id w,
    NoDup (List.map DBRecording.id (recordings w)) ->
    match row w meeting_id with
    | None =>
        delete_meeting meeting_id w = (w, Raise (http_exception "404"))
    | Some r =>
        snd (delete_meeting meeting_id w)
        = Ok (py "Meeting " ++ str_of_int meeting_id ++ py " deleted")
        /\ row (fst (delete_meeting meeting_id w)) meeting_id = None
        /\ (forall rid, rid <> meeting_id ->
                        row (fst (delete_meeting meeting_id w)) rid
                        = row w rid)
        /\ (List.length (recordings (fst (delete_meeting meeting_id w))) + 1
            = List.length (recordings w))%nat
        /\ clients (fst (delete_meeting meeting_id w)) = clients w
        /\ tasks (fst (delete_meeting meeting_id w)) = tasks w
        /\ next_recording_id (fst (delete_meeting meeting_id w))
           = Sql.next_rowid
               (List.map DBRecording.id
                  (recordings (fst (delete_meeting meeting_id w))))
        /\ (count_uuid w (DBRecording.zoom_meeting_uuid r) = 1%nat ->
            forall now payload,
              ZoomWebhookPayload.meeting_uuid payload
              = DBRecording.zoom_meeting_uuid r ->
              ZoomWebhookPayload.get_mp4_file payload <> None ->
              exists r2,
                snd (handle_recording_completed
                       now payload (fst (delete_meeting meeting_id w)))
                = Ok (Some r2)
                /\ DBRecording.id r2
                   = Sql.next_rowid
                       (List.map DBRecording.id
                          (recordings (fst (delete_meeting meeting_id w))))
                /\ (forall x,
                      In x (recordings (fst (delete_meeting meeting_id w))) ->
                      (DBRecording.id x < DBRecording.id r2)%Z)
                /\ ((forall x, In x (recordings w) ->
                               (DBRecording.id x <= meeting_id)%Z) ->
                    (exists x, In x (recordings w)
                               /\ DBRecording.id x = (meeting_id - 1)%Z) ->
                    DBRecording.id r2 = meeting_id)
                /\ DBRecording.status r2 = PENDING)
    end.
Proof.
  intros meeting_id w Hnd.
  destruct (row w meeting_id) as [r|] eqn:Hrow.
  - pose proof (row_id _ _ Hrow) as Hid.
    assert (Hin : In r (recordings w))
      by (unfold row in Hrow; now apply find_some in Hrow).
    set (remaining := filter (fun x => negb (DBRecording.id x
                                             =? meeting_id)%Z)
                             (recordings w)).
    assert (Hrun : delete_meeting meeting_id w
                   = (mkWorld remaining (clients w)
                        (Sql.next_rowid (List.map DBRecording.id remaining))
                        (next_client_id w) (tasks w) (log w),
                      Ok (py "Meeting " ++ str_of_int meeting_id
                          ++ py " deleted"))).
    { unfold delete_meeting, select_recording, bind, get_world, ret, modify.
      fold (row w meeting_id). rewrite Hrow, Hid. reflexivity. }
    rewrite Hrun.
    cbn [fst snd recordings clients tasks next_recording_id].
    split; [reflexivity|]. split; [apply find_filter_same|].
    split; [intros rid Hne; now apply find_filter_other|].
    split; [now apply (@filter_out_one meeting_id _ r)|].
    split; [reflexivity|]. split; [reflexivity|]. split; [reflexivity|].
    intros Hcount now payload Huuid Hmp4.
    unfold handle_recording_completed.
    destruct (ZoomWebhookPayload.get_mp4_file payload) as [mp4|];
      [|congruence].
    unfold bind, get_world, lift, modify, ret.
    cbn [recordings next_recording_id].
    assert (Hnone : filter (fun x => eqb (DBRecording.zoom_meeting_uuid x)
                                         (ZoomWebhookPayload.meeting_uuid
                                            payload))
                           remaining = []).
    { rewrite Huuid. unfold count_uuid in Hcount.
      destruct (filter_length_one _ _ Hcount) as [x Hx].
      assert (Hr : In r (filter
                           (fun r0 => eqb (DBRecording.zoom_meeting_uuid r0)
                                          (DBRecording.zoom_meeting_uuid r))
                           (recordings w)))
        by (apply filter_In; split; [exact Hin | apply eqb_refl]).
      rewrite Hx in Hr. destruct Hr as [->|[]].
      destruct (filter _ remaining) as [|y ys] eqn:Hf;
        [reflexivity|].
      assert (Hy : In y (y :: ys)) by now left.
      rewrite <- Hf in Hy. apply filter_In in Hy. destruct Hy as [Hy Hu].
      apply filter_In in Hy. destruct Hy as [Hy Hne].
      assert (Hyr : In y (filter
                            (fun r0 => eqb (DBRecording.zoom_meeting_uuid r0)
                                           (DBRecording.zoom_meeting_uuid r))
                            (recordings w)))
        by (apply filter_In; split; assumption).
      rewrite Hx in Hyr. destruct Hyr as [<-|[]].
      rewrite Hid, Z.eqb_refl in Hne. discriminate. }
    rewrite Hnone. cbn [scalar_one_or_none snd].
    eexists. split; [reflexivity|]. split; [reflexivity|].
    cbn [DBRecording.id DBRecording.status new_recording].
    split; [|split; [|reflexivity]].
    + intros x Hx. apply next_rowid_above. now apply in_map.
    + intros Hall [p [Hp Hpid]].
      assert (Hprem : In p remaining).
      { apply filter_In. split; [exact Hp|].
        apply negb_true_iff, Z.eqb_neq. lia. }
      pose proof (next_rowid_above _ _
                    (in_map DBRecording.id _ _ Hprem)) as Hlow.
      assert (Hup : (Sql.next_rowid (List.map DBRecording.id remaining)
                     <= meeting_id)%Z).
      { destruct (List.map DBRecording.id remaining) as [|k ks] eqn:Hm;
          [destruct remaining; [contradiction | discriminate]|].
        cbn [Sql.next_rowid].
        assert (Hb : forall i, In i (k :: ks) -> (i <= meeting_id - 1)%Z).
        { intros i Hi. rewrite <- Hm in Hi. apply in_map_iff in Hi.
          destruct Hi as [y [<- Hy]]. apply filter_In in Hy.
          destruct Hy as [Hy Hne].
          apply negb_true_iff, Z.eqb_neq in Hne.
          specialize (Hall y Hy). lia. }
        clear - Hb. revert k Hb. induction ks as [|y ks IH]; intros k Hb.
        - cbn. specialize (Hb k (or_introl eq_refl)). lia.
        - cbn [fold_left]. apply IH. intros i [<-|Hi].
          + pose proof (Hb k (or_introl eq_refl)).
            pose proof (Hb y (or_intror (or_introl eq_refl))). lia.
          + apply Hb. right. now right. }
      lia.
  - unfold delete_meeting, select_recording, bind, get_world, ret.
    fold (row w meeting_id). now rewrite Hrow.
Qed.

(** X17: the route that creates an account keeps the constraints of the
    accounts table.  For a name an account already has it raises the 400
    error and changes nothing; for a new name it appends exactly one
    account, with that name, the next key, a meeting count of 0, and as
    learned ids the encoding of the given list, or no text at all when
    the list is missing or empty. *)
Theorem created_account_is_new :
  forall name description title_patterns zoom_meeting_ids w,
    clients_wf w ->
    clients_wf (fst (create_client name description title_patterns
                                   zoom_meeting_ids w))
    /\ (In name (client_names w) ->
        create_client name description title_patterns zoom_meeting_ids w
        = (w, Raise (http_exception "400")))
    /\ (~ In name (client_names w) ->
        exists c,
          snd (create_client name description title_patterns
                             zoom_meeting_ids w) = Ok c
          /\ clients (fst (create_client name description title_patterns
                                         zoom_meeting_ids w))
             = clients w ++ [c]
          /\ recordings (fst (create_client name description title_patterns
                                            zoom_meeting_ids w))
             = recordings w
          /\ DBClient.name c = name
          /\ DBClient.id c = next_client_id w
          /\ DBClient.meeting_count c = 0%Z
          /\ DBClient.zoom_meeting_ids c
             = match zoom_meeting_ids with
               | Some ((_ :: _) as ids) => Some (json_dumps ids)
               | _ => None
               end).
Proof.
  intros name description title_patterns zoom_meeting_ids w Hwf.
  destruct Hwf as [Hn [Hp Hb]].
  assert (Hdup : In name (client_names w) ->
                 create_client name description title_patterns
                               zoom_meeting_ids w
                 = (w, Raise (http_exception "400"))).
  { intros Hin. destruct (@in_names name (clients w) Hin) as [c [Hc Hname]].
    unfold create_client, bind, get_world, lift. subst name.
    now rewrite (@filter_name_unique c (clients w) Hn Hc). }
  assert (Hnew : ~ In name (client_names w) ->
                 exists c,
                   create_client name description title_patterns
                                 zoom_meeting_ids w
                   = (mkWorld (recordings w) (clients w ++ [c])
                              (next_recording_id w) (next_client_id w + 1)
                              (tasks w) (log w), Ok c)
                   /\ DBClient.name c = name
                   /\ DBClient.id c = next_client_id w
                   /\ DBClient.meeting_count c = 0%Z
                   /\ DBClient.zoom_meeting_ids c
                      = match zoom_meeting_ids with
                        | Some ((_ :: _) as ids) => Some (json_dumps ids)
                        | _ => None
                        end).
  { intros Hni. eexists. split.
    - unfold create_client, bind, get_world, lift, modify, ret.
      rewrite (@filter_name_none name (clients w) Hni). simpl. reflexivity.
    - destruct title_patterns as [[|p ps]|];
        destruct zoom_meeting_ids as [[|z zs]|]; repeat split. }
  split; [|split].
  - destruct (in_dec (list_eq_dec N.eq_dec) name (client_names w))
      as [Hin|Hni].
    + rewrite (Hdup Hin). simpl. repeat split; auto.
    + destruct (Hnew Hni) as [c [Hrun [Hname [Hid _]]]]. rewrite Hrun.
      unfold clients_wf, client_names. simpl. rewrite !map_app. simpl.
      rewrite Hname, Hid. repeat split.
      * apply NoDup_app; repeat split; auto.
        -- constructor; [tauto | constructor].
        -- intros x Hx [<-|[]]. now apply Hni.
      * apply NoDup_app; repeat split; auto.
        -- constructor; [tauto | constructor].
        -- intros x Hx [<-|[]]. apply in_map_iff in Hx.
           destruct Hx as [c0 [E Hc0]]. specialize (Hb c0 Hc0). lia.
      * intros c0 Hc0. apply in_app_or in Hc0.
        destruct Hc0 as [Hc0|[<-|[]]].
        -- specialize (Hb c0 Hc0). lia.
        -- lia.
  - exact Hdup.
  - intros Hni. destruct (Hnew Hni) as [c [Hrun H]]. exists c.
    rewrite Hrun. simpl. tauto.
Qed.

Lemma belongs_to_spec (cid : Z) (r : DBRecording.t) :
  belongs_to cid r = true <-> DBRecording.client_id r = Some cid.
Proof.
  unfold belongs_to. destruct (DBRecording.client_id r) as [c|].
  - rewrite Z.eqb_eq. split; congruence.
  - split; discriminate.
Qed.

(** The rows of the account once the assignment is stored. *)
Lemma held_after_assignment (cid : Z) (now : datetime)
      (meeting : DBRecording.t) (l : list DBRecording.t) :
  NoDup (List.map DBRecording.id l) -> In meeting l ->
  (List.length
     (filter (belongs_to cid)
        (List.map (fun r => if (DBRecording.id r =? DBRecording.id meeting)%Z
                            then RowOps.with_assignment r cid now else r) l))
   = List.length (filter (belongs_to cid) l)
     + if belongs_to cid meeting then 0 else 1)%nat.
Proof.
  intros Hnd Hin. induction l as [|x l IH]; simpl in *; [contradiction|].
  inversion Hnd as [|? ? Hx Hnd']; subst.
  assert (Hrest : forall l0,
             ~ In (DBRecording.id meeting) (List.map DBRecording.id l0) ->
             List.map (fun r => if (DBRecording.id r
                                    =? DBRecording.id meeting)%Z
                                then RowOps.with_assignment r cid now else r)
                      l0 = l0).
  { intros l0 H0. rewrite <- (map_id l0) at 2. apply map_ext_in.
    intros y Hy.
    destruct (Z.eqb_spec (DBRecording.id y) (DBRecording.id meeting)) as [E|E];
      [|reflexivity].
    exfalso. apply H0. rewrite <- E. now apply in_map. }
  destruct Hin as [->|Hin].
  - rewrite Z.eqb_refl. rewrite (Hrest l Hx).
    replace (belongs_to cid (RowOps.with_assignment meeting cid now))
      with true by (unfold belongs_to; simpl; now rewrite Z.eqb_refl).
    destruct (belongs_to cid meeting); simpl; lia.
  - destruct (Z.eqb_spec (DBRecording.id x) (DBRecording.id meeting)) as [E|E].
    + exfalso. apply Hx. rewrite E. now apply in_map.
    + specialize (IH Hnd' Hin). destruct (belongs_to cid x); simpl; lia.
Qed.

Lemma visible_with_autoflush (cid : Z) (now : datetime) (w : World)
      (meeting : DBRecording.t) :
  NoDup (List.map DBRecording.id (recordings w)) ->
  In meeting (recordings w) ->
  visible_recordings true w (RowOps.with_assignment meeting cid now)
  = List.map (fun r => if (DBRecording.id r =? DBRecording.id meeting)%Z
                       then RowOps.with_assignment r cid now else r)
             (recordings w).
Proof.
  intros Hnd Hin. unfold visible_recordings. apply map_ext_in.
  intros r Hr. cbn [RowOps.with_assignment DBRecording.id].
  destruct (Z.eqb_spec (DBRecording.id r) (DBRecording.id meeting)) as [E|E];
    [|reflexivity].
  f_equal. symmetry.
  now apply (NoDup_map_inj DBRecording.id (recordings w)).
Qed.

(** X18: a manual assignment (for a stored account whose learned ids
    decode, a stored meeting, and unique recording keys) succeeds, stores
    the account on the meeting and makes the meeting's start time the
    account's last-meeting time, whatever it was.  The meeting count it
    stores is the number of recordings it finds for the account plus one:
    when the session flushes the pending assignment before that query, or
    when the meeting already belonged to the account, this is one more
    than the account has recordings afterwards; only when the query does
    not see the assignment and the meeting is new to the account is it
    their number. *)
Theorem assignment_counts_the_meeting_twice :
  forall autoflush now client_id meeting_id w client meeting ids,
    NoDup (List.map DBRecording.id (recordings w)) ->
    client_row w client_id = Some client ->
    row w meeting_id = Some meeting ->
    get_zoom_meeting_ids client = Ok ids ->
    let run := assign_meeting_to_client autoflush now client_id meeting_id w in
    let held :=
      Z.of_nat (List.length (filter (belongs_to client_id)
                                    (recordings (fst run)))) in
    snd run = Ok (py "Meeting assigned to " ++ DBClient.name client)
    /\ (exists m',
          row (fst run) meeting_id = Some m'
          /\ DBRecording.client_id m' = Some client_id
          /\ DBRecording.updated_at m' = now)
    /\ (exists c',
          client_row (fst run) client_id = Some c'
          /\ DBClient.last_meeting_at c'
             = Some (DBRecording.start_time meeting)
          /\ (autoflush = true
               \/ DBRecording.client_id meeting = Some client_id ->
              DBClient.meeting_count c' = (held + 1)%Z)
          /\ (autoflush = false ->
              DBRecording.client_id meeting <> Some client_id ->
              DBClient.meeting_count c' = held)).
Proof.
  intros autoflush now cid mid w client meeting ids Hnd Hc Hm Hg run held.
  pose proof (row_id _ _ Hm) as Hmid.
  assert (Hin : In meeting (recordings w))
    by (unfold row in Hm; now apply find_some in Hm).
  assert (Hcid : DBClient.id client = cid).
  { unfold client_row in Hc. apply find_some in Hc. destruct Hc as [_ H].
    now apply Z.eqb_eq in H. }
  set (meeting' := RowOps.with_assignment meeting cid now).
  set (n := Z.of_nat (List.length
                        (filter (belongs_to cid)
                                (visible_recordings autoflush w meeting')))).
  set (client1 := RowOps.with_meeting_stats client (n + 1)
                    (DBRecording.start_time meeting)).
  set (client2 := if mem (DBRecording.zoom_meeting_id meeting) ids
                  then client1
                  else set_zoom_meeting_ids client1
                         (ids ++ [DBRecording.zoom_meeting_id meeting])).
  assert (Hrun : run
                 = (set_clients
                      (set_recordings w
                         (List.map (fun r => if (DBRecording.id r =? mid)%Z
                                             then RowOps.with_assignment
                                                    r cid now
                                             else r)
                                   (recordings w)))
                      (replaced client2
                         (clients w)),
                    Ok (py "Meeting assigned to " ++ DBClient.name client2))).
  { unfold run, assign_meeting_to_client, select_client, select_recording.
    unfold bind at 1. unfold bind at 1. unfold get_world at 1, ret at 1.
    fold (client_row w cid). rewrite Hc. cbv beta iota.
    unfold bind at 1. unfold bind at 1. unfold get_world at 1, ret at 1.
    fold (row w mid). rewrite Hm. cbv beta iota.
    unfold bind at 1. unfold get_world at 1. cbv beta iota.
    fold meeting'. fold n. fold client1.
    assert (Hg1 : get_zoom_meeting_ids client1 = Ok ids) by exact Hg.
    unfold bind at 1. unfold lift at 1. rewrite Hg1. cbv beta iota.
    fold client2.
    reflexivity. }
  assert (Hname : DBClient.name client2 = DBClient.name client)
    by (unfold client2, client1; destruct (mem _ ids); reflexivity).
  rewrite Hname in Hrun.
  assert (Hrec : recordings (fst run)
                 = List.map (fun r => if (DBRecording.id r
                                          =? DBRecording.id meeting)%Z
                                      then RowOps.with_assignment r cid now
                                      else r)
                            (recordings w))
    by (rewrite Hrun, Hmid; reflexivity).
  assert (Hheld : held
                  = (Z.of_nat (List.length (filter (belongs_to cid)
                                                   (recordings w)))
                     + if belongs_to cid meeting then 0 else 1)%Z).
  { unfold held. rewrite Hrec.
    rewrite (@held_after_assignment cid now meeting (recordings w) Hnd Hin).
    destruct (belongs_to cid meeting); lia. }
  split; [now rewrite Hrun|]. split.
  - exists meeting'. rewrite Hrun. unfold row.
    cbn [fst recordings set_clients set_recordings].
    rewrite find_map_update by reflexivity.
    fold (row w mid). rewrite Hm. repeat split.
  - exists client2. split.
    + rewrite Hrun. unfold client_row. cbn [fst clients set_clients].
      apply (@find_client_replaced cid client); [exact Hc|].
      unfold client2, client1. destruct (mem _ ids); simpl; exact Hcid.
    + assert (Hcount : DBClient.meeting_count client2 = (n + 1)%Z)
        by (unfold client2, client1; destruct (mem _ ids); reflexivity).
      split; [unfold client2, client1; destruct (mem _ ids); reflexivity|].
      rewrite Hcount, Hheld. split.
      * intros [->|Hb].
        -- unfold n, meeting'.
           rewrite (@visible_with_autoflush cid now w meeting Hnd Hin).
           rewrite (@held_after_assignment cid now meeting (recordings w)
                      Hnd Hin).
           destruct (belongs_to cid meeting); lia.
        -- apply belongs_to_spec in Hb. rewrite Hb.
           destruct autoflush.
           ++ unfold n, meeting'.
              rewrite (@visible_with_autoflush cid now w meeting Hnd Hin).
              rewrite (@held_after_assignment cid now meeting (recordings w)
                         Hnd Hin).
              rewrite Hb. lia.
           ++ unfold n, visible_recordings. lia.
      * intros -> Hnb.
        assert (Hb : belongs_to cid meeting = false).
        { destruct (belongs_to cid meeting) eqn:E; [|reflexivity].
          apply belongs_to_spec in E. contradiction. }
        rewrite Hb. unfold n, visible_recordings. lia.
Qed.

End Routes.

End RoutesFacts.

(** ** What [strip] leaves *)

Module StripFacts.

Lemma lstrip_head (s : str) :
  match lstrip s with [] => True | c :: _ => isspace c = false end.
Proof.
  induction s as [|c s IH]; simpl; [exact I|].
  destruct (isspace c) eqn:E; [exact IH | exact E].
Qed.

Lemma lstrip_suffix (s : str) : exists p, s = p ++ lstrip s.
Proof.
  induction s as [|c s [p IH]]; simpl; [now exists []|].
  destruct (isspace c).
  - exists (c :: p). simpl. now f_equal.
  - now exists [].
Qed.

Lemma rstrip_prefix (s : str) : exists q, s = rstrip s ++ q.
Proof.
  unfold rstrip. destruct (lstrip_suffix (rev s)) as [p Hp].
  exists (rev p). rewrite <- rev_app_distr, <- Hp. now rewrite rev_involutive.
Qed.

Lemma strip_trimmed (s : str) : trimmed (strip s).
Proof.
  unfold trimmed, strip. split.
  - destruct (rstrip_prefix (lstrip s)) as [q Hq].
    pose proof (lstrip_head s) as Hh. rewrite Hq in Hh.
    destruct (rstrip (lstrip s)); [exact I | exact Hh].
  - unfold rstrip. rewrite rev_involutive. apply lstrip_head.
Qed.

End StripFacts.

(** ** The dashboard *)

Module DashboardFacts.
Import Sql Dashboard.

Lemma count_bounds {A} (keep : A -> bool) (rows : list A) :
  (0 <= count keep rows <= len rows)%Z.
Proof.
  unfold count, len. pose proof (filter_length_le keep rows). lia.
Qed.

Lemma count_by_status (rows : list DBRecording.t) :
  len rows
  = (count (status_in processing_statuses) rows
     + count (fun r => status_eqb (DBRecording.status r) FAILED) rows
     + count (fun r => status_eqb (DBRecording.status r) COMPLETED) rows)%Z.
Proof.
  unfold count, len. induction rows as [|r rows IH]; [reflexivity|].
  cbn [filter List.length]. unfold status_in at 1.
  destruct (DBRecording.status r); cbn [existsb processing_statuses
    status_eqb orb List.length]; lia.
Qed.

Section Stats.
Context {D : PyDatetime}.

(** X19: in the dashboard statistics every stored recording is counted
    exactly once among the pending, the failed and the completed ones, so
    the total is the pending count plus the failed count plus the number
    of completed recordings; the count of this month's meetings is at most
    the total, and the count of active accounts at most the number of
    accounts. *)
Theorem dashboard_counts_add_up :
  forall now w,
    total_meetings (get_dashboard_stats now w)
    = (pending_processing (get_dashboard_stats now w)
       + failed_processing (get_dashboard_stats now w)
       + count (fun r => status_eqb (DBRecording.status r) COMPLETED)
               (recordings w))%Z
    /\ total_meetings (get_dashboard_stats now w) = len (recordings w)
    /\ total_clients (get_dashboard_stats now w) = len (clients w)
    /\ (0 <= meetings_this_month (get_dashboard_stats now w)
        <= total_meetings (get_dashboard_stats now w))%Z
    /\ (0 <= active_clients (get_dashboard_stats now w)
        <= total_clients (get_dashboard_stats now w))%Z.
Proof.
  intros now w. cbn [get_dashboard_stats total_meetings meetings_this_month
                     total_clients active_clients pending_processing
                     failed_processing].
  assert (Hall : forall A (rows : list A), count (fun _ => true) rows = len rows).
  { intros A rows. unfold count, len. f_equal. f_equal.
    apply forallb_filter_id. now apply forallb_forall. }
  rewrite !Hall. split; [apply count_by_status|].
  split; [reflexivity|]. split; [reflexivity|].
  split; apply count_bounds.
Qed.

(** X20: every pending action item the dashboard lists is a line of the
    action-items text of a stored recording, stripped of surrounding
    whitespace; it is not empty, does not begin or end with whitespace
    and does not begin with the "no action items" answer; and for a
    non-negative [limit] at most [limit] items are listed. *)
Theorem action_items_are_stripped_lines :
  forall limit w,
    Forall (fun item =>
              text item <> []
              /\ trimmed (text item)
              /\ startswith (text item) no_action_items = false
              /\ exists r lines,
                   In r (recordings w)
                   /\ DBRecording.id r = meeting_id item
                   /\ DBRecording.action_items r = Some lines
                   /\ In (text item)
                         (List.map strip (split newline lines)))
           (get_pending_action_items limit w)
    /\ ((0 <= limit)%Z ->
        (len (get_pending_action_items limit w) <= limit)%Z).
Proof.
  intros limit w. split.
  - apply Forall_forall. intros item Hin.
    unfold get_pending_action_items in Hin.
    assert (Hin' : In item
                     (flat_map (items_of w)
                        (Sql.limit limit
                           (order_by_start_time_desc
                              (filter (fun r => is_some
                                                  (DBRecording.action_items r))
                                      (recordings w)))))).
    { unfold slice in Hin. apply PySeqFacts.in_firstn in Hin.
      now apply PySeqFacts.in_skipn in Hin. }
    apply in_flat_map in Hin'. destruct Hin' as [r [Hr Hi]].
    apply RoutesFacts.in_limit in Hr.
    apply (Permutation_in _ (RoutesFacts.order_desc_perm _)) in Hr.
    apply filter_In in Hr. destruct Hr as [Hr _].
    unfold items_of in Hi.
    destruct (DBRecording.action_items r) as [[|c lines]|] eqn:Ha;
      try contradiction.
    apply in_map_iff in Hi. destruct Hi as [line [<- Hl]].
    apply filter_In in Hl. destruct Hl as [Hl Hk].
    apply andb_true_iff in Hk. destruct Hk as [Ht Hs].
    cbn [text meeting_id]. repeat split.
    + destruct line; [discriminate | discriminate].
    + apply in_map_iff in Hl. destruct Hl as [raw [<- _]].
      apply StripFacts.strip_trimmed.
    + apply in_map_iff in Hl. destruct Hl as [raw [<- _]].
      apply StripFacts.strip_trimmed.
    + now apply negb_true_iff in Hs.
    + exists r, (c :: lines). auto.
  - intros Hl. unfold get_pending_action_items.
    rewrite PySeqFacts.slice_prefix by exact Hl.
    unfold len. rewrite length_firstn. lia.
Qed.

End Stats.

End DashboardFacts.

(** ** The webhook endpoint *)

Module WebhookFacts.
Import Webhook.

Section Endpoint.
Context {H : PyHmac}.
Variable secret : str.

Lemma count_uuid_zero (w : World) (uuid : str) :
  count_uuid w uuid = 0%nat ->
  filter (fun r => eqb (DBRecording.zoom_meeting_uuid r) uuid) (recordings w)
  = [].
Proof. unfold count_uuid. now destruct (filter _ _). Qed.

(** X21: a request that lacks one of the two signature headers, or
    carries an empty one, is not verified at all.  If it announces a
    completed recording with an MP4 file for an occurrence that is not
    stored yet, the recording is created as pending and its processing is
    queued, whatever the secret and whatever the body's bytes. *)
Theorem unsigned_event_is_ingested :
  forall now request data payload mp4 w,
    (x_zm_signature request = None \/ x_zm_signature request = Some []
     \/ x_zm_request_timestamp request = None
     \/ x_zm_request_timestamp request = Some []) ->
    json request = Ok data ->
    event data = py "recording.completed" ->
    completed data = Ok payload ->
    ZoomWebhookPayload.get_mp4_file payload = Some mp4 ->
    count_uuid w (ZoomWebhookPayload.meeting_uuid payload) = 0%nat ->
    handle_zoom_webhook secret now request w
    = (mkWorld
         (recordings w
          ++ [new_recording (next_recording_id w) payload mp4 now])
         (clients w) (next_recording_id w + 1) (next_client_id w)
         (tasks w ++ [next_recording_id w]) (log w),
       Ok Processing).
Proof.
  intros now request data payload mp4 w Hunsigned Hjson Hev Hpl Hmp4 Hcount.
  assert (Hd : dispatch secret now request w
               = (mkWorld
                    (recordings w
                     ++ [new_recording (next_recording_id w) payload mp4 now])
                    (clients w) (next_recording_id w + 1) (next_client_id w)
                    (tasks w ++ [next_recording_id w]) (log w),
                  Ok Processing)).
  { unfold dispatch. unfold bind at 1. unfold lift at 1. rewrite Hjson.
    cbv beta iota. rewrite Hev.
    replace (eqb (py "recording.completed") (py "endpoint.url_validation"))
      with false by (vm_compute; reflexivity).
    replace (eqb (py "recording.completed") (py "recording.completed"))
      with true by (vm_compute; reflexivity).
    unfold bind at 1. unfold lift at 1. rewrite Hpl. cbv beta iota.
    unfold bind at 1. unfold handle_recording_completed. rewrite Hmp4.
    unfold bind, get_world, lift, modify, ret.
    rewrite (count_uuid_zero _ _ Hcount). reflexivity. }
  unfold handle_zoom_webhook.
  destruct (x_zm_signature request) as [[|c s]|];
    destruct (x_zm_request_timestamp request) as [[|c' t]|];
    try exact Hd.
  destruct Hunsigned as [Hu|[Hu|[Hu|Hu]]]; discriminate.
Qed.

(** X22: for a request with both signature headers present and an
    ASCII signature, the signature is compared with [v0=] followed by the
    HMAC of [v0:timestamp:body] under the secret: if they are equal the
    request is handled like an unsigned one, and if they differ the
    endpoint raises the 401 error and leaves the store as it is, whatever
    the event. *)
Theorem signature_decides_acceptance :
  forall now request signature timestamp text w,
    x_zm_signature request = Some signature -> signature <> [] ->
    x_zm_request_timestamp request = Some timestamp -> timestamp <> [] ->
    body request = Ok text ->
    forallb (fun c => (c <? 128)%N)
            (expected_signature secret text timestamp ++ signature) = true ->
    (signature = expected_signature secret text timestamp ->
     handle_zoom_webhook secret now request w = dispatch secret now request w)
    /\ (signature <> expected_signature secret text timestamp ->
        handle_zoom_webhook secret now request w
        = (w, Raise (http_exception "401"))).
Proof.
  intros now request signature timestamp text w Hs Hsne Ht Htne Hb Hascii.
  unfold handle_zoom_webhook. rewrite Hs, Ht.
  destruct signature as [|c s]; [congruence|].
  destruct timestamp as [|c' t]; [congruence|].
  unfold bind at 1. unfold lift at 1.
  unfold verify_webhook_signature. rewrite Hb. unfold compare_digest.
  rewrite Hascii. cbv beta iota. split.
  - intros <-. now rewrite eqb_refl.
  - intros Hne.
    destruct (eqb (expected_signature secret text (c' :: t)) (c :: s)) eqn:E;
      [|reflexivity].
    apply eqb_eq in E. congruence.
Qed.

(** X23: the answer to a completion event does not tell what became of
    it: whenever the handler returns, the response is "processing", also
    when the event had no MP4 file or its occurrence was already stored,
    in which cases nothing was created or queued.  An event that is
    neither a URL validation nor a completed recording is answered
    "ignored" and changes nothing. *)
Theorem completion_response_hides_outcome :
  forall now request data w,
    json request = Ok data ->
    (event data = py "recording.completed" ->
     forall payload,
       completed data = Ok payload ->
       (forall w' created,
          handle_recording_completed now payload w = (w', Ok created) ->
          dispatch secret now request w = (w', Ok Processing))
       /\ (ZoomWebhookPayload.get_mp4_file payload = None ->
           dispatch secret now request w = (w, Ok Processing))
       /\ (count_uuid w (ZoomWebhookPayload.meeting_uuid payload) = 1%nat ->
           dispatch secret now request w = (w, Ok Processing)))
    /\ (event data <> py "endpoint.url_validation" ->
        event data <> py "recording.completed" ->
        dispatch secret now request w = (w, Ok Ignored)).
Proof.
  intros now request data w Hjson. split.
  - intros Hev payload Hpl.
    assert (Hd : forall w' created,
               handle_recording_completed now payload w = (w', Ok created) ->
               dispatch secret now request w = (w', Ok Processing)).
    { intros w' created Hrun. unfold dispatch.
      unfold bind at 1. unfold lift at 1. rewrite Hjson. cbv beta iota.
      rewrite Hev.
      replace (eqb (py "recording.completed") (py "endpoint.url_validation"))
        with false by (vm_compute; reflexivity).
      replace (eqb (py "recording.completed") (py "recording.completed"))
        with true by (vm_compute; reflexivity).
      unfold bind at 1. unfold lift at 1. rewrite Hpl. cbv beta iota.
      unfold bind. rewrite Hrun. reflexivity. }
    split; [exact Hd|]. split.
    + intros Hnone. apply (Hd w None).
      unfold handle_recording_completed. now rewrite Hnone.
    + intros Hcount. apply (Hd w None).
      unfold count_uuid in Hcount.
      destruct (filter_length_one _ _ Hcount) as [r Hr].
      destruct (ZoomWebhookPayload.get_mp4_file payload) eqn:Hm.
      * now apply handle_existing with (r := r).
      * unfold handle_recording_completed. now rewrite Hm.
  - intros H1 H2. unfold dispatch.
    unfold bind at 1. unfold lift at 1. rewrite Hjson. cbv beta iota.
    destruct (eqb (event data) (py "endpoint.url_validation")) eqn:E1;
      [apply eqb_eq in E1; contradiction|].
    destruct (eqb (event data) (py "recording.completed")) eqn:E2;
      [apply eqb_eq in E2; contradiction|].
    reflexivity.
Qed.

End Endpoint.

End WebhookFacts.

(** ** The resolver's helpers and what it does to the accounts table *)

Module ResolverFacts.

Section Resolver.
Context {L : PyLib}.

Lemma extract_domains_from_spec :
  forall emails domains,
    NoDup domains ->
    NoDup (_extract_domains_from emails domains)
    /\ forall d,
         In d (_extract_domains_from emails domains)
         <-> In d domains \/ exists email, In email emails /\ domain_of email d.
Proof.
  induction emails as [|email rest IH]; intros domains Hnd;
    cbn [_extract_domains_from].
  - split; [exact Hnd|]. intros d. split; [auto|].
    intros [H|[email [[] _]]]. exact H.
  - destruct (contains email (py "@")) eqn:Hat.
    + destruct (mem (nth 1 (split 64 email) []) free_mail) eqn:Hfree.
      * destruct (IH domains Hnd) as [H1 H2]. split; [exact H1|].
        intros d. rewrite H2. split.
        -- intros [H|[e [He Hd]]]; [now left|]. right. exists e.
           split; [now right | exact Hd].
        -- intros [H|[e [[<-|He] Hd]]]; [now left | | right; eauto].
           destruct Hd as [_ [-> Hm]]. congruence.
      * destruct (mem (nth 1 (split 64 email) []) domains) eqn:Hseen.
        -- destruct (IH domains Hnd) as [H1 H2]. split; [exact H1|].
           intros d. rewrite H2. split.
           ++ intros [H|[e [He Hd]]]; [now left|]. right. exists e.
              split; [now right | exact Hd].
           ++ intros [H|[e [[<-|He] Hd]]]; [now left | | right; eauto].
              destruct Hd as [_ [-> _]]. left. now apply mem_In.
        -- assert (Hnd' : NoDup (domains ++ [nth 1 (split 64 email) []])).
           { apply NoDup_app; repeat split; auto.
             - constructor; [tauto | constructor].
             - intros x Hx [<-|[]].
               apply mem_In in Hx. congruence. }
           destruct (IH _ Hnd') as [H1 H2]. split; [exact H1|].
           intros d. rewrite H2. rewrite in_app_iff. split.
           ++ intros [[H|[<-|[]]]|[e [He Hd]]].
              ** now left.
              ** right. exists email. split; [now left|].
                 repeat split; auto.
              ** right. exists e. split; [now right | exact Hd].
           ++ intros [H|[e [[<-|He] Hd]]].
              ** left. now left.
              ** destruct Hd as [_ [-> _]]. left. right. now left.
              ** right. eauto.
    + destruct (IH domains Hnd) as [H1 H2]. split; [exact H1|].
      intros d. rewrite H2. split.
      * intros [H|[e [He Hd]]]; [now left|]. right. exists e.
        split; [now right | exact Hd].
      * intros [H|[e [[<-|He] Hd]]]; [now left | | right; eauto].
        destruct Hd as [Hc _]. congruence.
Qed.

(** X24: the domains extracted from a list of participant emails are,
    without repetition, exactly these: for each email that contains an
    [@], the text between its first and its second [@] (up to its end if
    there is no second), unless that text is one of gmail.com,
    yahoo.co.jp and outlook.com.  Nothing else is returned, and none of
    them is left out. *)
Theorem extracted_domains_are_exact :
  forall emails,
    NoDup (_extract_domains emails)
    /\ forall d,
         In d (_extract_domains emails)
         <-> exists email,
               In email emails
               /\ contains email (py "@") = true
               /\ d = nth 1 (split 64 email) []
               /\ mem d free_mail = false.
Proof.
  intros emails. unfold _extract_domains.
  destruct (@extract_domains_from_spec emails [] (NoDup_nil _)) as [H1 H2].
  split; [exact H1|]. intros d. rewrite H2. split.
  - intros [[]|H]. exact H.
  - intros H. right. exact H.
Qed.

Lemma re_search_none (open close : N) (s : str) :
  ~ In open s -> re_search_enclosed open close s = None.
Proof.
  induction s as [|c s IH]; intros H; simpl; [reflexivity|].
  destruct (N.eqb_spec c open) as [E|E].
  - exfalso. apply H. now left.
  - apply IH. intros Hin. apply H. now right.
Qed.

(** X25: a client name taken from a meeting title never begins or ends
    with whitespace (it may be empty); a title that contains neither
    [【] nor [[] yields no name; and when the title has a name between
    [【] and [】], that one is taken, whatever stands between square
    brackets. *)
Theorem title_name_is_stripped :
  forall title,
    (forall name, _extract_client_from_title title = Some name ->
                  trimmed name)
    /\ (~ In 12304%N title -> ~ In 91%N title ->
        _extract_client_from_title title = None)
    /\ (forall g, re_search_enclosed 12304 12305 title = Some g ->
                  _extract_client_from_title title = Some (strip g)).
Proof.
  intros title. split; [|split].
  - intros name. unfold _extract_client_from_title.
    destruct (re_search_enclosed 12304 12305 title).
    + intros H. inversion H. apply StripFacts.strip_trimmed.
    + destruct (re_search_enclosed 91 93 title); [|discriminate].
      intros H. inversion H. apply StripFacts.strip_trimmed.
  - intros H1 H2. unfold _extract_client_from_title.
    now rewrite !re_search_none.
  - intros g Hg. unfold _extract_client_from_title. now rewrite Hg.
Qed.

End Resolver.

End ResolverFacts.

(** ** What a run does to the recordings table *)

Module PipelineRows.

Section Frame.
Context {L : PyLib}.
Variable rid : Z.
Variable l0 : list DBRecording.t.

Lemma same_unless_refl (r : DBRecording.t) : same_unless rid r r.
Proof. split; auto. Qed.

Lemma touches_keeps {A} (m : M A) :
  keeps_recordings m -> preserves (only_touches rid l0) m.
Proof. intros H w Hw. unfold only_touches in *. now rewrite H. Qed.

Lemma touches_update (f : DBRecording.t -> DBRecording.t) :
  (forall r, DBRecording.id (f r) = DBRecording.id r) ->
  preserves (only_touches rid l0) (update_recording rid f).
Proof.
  intros Hf w Hw. unfold only_touches in *. cbn.
  induction Hw as [|r0 r l l' [Hid Hsame] _ IH]; cbn; constructor; auto.
  destruct (Z.eqb_spec (DBRecording.id r) rid) as [E|E].
  - split.
    + now rewrite Hf.
    + intros Hne. congruence.
  - split; auto.
Qed.

Lemma touches_try_except {A} (I : World -> Prop) (m : M A)
      (h : Exn -> M A) :
  preserves I m -> (forall e, preserves I (h e)) ->
  preserves I (try_except m h).
Proof.
  intros Hm Hh w Hw. unfold try_except. specialize (Hm w Hw).
  destruct (m w) as [w1 [a|e]]; simpl in *; [assumption | now apply Hh].
Qed.

Lemma touches_update_status env s :
  preserves (only_touches rid l0) (update_status env rid s).
Proof.
  unfold update_status. apply preserves_bind.
  - apply touches_update; reflexivity.
  - intros. apply touches_keeps, keeps_trace_status.
Qed.

End Frame.

Ltac touches_step :=
  match goal with
  | |- preserves _ (bind _ _) => apply preserves_bind; [|intros]
  | |- preserves _ (try_except _ _) => apply touches_try_except; [|intros]
  | |- preserves _ (update_status _ _ _) => apply touches_update_status
  | |- preserves _ (update_recording _ _) =>
      apply touches_update; reflexivity
  | |- preserves _ (call _ _) => apply touches_keeps, keeps_call
  | |- preserves _ (emit _) => apply touches_keeps, keeps_emit
  | |- preserves _ (trace_status _) =>
      apply touches_keeps, keeps_trace_status
  | |- preserves _ (ret _) => apply touches_keeps, keeps_ret
  | |- preserves _ (raise _) => apply touches_keeps, keeps_raise
  | |- preserves _ (store_client _) => apply touches_keeps, keeps_store_client
  | |- preserves _ (identify_client _ _ _ _ _) =>
      apply touches_keeps, keeps_identify_client
  | |- preserves _ (update_client_summary _ _) =>
      apply touches_keeps, keeps_update_client_summary
  | |- preserves _ (match ?x with _ => _ end) => destruct x
  | |- preserves _ (let '(_, _) := ?x in _) => destruct x
  end.

Section Runs.
Context {L : PyLib}.

Lemma touches_stages env rid l0 recording file :
  DBRecording.id recording = rid ->
  preserves (only_touches rid l0) (stages_after_download env recording file).
Proof.
  intros <-. unfold stages_after_download. repeat touches_step.
Qed.

Lemma touches_on_failure {A} env rid l0 f e :
  preserves (only_touches rid l0) (@on_failure A env rid f e).
Proof. unfold on_failure. repeat touches_step. Qed.

Lemma touches_process env rid w :
  only_touches rid (recordings w) (fst (process_recording env rid w)).
Proof.
  assert (H0 : only_touches rid (recordings w) (add_log w (EvStart rid))).
  { unfold only_touches. cbn. clear.
    induction (recordings w); constructor; auto using same_unless_refl. }
  destruct (row w rid) as [recording|] eqn:Hrow.
  - rewrite (process_recording_enter env rid w Hrow).
    pose proof (row_id _ _ Hrow) as Hid.
    revert H0. generalize (add_log w (EvStart rid)). intros w0 H0.
    revert w0 H0.
    change (preserves (only_touches rid (recordings w))
              (bind (try_except
                       (update_status env rid DOWNLOADING ;;
                        call SvcDownload (download_recording env))
                       (on_failure env rid None))
                    (fun downloaded_file =>
                       try_except
                         (stages_after_download env recording downloaded_file)
                         (on_failure env rid (Some downloaded_file))))).
    apply preserves_bind.
    + apply touches_try_except.
      * repeat touches_step.
      * intros. apply touches_on_failure.
    + intros file. apply touches_try_except.
      * now apply touches_stages.
      * intros. apply touches_on_failure.
  - unfold process_recording, bind, emit, modify, select_recording,
      get_world, ret. cbn.
    unfold row in Hrow. rewrite Hrow. exact H0.
Qed.

Lemma touches_row rid rid' l w' :
  only_touches rid l w' -> rid' <> rid ->
  row w' rid' = List.find (fun r => (DBRecording.id r =? rid')%Z) l.
Proof.
  intros H Hne. unfold row, only_touches in *.
  induction H as [|r0 r l l' [Hid Hsame] _ IH]; cbn; [reflexivity|].
  rewrite Hid. destruct (Z.eqb_spec (DBRecording.id r0) rid') as [E|E].
  - rewrite Hsame; [reflexivity | congruence].
  - exact IH.
Qed.

(** X26: a run of the pipeline for recording [rid] neither adds nor
    removes a row of the recordings table, keeps every row's key and
    position, and leaves every row of another recording exactly as it
    was; so looking up any other recording gives the same row before
    and after.  This holds however the run ends. *)
Theorem run_touches_only_its_own_row env rid w :
  let w' := fst (process_recording env rid w) in
  Forall2 (same_unless rid) (recordings w) (recordings w')
  /\ List.map DBRecording.id (recordings w')
     = List.map DBRecording.id (recordings w)
  /\ forall rid', rid' <> rid -> row w' rid' = row w rid'.
Proof.
  pose proof (touches_process env rid w) as H. cbv zeta.
  split; [exact H|]. split.
  - unfold only_touches in H.
    induction H as [|r0 r l l' [Hid _] _ IH]; cbn; [reflexivity|].
    now rewrite Hid, IH.
  - intros rid' Hne. now rewrite (touches_row H Hne).
Qed.

Lemma on_recordings_row_is rid r : on_recordings (row_is rid r).
Proof. intros w w' H. unfold row_is, row. now rewrite H. Qed.

Lemma ensures_bind {A B} (P : World -> Prop) (m : M A) (k : A -> M B) Q R :
  ensures P m Q -> (forall a, ensures (Q a) (k a) R) ->
  ensures P (bind m k) R.
Proof.
  intros Hm Hk w w' b Hw H. unfold bind in H.
  destruct (m w) as [w1 [a|e]] eqn:E; [|discriminate].
  exact (Hk a w1 w' b (Hm w w1 a Hw E) H).
Qed.

Lemma ensures_keeps {A} (I : World -> Prop) (m : M A)
      (R : A -> World -> Prop) :
  keeps_recordings m -> on_recordings I ->
  (forall a w, I w -> R a w) -> ensures I m R.
Proof.
  intros Hk HI HR w w' a Hw H. apply HR. apply (HI w); [|assumption].
  specialize (Hk w). now rewrite H in Hk.
Qed.

Lemma ensures_bind_keeps {A B} (I : World -> Prop) (m : M A)
      (k : A -> M B) R :
  keeps_recordings m -> on_recordings I ->
  (forall a, ensures I (k a) R) -> ensures I (bind m k) R.
Proof.
  intros Hk HI Hr. apply ensures_bind with (Q := fun _ => I); [|exact Hr].
  apply ensures_keeps; auto.
Qed.

Lemma ensures_bind_call {A B} (I : World -> Prop) svc (o : result A)
      (k : A -> M B) R :
  on_recordings I ->
  (forall a, o = Ok a -> ensures I (k a) R) ->
  ensures I (bind (call svc o) k) R.
Proof.
  intros HI Hr w w' b Hw H. unfold bind at 1 in H.
  destruct (call svc o w) as [w1 [a|e]] eqn:E; [|discriminate].
  assert (Ho : o = Ok a).
  { unfold call, bind, emit, modify, lift in E. now inversion E. }
  apply (Hr a Ho w1 w' b); [|assumption].
  apply (HI w); [|assumption].
  pose proof (keeps_call svc o w) as Hk. now rewrite E in Hk.
Qed.

Lemma ensures_bind_update {B} rid f r0 (k : unit -> M B) R :
  (forall r, DBRecording.id (f r) = DBRecording.id r) ->
  ensures (row_is rid (f r0)) (k tt) R ->
  ensures (row_is rid r0) (bind (update_recording rid f) k) R.
Proof.
  intros Hf Hk w w' b Hw H. unfold bind at 1 in H.
  pose proof (row_update_recording w rid f Hf) as Hu.
  destruct (update_recording rid f w) as [w1 [[]|e]] eqn:E;
    [|discriminate].
  apply (Hk w1 w' b); [|assumption].
  unfold row_is in *. cbn [fst] in Hu. now rewrite Hu, Hw.
Qed.

Lemma ensures_bind_assoc {A B C} (P : World -> Prop) (m : M A)
      (k : A -> M B) (k2 : B -> M C) R :
  ensures P (bind m (fun a => bind (k a) k2)) R ->
  ensures P (bind (bind m k) k2) R.
Proof.
  intros H w w' c Hw E. apply (H w w' c Hw).
  unfold bind in *. destruct (m w) as [w1 [a|e]]; exact E.
Qed.

Lemma ensures_bind_update_status {B} env rid s r0 (k : unit -> M B) R :
  ensures (row_is rid (DBRecording.with_status r0 s (utcnow env))) (k tt) R ->
  ensures (row_is rid r0) (bind (update_status env rid s) k) R.
Proof.
  intros Hk. unfold update_status.
  apply ensures_bind_assoc, ensures_bind_update; [reflexivity|].
  apply ensures_bind_keeps;
    [apply keeps_trace_status | apply on_recordings_row_is | intros []].
  exact Hk.
Qed.

Lemma ensures_try_failure {A} (P : World -> Prop) (m : M A) env rid f Q :
  ensures P m Q -> ensures P (try_except m (on_failure env rid f)) Q.
Proof.
  intros Hm w w' a Hw H. unfold try_except in H.
  destruct (m w) as [w1 [a1|e]] eqn:E.
  - inversion H; subst. exact (Hm w w' a Hw E).
  - pose proof (@on_failure_raises A env rid f e w1) as Hr.
    rewrite H in Hr. discriminate Hr.
Qed.

Lemma gather3_ok (x y z : result str) s d a :
  gather3 x y z = Ok (s, d, a) -> x = Ok s /\ y = Ok d /\ z = Ok a.
Proof.
  destruct x, y, z; simpl; intros H; inversion H; auto.
Qed.

Ltac keeps_all :=
  repeat first
    [ apply keeps_call
    | apply keeps_identify_client
    | apply keeps_update_client_summary
    | keeps_step ].

Ltac ensures_step :=
  match goal with
  | |- ensures _ (bind (update_status _ _ _) _) _ =>
      apply ensures_bind_update_status
  | |- ensures _ (bind (update_recording _ _) _) _ =>
      apply ensures_bind_update; [reflexivity|]
  | |- ensures _ (bind (call SvcUpload _) _) _ =>
      apply ensures_bind_call;
      [apply on_recordings_row_is | intros url Hurl]
  | |- ensures _ (bind (call SvcTranscribe _) _) _ =>
      apply ensures_bind_call;
      [apply on_recordings_row_is | intros text Htext]
  | |- ensures _ (bind (call SvcSummarize _) _) _ =>
      apply ensures_bind_call;
      [apply on_recordings_row_is
      | intros [[s d] a] Hsda; apply gather3_ok in Hsda;
        destruct Hsda as [Hs [Hd Ha]]; cbv beta iota]
  | |- ensures _ (bind (call SvcCreateMeetingPage _) _) _ =>
      apply ensures_bind_call;
      [apply on_recordings_row_is | intros page Hpage]
  | |- ensures _ (bind (identify_client _ _ _ _ _) _) _ =>
      apply ensures_bind_keeps;
      [apply keeps_identify_client | apply on_recordings_row_is
      | intros [client|]; cbv beta iota]
  | |- ensures _ (bind (call SvcFindCalendarEvent _) _) _ =>
      apply ensures_bind_keeps;
      [apply keeps_call | apply on_recordings_row_is
      | intros [event_id|]; cbv beta iota]
  | |- ensures _ (bind (bind _ _) _) _ => apply ensures_bind_assoc
  | |- ensures _ (bind _ _) _ =>
      apply ensures_bind_keeps;
      [solve [keeps_all] | apply on_recordings_row_is | intros ?]
  end.

(** The stages after the download, when they return normally, have
    filled the row. *)
Lemma stages_completed env recording file r0 :
  ensures (row_is (DBRecording.id recording) r0)
          (stages_after_download env recording file)
          (fun _ w => exists r',
             row w (DBRecording.id recording) = Some r'
             /\ completed_from env r0 r').
Proof.
  unfold stages_after_download. cbv zeta.
  repeat ensures_step.
  all: apply ensures_keeps;
    [ solve [keeps_all] | apply on_recordings_row_is | ].
  all: intros _ w Hw; eexists; split; [exact Hw|];
    exists url, text, s, d, a, page; cbn; repeat split; assumption.
Qed.

Lemma process_completed env rid w w' r :
  row w rid = Some r ->
  process_recording env rid w = (w', Ok tt) ->
  exists r', row w' rid = Some r' /\ completed_from env r r'.
Proof.
  intros Hrow H. pose proof (row_id _ _ Hrow) as Hid.
  rewrite (process_recording_enter env rid w Hrow) in H.
  revert H. generalize tt. intros u H.
  assert (He : ensures (row_is rid r)
            (bind (try_except
                     (update_status env rid DOWNLOADING ;;
                      call SvcDownload (download_recording env))
                     (on_failure env rid None))
                  (fun downloaded_file =>
                     try_except
                       (stages_after_download env r downloaded_file)
                       (on_failure env rid (Some downloaded_file))))
            (fun _ w => exists r',
               row w rid = Some r' /\ completed_from env r r')).
  { apply ensures_bind
      with (Q := fun _ => row_is rid
                   (DBRecording.with_status r DOWNLOADING (utcnow env))).
    - apply ensures_try_failure. apply ensures_bind_update_status.
      apply ensures_keeps;
        [apply keeps_call | apply on_recordings_row_is | auto].
    - intros file. apply ensures_try_failure.
      pose proof (@stages_completed env r file
                    (DBRecording.with_status r DOWNLOADING (utcnow env)))
        as Hs.
      rewrite Hid in Hs. exact Hs. }
  apply (He (add_log w (EvStart rid)) w' u); [|exact H].
  exact Hrow.
Qed.

(** X27: when a run of the pipeline returns normally, the recording's
    row holds the results of this run: status [completed], the
    completion time, the public video reference returned by the upload,
    the transcript, the summary, the decisions and the action items that
    were generated, and the page created for the meeting.  The stored
    error text and the retry count are what they were when the run
    started: a recording that failed earlier and now completes still
    shows the old error and count. *)
Theorem successful_run_fills_the_row env rid w w' r :
  row w rid = Some r ->
  process_recording env rid w = (w', Ok tt) ->
  exists r' url text s d a page,
    row w' rid = Some r'
    /\ upload_video env = Ok url
    /\ transcribe env = Ok text
    /\ generate_summary env = Ok s
    /\ extract_decisions env = Ok d
    /\ extract_action_items env = Ok a
    /\ create_meeting_page env = Ok page
    /\ DBRecording.status r' = COMPLETED
    /\ DBRecording.completed_at r' = Some (utcnow env)
    /\ DBRecording.youtube_url r' = Some url
    /\ DBRecording.transcript r' = Some text
    /\ DBRecording.summary r' = Some s
    /\ DBRecording.decisions r' = Some d
    /\ DBRecording.action_items r' = Some a
    /\ DBRecording.notion_page_id r' = Some page
    /\ DBRecording.error_message r' = DBRecording.error_message r
    /\ DBRecording.retry_count r' = DBRecording.retry_count r.
Proof.
  intros Hrow H.
  destruct (process_completed env rid w Hrow H)
    as [r' [Hr' [url [text [s [d [a [page Hc]]]]]]]].
  exists r', url, text, s, d, a, page. split; [exact Hr' | exact Hc].
Qed.


(** *** The sweep, row by row *)

Lemma row_of_member (w : World) (r : DBRecording.t) :
  NoDup (List.map DBRecording.id (recordings w)) ->
  In r (recordings w) -> row w (DBRecording.id r) = Some r.
Proof.
  unfold row. induction (recordings w) as [|x l IH]; cbn;
    intros Hnd Hin; [contradiction|].
  inversion Hnd as [|? ? Hx Hnd']; subst.
  destruct Hin as [->|Hin]; [now rewrite Z.eqb_refl|].
  destruct (Z.eqb_spec (DBRecording.id x) (DBRecording.id r)) as [E|E].
  - exfalso. apply Hx. rewrite E. now apply in_map.
  - now apply IH.
Qed.

Lemma NoDup_map_filter {A B} (f : A -> B) (p : A -> bool) (l : list A) :
  NoDup (List.map f l) -> NoDup (List.map f (filter p l)).
Proof.
  induction l as [|x l IH]; cbn; intros Hnd; [constructor|].
  inversion Hnd as [|? ? Hx Hnd']; subst.
  destruct (p x); cbn; auto. constructor; auto.
  intros Hin. apply Hx. apply in_map_iff in Hin.
  destruct Hin as [y [E Hy]]. apply filter_In in Hy.
  rewrite <- E. apply in_map. tauto.
Qed.

Lemma sweep_loop_rows envs (selected : list DBRecording.t) w :
  NoDup (List.map DBRecording.id selected) ->
  (forall r, In r selected -> row w (DBRecording.id r) = Some r) ->
  let w' :=
    fst (for_each selected
           (fun recording =>
              try_except
                (process_recording (envs (DBRecording.id recording))
                                   (DBRecording.id recording))
                (fun _ => ret tt)) w) in
  (forall r, In r selected ->
             exists r', row w' (DBRecording.id r) = Some r'
                        /\ swept_from r r')
  /\ (forall rid, ~ In rid (List.map DBRecording.id selected) ->
                  row w' rid = row w rid).
Proof.
  revert w. induction selected as [|r rest IH]; intros w Hnd Hrows.
  - cbn. split; [contradiction | reflexivity].
  - inversion Hnd as [|? ? Hr Hnd']; subst.
    set (rid := DBRecording.id r) in *.
    set (body := fun recording : DBRecording.t =>
                   try_except
                     (process_recording (envs (DBRecording.id recording))
                                        (DBRecording.id recording))
                     (fun _ => ret tt)) in *.
    pose proof (touches_process (envs rid) rid w) as Ht.
    assert (Hrow : row w rid = Some r) by (apply Hrows; now left).
    assert (Hown : exists w1 r1,
               for_each (r :: rest) body w = for_each rest body w1
               /\ only_touches rid (recordings w) w1
               /\ row w1 rid = Some r1 /\ swept_from r r1).
    { destruct (process_recording (envs rid) rid w) as [w1 [[]|e]] eqn:Hrun;
        cbn [fst] in Ht.
      - destruct (process_completed (envs rid) rid w Hrow Hrun)
          as [r1 [Hr1 Hc]].
        exists w1, r1. split; [|split; [exact Ht|split; [exact Hr1|]]].
        + cbn [for_each]. unfold bind at 1. unfold body at 1.
          unfold try_except. fold rid. now rewrite Hrun.
        + left. destruct Hc as [? [? [? [? [? [? Hc]]]]]]. tauto.
      - destruct (failed_run_row (envs rid) rid w Hrow Hrun)
          as [r1 [Hr1 [Hs [Hc _]]]].
        exists w1, r1. split; [|split; [exact Ht|split; [exact Hr1|]]].
        + cbn [for_each]. unfold bind at 1. unfold body at 1.
          unfold try_except. fold rid. now rewrite Hrun.
        + right. split; assumption. }
    destruct Hown as [w1 [r1 [Hfe [Ht1 [Hr1 Hsw]]]]]. clear Ht.
    cbv zeta. rewrite Hfe.
    assert (Hrows1 : forall x, In x rest ->
                               row w1 (DBRecording.id x) = Some x).
    { intros x Hx. rewrite (touches_row Ht1).
      - apply Hrows. now right.
      - intros E. apply Hr. rewrite <- E. now apply in_map. }
    destruct (IH w1 Hnd' Hrows1) as [IH1 IH2]. split.
    + intros x [<-|Hx]; [|now apply IH1].
      exists r1. fold rid. rewrite (IH2 _ Hr). split; assumption.
    + intros rid' Hni. rewrite IH2 by (cbn in Hni; tauto).
      apply (touches_row Ht1). intros E. apply Hni. left. now symmetry.
Qed.

Lemma sweep_loop_runs envs (selected : list DBRecording.t) w :
  for_each selected
    (fun recording =>
       try_except
         (process_recording (envs (DBRecording.id recording))
                            (DBRecording.id recording))
         (fun _ => ret tt)) w
  = (fold_left
       (fun w1 r =>
          fst (process_recording (envs (DBRecording.id r))
                                 (DBRecording.id r) w1))
       selected w,
     Ok tt).
Proof.
  revert w. induction selected as [|r rest IH]; intros w; [reflexivity|].
  cbn [for_each fold_left]. unfold bind at 1. unfold try_except at 1.
  destruct (process_recording (envs (DBRecording.id r)) (DBRecording.id r) w)
    as [w1 [[]|e]]; cbn [fst ret]; apply IH.
Qed.

Lemma sweep_selects_iff (r : DBRecording.t) :
  sweep_selects r = true
  <-> DBRecording.status r = FAILED /\ (DBRecording.retry_count r < 3)%Z.
Proof.
  unfold sweep_selects. rewrite andb_true_iff, Z.ltb_lt.
  destruct (DBRecording.status r); simpl; intuition discriminate.
Qed.

(** C7: the bulk sweep runs the pipeline, once each and in table order,
    on exactly the recordings of the table that are [failed] with a retry
    count strictly below 3: the store it leaves is the one these runs
    leave, one after the other, and it returns normally whatever the runs
    do.  A failed recording with retry count 2 is among the resubmitted
    ones; one with retry count 3 or more is not, and neither is one that
    is not [failed].  In a table whose keys are unique, a resubmitted
    recording comes out changed, completed or failed with its count
    raised by one, and a recording that is not resubmitted is left
    exactly as it was. *)
Theorem sweep_resubmits_failed_below_ceiling envs w :
  let resubmitted := filter sweep_selects (recordings w) in
  let w' := fst (retry_failed_recordings envs w) in
  retry_failed_recordings envs w
  = (fold_left
       (fun w1 r =>
          fst (process_recording (envs (DBRecording.id r))
                                 (DBRecording.id r) w1))
       resubmitted w,
     Ok tt)
  /\ (exists new,
        log w' = log w ++ new
        /\ started new = List.map DBRecording.id resubmitted)
  /\ (forall r, In r resubmitted <->
                In r (recordings w)
                /\ DBRecording.status r = FAILED
                /\ (DBRecording.retry_count r < 3)%Z)
  /\ (forall r, In r (recordings w) ->
                DBRecording.status r = FAILED ->
                DBRecording.retry_count r = 2%Z -> In r resubmitted)
  /\ (forall r, (3 <= DBRecording.retry_count r)%Z -> ~ In r resubmitted)
  /\ (forall r, DBRecording.status r <> FAILED -> ~ In r resubmitted)
  /\ (NoDup (List.map DBRecording.id (recordings w)) ->
      forall r, In r (recordings w) ->
        (In r resubmitted ->
         exists r', row w' (DBRecording.id r) = Some r'
                    /\ r' <> r
                    /\ (DBRecording.status r' = COMPLETED
                        \/ (DBRecording.status r' = FAILED
                            /\ DBRecording.retry_count r'
                               = (DBRecording.retry_count r + 1)%Z)))
        /\ (~ In r resubmitted -> row w' (DBRecording.id r) = Some r)).
Proof.
  cbv zeta.
  assert (Hin : forall r, In r (filter sweep_selects (recordings w)) <->
                  In r (recordings w)
                  /\ DBRecording.status r = FAILED
                  /\ (DBRecording.retry_count r < 3)%Z).
  { intros r. rewrite filter_In, sweep_selects_iff. tauto. }
  assert (Hrun : retry_failed_recordings envs w
                 = for_each (filter sweep_selects (recordings w))
                     (fun recording =>
                        try_except
                          (process_recording
                             (envs (DBRecording.id recording))
                             (DBRecording.id recording))
                          (fun _ => ret tt)) w) by reflexivity.
  split; [rewrite Hrun; apply sweep_loop_runs|].
  split.
  { destruct (sweep_loop_started envs
                (filter sweep_selects (recordings w)) w) as [_ Hnew].
    rewrite Hrun. exact Hnew. }
  split; [exact Hin|].
  split; [intros r H1 H2 H3; apply Hin; repeat split; [assumption.. | lia]|].
  split; [intros r H1 H2; apply Hin in H2; lia|].
  split; [intros r H1 H2; apply Hin in H2; tauto|].
  intros Hnd r Hr. rewrite Hrun.
  destruct (@sweep_loop_rows envs (filter sweep_selects (recordings w)) w)
    as [H1 H2].
  - now apply NoDup_map_filter.
  - intros x Hx. apply filter_In in Hx. apply row_of_member; tauto.
  - split.
    + intros Hsel. destruct (H1 r Hsel) as [r' [Hr' Hsw]].
      exists r'. split; [exact Hr'|]. split; [|exact Hsw].
      apply Hin in Hsel. destruct Hsel as [_ [Hs Hc]].
      intros ->. destruct Hsw as [Hsw|[_ Hsw]]; [congruence | lia].
    + intros Hsel. rewrite H2; [now apply row_of_member|].
      intros Hx. apply in_map_iff in Hx. destruct Hx as [y [E Hy]].
      assert (y = r).
      { apply (NoDup_map_inj DBRecording.id (recordings w)); auto.
        apply filter_In in Hy. tauto. }
      subst y. contradiction.
Qed.




End Runs.

End PipelineRows.

(** ** What the resolver does to the accounts table *)

Module ResolverAccounts.

Section Accounts.
Context {L : PyLib}.

Lemma extends_refl (w : World) : extends_accounts w w [].
Proof. exists (clients w). now rewrite app_nil_r. Qed.

Lemma extract_title_trimmed title name :
  _extract_client_from_title title = Some name -> trimmed name.
Proof.
  unfold _extract_client_from_title.
  destruct (re_search_enclosed 12304 12305 title).
  - intros H. inversion H. apply StripFacts.strip_trimmed.
  - destruct (re_search_enclosed 91 93 title); [|discriminate].
    intros H. inversion H. apply StripFacts.strip_trimmed.
Qed.

Lemma add_meeting_id_accounts c zid w :
  clients_wf w -> In c (clients w) ->
  let run := _add_meeting_id_to_client c zid w in
  clients_wf (fst run) /\ extends_accounts w (fst run) [].
Proof.
  intros Hwf Hc. cbv zeta.
  unfold _add_meeting_id_to_client, bind, lift, store_client, modify, ret.
  destruct (get_zoom_meeting_ids c) as [ids|e]; cbn [fst];
    [|split; [assumption | apply extends_refl]].
  destruct (mem zid ids); cbn [fst];
    [split; [assumption | apply extends_refl]|].
  set (c' := set_zoom_meeting_ids c (ids ++ [zid])).
  destruct Hwf as [Hn [Hp Hb]].
  destruct (@names_replaced c c' (clients w) Hp Hc eq_refl eq_refl)
    as [En Ei].
  change (clients_wf (set_clients w (replaced c' (clients w)))
          /\ extends_accounts w (set_clients w (replaced c' (clients w))) []).
  split.
  - unfold clients_wf, client_names.
    cbn [clients set_clients next_client_id]. rewrite En, Ei.
    repeat split; auto.
    intros r Hr. unfold replaced in Hr. apply in_map_iff in Hr.
    destruct Hr as [x [Hx Hxin]].
    destruct (DBClient.id x =? DBClient.id c')%Z; subst r.
    + exact (Hb c Hc).
    + now apply Hb.
  - exists (replaced c' (clients w)). cbn [clients set_clients].
    rewrite app_nil_r. auto.
Qed.

Lemma get_or_create_accounts name zid w :
  clients_wf w -> name <> [] -> trimmed name ->
  let run := _get_or_create_client name zid w in
  clients_wf (fst run)
  /\ exists added,
       extends_accounts w (fst run) added
       /\ (added = []
           \/ exists c,
                added = [c]
                /\ snd run = Ok c
                /\ DBClient.id c = next_client_id w
                /\ DBClient.name c <> []
                /\ trimmed (DBClient.name c)
                /\ ~ In (DBClient.name c) (client_names w)).
Proof.
  intros Hwf Hne Htrim. cbv zeta.
  split; [now apply get_or_create_keeps_wf|].
  destruct (in_dec (list_eq_dec N.eq_dec) name (client_names w)) as [Hin|Hni].
  - destruct (@in_names name (clients w) Hin) as [c [Hc Hname]].
    destruct Hwf as [Hn [Hp Hb]].
    rewrite (@get_or_create_existing _ name zid w c Hn Hc Hname).
    exists []. split; [|now left].
    apply add_meeting_id_accounts; [repeat split; auto | assumption].
  - rewrite (@get_or_create_new _ name zid w Hni). cbn [fst snd].
    exists [new_client (next_client_id w) name zid]. split.
    + exists (clients w). auto.
    + right. eexists. split; [reflexivity|]. cbn. auto.
Qed.

Lemma accounts_after_get_or_create name zid w0 w :
  clients w = clients w0 -> next_client_id w = next_client_id w0 ->
  clients_wf w0 -> name <> [] -> trimmed name ->
  outcome_of w0 (bind (_get_or_create_client name zid)
                      (fun c => ret (Some c)) w).
Proof.
  intros Hc Hk Hwf Hne Htrim.
  assert (Hwf' : clients_wf w).
  { unfold clients_wf, client_names in *. now rewrite Hc, Hk. }
  destruct (@get_or_create_accounts name zid w Hwf' Hne Htrim)
    as [H1 [added [[kept [Hk1 [Hk2 Hk3]]] H3]]].
  assert (Hext : extends_accounts w0 (fst (_get_or_create_client name zid w))
                                  added).
  { exists kept. rewrite <- Hc. auto. }
  unfold outcome_of, bind, ret.
  destruct (_get_or_create_client name zid w) as [w1 [c|e]];
    cbn [fst snd] in *.
  - split; [exact H1|]. exists added. split; [exact Hext|].
    destruct H3 as [->|[c' [-> [E [Hid [? [? Hni]]]]]]]; [now left|].
    right. exists c'. inversion E; subst c'.
    unfold client_names in *. rewrite <- Hc, <- Hk. auto 10.
  - split; [exact H1|]. exists added. split; [exact Hext|].
    destruct H3 as [->|[c' [_ [E _]]]]; [now left | discriminate].
Qed.

Lemma accounts_after_add c zid w :
  clients_wf w -> In c (clients w) ->
  outcome_of w (bind (_add_meeting_id_to_client c zid)
                     (fun c' => ret (Some c')) w).
Proof.
  intros Hwf Hc.
  destruct (@add_meeting_id_accounts c zid w Hwf Hc) as [H1 H2].
  unfold outcome_of, bind, ret.
  destruct (_add_meeting_id_to_client c zid w) as [w1 [c'|e]];
    cbn [fst snd] in *;
    (split; [exact H1|]); exists []; (split; [exact H2 | now left]).
Qed.

Lemma accounts_unchanged w a : clients_wf w -> accounts_outcome w w a.
Proof.
  intros Hwf. split; [exact Hwf|]. exists []. split; [apply extends_refl|].
  now left.
Qed.

Lemma outcome_unchanged w (r : result (option DBClient.t)) :
  clients_wf w -> outcome_of w (w, r).
Proof.
  intros Hwf. unfold outcome_of. cbn [fst snd].
  destruct r; now apply accounts_unchanged.
Qed.

Lemma tiers_3_and_4 env title zid ts emails w :
  clients_wf w ->
  outcome_of w
    ((client <- _match_by_title_pattern title ;;
      match client with
      | Some c =>
          c' <- _add_meeting_id_to_client c zid ;;
          ret (Some c')
      | None =>
          match ts with
          | Some ((_ :: _) as ts0) =>
              let email_domains :=
                _extract_domains
                  (match emails with
                   | Some l => l
                   | None => []
                   end) in
              inferred_name <-
                SummaryService_identify_client env title ts0 email_domains ;;
              if truthy inferred_name
                 && negb (eqb inferred_name unknown_sentinel)
              then
                c <- _get_or_create_client inferred_name zid ;;
                ret (Some c)
              else ret None
          | _ => ret None
          end
      end) w).
Proof.
  intros Hwf. unfold bind at 1.
  unfold _match_by_title_pattern, bind at 1, get_world, lift.
  destruct (match_patterns_loop (clients w) (str_lower title))
    as [[c|]|e] eqn:Hm;
    [ | | now apply outcome_unchanged].
  - apply accounts_after_add; [assumption|].
    exact (match_patterns_in _ _ Hm).
  - destruct ts as [[|ch ts0]|];
      [now apply outcome_unchanged | | now apply outcome_unchanged].
    cbv zeta. unfold bind at 1.
    unfold SummaryService_identify_client, bind at 1 2, emit, modify,
      lift, ret.
    destruct (call_gpt_identify env title _ _) as [r|e];
      [|split; [exact Hwf|]; exists []; split;
        [exists (clients w); now rewrite app_nil_r | now left]].
    destruct (strip r) as [|ch' name] eqn:Hname;
      [split; [exact Hwf|]; exists []; split;
       [exists (clients w); now rewrite app_nil_r | now left]|].
    cbn [truthy andb].
    destruct (negb (eqb (ch' :: name) unknown_sentinel));
      [|split; [exact Hwf|]; exists []; split;
        [exists (clients w); now rewrite app_nil_r | now left]].
    apply accounts_after_get_or_create; auto; try discriminate.
    rewrite <- Hname. apply StripFacts.strip_trimmed.
Qed.

Lemma identify_client_accounts env title zid ts emails w :
  clients_wf w ->
  outcome_of w (identify_client env title zid ts emails w).
Proof.
  intros Hwf. unfold identify_client.
  unfold bind at 1. unfold _match_by_meeting_id, bind at 1, get_world, lift.
  destruct (match_ids_loop (clients w) zid) as [[c|]|e];
    [now apply outcome_unchanged | | now apply outcome_unchanged].
  destruct (_extract_client_from_title title) as [[|ch name]|] eqn:Ht;
    [now apply tiers_3_and_4 | | now apply tiers_3_and_4].
  apply accounts_after_get_or_create; auto; try discriminate.
  exact (extract_title_trimmed _ Ht).
Qed.

(** X30: run on an accounts table that respects its constraints (unique
    names, unique keys, keys below the counter), the resolver leaves a
    table that respects them again, however it ends.  It never removes
    or renames an account and never changes a key; it adds at most one
    account, and only when it returns it: that account takes the next
    key, and its name is new to the table, is not empty and has no
    leading or trailing whitespace. *)
Theorem resolver_adds_at_most_one_account env title zid ts emails w :
  clients_wf w ->
  let run := identify_client env title zid ts emails w in
  clients_wf (fst run)
  /\ exists added,
       extends_accounts w (fst run) added
       /\ (added = []
           \/ exists c,
                added = [c]
                /\ snd run = Ok (Some c)
                /\ DBClient.id c = next_client_id w
                /\ DBClient.name c <> []
                /\ trimmed (DBClient.name c)
                /\ ~ In (DBClient.name c) (client_names w)).
Proof.
  intros Hwf. cbv zeta.
  pose proof (@identify_client_accounts env title zid ts emails w Hwf) as H.
  unfold outcome_of in H.
  destruct (identify_client env title zid ts emails w) as [w' [a|e]];
    cbn [fst snd] in *; destruct H as [H1 [added [H2 H3]]];
    (split; [exact H1|]); exists added; (split; [exact H2|]).
  - destruct H3 as [->|[c [-> [-> H3]]]]; [now left|].
    right. exists c. auto.
  - destruct H3 as [->|[c [_ [E _]]]]; [now left | discriminate].
Qed.

End Accounts.

End ResolverAccounts.

(** ** The properties above on concrete cases *)

Module CaseFacts.
Import Example Cases.
Import SummaryService MeetingsApi MeetingsRoutes ClientsRoutes Webhook.

#[local] Existing Instance ExampleLib.lib.

Ltac distinct :=
  repeat constructor; simpl; intuition discriminate.

Lemma sweep_resubmits_failed_below_ceiling_witness :
  ceiling_sweep
  = (fst (process_recording env_transcribe_fails 4
            (fst (process_recording env_ok 1 ceiling_store))),
     Ok tt)
  /\ started (skipn (List.length (log ceiling_store))
                    (log (fst ceiling_sweep))) = [1; 4]%Z
  /\ option_map DBRecording.status (row (fst ceiling_sweep) 1)
     = Some COMPLETED
  /\ row (fst ceiling_sweep) 2 = Some (failed_meeting 2 3)
  /\ row (fst ceiling_sweep) 3 = row ceiling_store 3
  /\ option_map DBRecording.status (row (fst ceiling_sweep) 4) = Some FAILED
  /\ option_map DBRecording.retry_count (row (fst ceiling_sweep) 4)
     = Some 2%Z.
Proof.
  destruct (@PipelineRows.sweep_resubmits_failed_below_ceiling
              ExampleLib.lib ceiling_envs ceiling_store)
    as [Hrun [_ [_ [_ [Hceil [Hother Hrows]]]]]].
  assert (Hnd : NoDup (List.map DBRecording.id (recordings ceiling_store)))
    by (vm_compute; distinct).
  assert (E : filter sweep_selects (recordings ceiling_store)
               = [failed_meeting 1 2; failed_meeting 4 1])
    by (vm_compute; reflexivity).
  split.
  { unfold ceiling_sweep. rewrite Hrun. rewrite E. reflexivity. }
  split; [vm_compute; reflexivity|].
  split; [vm_compute; reflexivity|].
  split.
  { assert (Hin : In (failed_meeting 2 3) (recordings ceiling_store))
      by (right; left; reflexivity).
    assert (Hno : ~ In (failed_meeting 2 3)
                        (filter sweep_selects (recordings ceiling_store)))
      by (apply Hceil; vm_compute; discriminate).
    exact (proj2 (Hrows Hnd (failed_meeting 2 3) Hin) Hno). }
  split.
  { assert (Hin : In (meeting 3 d_2024_02_14 None None)
                      (recordings ceiling_store))
      by (right; right; left; reflexivity).
    assert (Hno : ~ In (meeting 3 d_2024_02_14 None None)
                        (filter sweep_selects (recordings ceiling_store)))
      by (apply Hother; vm_compute; discriminate).
    rewrite (proj2 (Hrows Hnd _ Hin) Hno : row (fst ceiling_sweep) 3 = _).
    vm_compute. reflexivity. }
  split; vm_compute; reflexivity.
Defined.

Lemma excerpt_length_is_bounded_witness :
  find (str_lower (searched_text budget_meeting)) (str_lower (py "budget"))
  <> (-1)%Z
  /\ (len (_get_excerpt budget_meeting (py "budget") 5)
      <= len (py "budget") + 2 * 5 + 6)%Z
  /\ find (str_lower (searched_text budget_meeting)) (str_lower (py "audit"))
     = (-1)%Z
  /\ (len (_get_excerpt budget_meeting (py "audit") 5) <= 203)%Z.
Proof.
  assert (Hfound : find (str_lower (searched_text budget_meeting))
                        (str_lower (py "budget")) <> (-1)%Z)
    by (vm_compute; discriminate).
  assert (Hmissing : find (str_lower (searched_text budget_meeting))
                          (str_lower (py "audit")) = (-1)%Z)
    by (vm_compute; reflexivity).
  split; [exact Hfound|]. split; [|split; [exact Hmissing|]].
  - apply (@MeetingsApiFacts.excerpt_length_is_bounded
             ExampleLib.lib budget_meeting (py "budget") 5); [lia|].
    exact Hfound.
  - apply (@MeetingsApiFacts.excerpt_length_is_bounded
             ExampleLib.lib budget_meeting (py "audit") 5); [lia|].
    exact Hmissing.
Defined.

Lemma excerpt_contains_the_match_witness :
  let pos := find (str_lower (searched_text budget_meeting))
                  (str_lower (py "budget")) in
  let hit := slice (searched_text budget_meeting) (Some pos)
                   (Some (pos + len (py "budget"))%Z) in
  len hit = len (py "budget")
  /\ exists before after,
       _get_excerpt budget_meeting (py "budget") 5 = before ++ hit ++ after.
Proof.
  apply (@MeetingsApiFacts.excerpt_contains_the_match
           ExampleLib.lib budget_meeting (py "budget") 5).
  - lia.
  - vm_compute. reflexivity.
  - vm_compute. reflexivity.
  - vm_compute. discriminate.
Defined.

Lemma chapters_cover_the_segments_witness :
  let chunks := chunks_from two_segments 0 [] in
  let title_of texts :=
    slice_to 20
      (strip (kickoff (chapter_title_prompt (join (py " ") texts)))) in
  generate_chapters titled (Some two_segments)
  = Ok (List.map (fun c => mkChapter (mmss (fst c)) (title_of (snd c)))
                 chunks)
  /\ List.concat (List.map snd chunks) = List.map seg_text two_segments
  /\ (exists texts rest, chunks = (0%Q, texts) :: rest)
  /\ mmss 0 = py "00:00"
  /\ spaced (List.map fst chunks)
  /\ Forall (fun c => snd c <> []) chunks
  /\ Forall (fun c => (List.length (title_of (snd c)) <= 20)%nat) chunks
  /\ (1 <= List.length chunks <= List.length two_segments)%nat.
Proof.
  apply (@SummaryServiceFacts.chapters_cover_the_segments
           ExampleLib.lib titled kickoff two_segments).
  - intros prompt. reflexivity.
  - discriminate.
  - vm_compute. reflexivity.
Defined.

Lemma youtube_chapters_begin_at_zero_witness :
  YouTubeService.generate_chapters [] = []
  /\ exists chapters,
       generate_chapters titled (Some two_segments) = Ok chapters
       /\ startswith (YouTubeService.generate_chapters chapters)
                     (py "00:00 ") = true.
Proof.
  apply (@SummaryServiceFacts.youtube_chapters_begin_at_zero
           ExampleLib.lib titled kickoff two_segments).
  - intros prompt. reflexivity.
  - discriminate.
  - vm_compute. reflexivity.
Defined.

Lemma deleted_meeting_is_forgotten_witness :
  snd (delete_meeting 5 three_meetings) = Ok (py "Meeting 5 deleted")
  /\ row (fst (delete_meeting 5 three_meetings)) 5 = None
  /\ row (fst (delete_meeting 5 three_meetings)) 4 = row three_meetings 4
  /\ clients (fst (delete_meeting 5 three_meetings)) = clients three_meetings
  /\ next_recording_id (fst (delete_meeting 5 three_meetings)) = 5%Z
  /\ exists r2,
       snd (handle_recording_completed
              1709254800 returning_payload
              (fst (delete_meeting 5 three_meetings))) = Ok (Some r2)
       /\ DBRecording.id r2 = 5%Z
       /\ DBRecording.status r2 = PENDING.
Proof.
  assert (Hnd : NoDup (List.map DBRecording.id (recordings three_meetings)))
    by (vm_compute; distinct).
  pose proof (@RoutesFacts.deleted_meeting_is_forgotten
                ExampleLib.lib 5 three_meetings Hnd) as H.
  change (row three_meetings 5) with (Some other_meeting) in H.
  destruct H as [H1 [H2 [H3 [_ [H5 [_ [H7 H8]]]]]]].
  split; [exact H1|]. split; [exact H2|].
  split; [apply H3; discriminate|]. split; [exact H5|].
  split; [rewrite H7; vm_compute; reflexivity|].
  destruct (H8 eq_refl 1709254800%Z returning_payload eq_refl)
    as [r2 [Hr2 [Hk [_ [_ Hs]]]]].
  - vm_compute. discriminate.
  - exists r2. split; [exact Hr2|]. split; [|exact Hs].
    rewrite Hk. vm_compute. reflexivity.
Defined.

Lemma acme_store_wf : clients_wf acme_store.
Proof.
  repeat split; try (vm_compute; distinct).
  intros c [<-|[]]; vm_compute; reflexivity.
Qed.

Lemma created_account_is_new_witness :
  clients_wf (fst (create_client (py "Globex") None None
                                 (Some [py "222"]) acme_store))
  /\ create_client acme_name None None None acme_store
     = (acme_store, Raise (http_exception "400"))
  /\ exists c,
       snd (create_client (py "Globex") None None (Some [py "222"])
                          acme_store) = Ok c
       /\ DBClient.id c = 100%Z
       /\ DBClient.zoom_meeting_ids c = Some (json_dumps [py "222"]).
Proof.
  destruct (@RoutesFacts.created_account_is_new
              ExampleLib.lib (py "Globex") None None (Some [py "222"])
              acme_store acme_store_wf) as [H1 [_ H3]].
  destruct (@RoutesFacts.created_account_is_new
              ExampleLib.lib acme_name None None None
              acme_store acme_store_wf) as [_ [H2 _]].
  split; [exact H1|]. split.
  - apply H2. vm_compute. now left.
  - destruct H3 as [c [Hc [_ [_ [_ [Hid [_ Hids]]]]]]].
    + vm_compute. intuition discriminate.
    + exists c. split; [exact Hc|]. split; [exact Hid | exact Hids].
Defined.

Lemma assignment_counts_the_meeting_twice_witness :
  let run := assign_meeting_to_client true 1709254800 1 5 three_meetings in
  snd run = Ok (py "Meeting assigned to Acme")
  /\ (List.length (filter (belongs_to 1) (recordings (fst run))) = 5)%nat
  /\ exists c',
       client_row (fst run) 1 = Some c'
       /\ DBClient.meeting_count c' = 6%Z
       /\ DBClient.last_meeting_at c' = Some d_2024_02_14.
Proof.
  cbv zeta.
  assert (Hnd : NoDup (List.map DBRecording.id (recordings three_meetings)))
    by (vm_compute; distinct).
  destruct (@RoutesFacts.assignment_counts_the_meeting_twice
              ExampleLib.lib true 1709254800 1 5 three_meetings
              (account 1 (py "Acme") (Some [py "111"])) other_meeting
              [py "111"] Hnd)
    as [H1 [_ [c' [Hc [Hlast [Hcount _]]]]]].
  - vm_compute. reflexivity.
  - vm_compute. reflexivity.
  - vm_compute. reflexivity.
  - split; [exact H1|].
    assert (Hheld :
      (List.length
         (filter (belongs_to 1)
            (recordings
               (fst (assign_meeting_to_client true 1709254800 1 5
                                              three_meetings)))) = 5)%nat)
      by (vm_compute; reflexivity).
    split; [exact Hheld|].
    exists c'. split; [exact Hc|]. split; [|exact Hlast].
    rewrite Hcount by now left. now rewrite Hheld.
Defined.

Lemma unsigned_event_is_ingested_witness :
  handle_zoom_webhook (H := toy_hmac) webhook_secret 1709254800
                      unsigned_completion empty_world
  = (mkWorld [new_recording 1 acme_payload mp4 1709254800] [] 2 1 [1%Z] [],
     Ok Processing).
Proof.
  apply (@WebhookFacts.unsigned_event_is_ingested
           toy_hmac webhook_secret 1709254800 unsigned_completion
           completion_data acme_payload mp4 empty_world).
  - now left.
  - reflexivity.
  - reflexivity.
  - reflexivity.
  - reflexivity.
  - reflexivity.
Defined.

Lemma signature_decides_acceptance_witness :
  handle_zoom_webhook (H := toy_hmac) webhook_secret 1709254800
                      signed_completion empty_world
  = dispatch (H := toy_hmac) webhook_secret 1709254800 signed_completion
             empty_world
  /\ handle_zoom_webhook (H := toy_hmac) webhook_secret 1709254800
                         forged_completion empty_world
     = (empty_world, Raise (http_exception "401")).
Proof.
  split.
  - apply (@WebhookFacts.signature_decides_acceptance
             toy_hmac webhook_secret 1709254800 signed_completion
             (expected_signature (H := toy_hmac) webhook_secret
                                 completion_body timestamp)
             timestamp completion_body empty_world);
      try reflexivity; vm_compute; discriminate.
  - apply (@WebhookFacts.signature_decides_acceptance
             toy_hmac webhook_secret 1709254800 forged_completion
             (py "v0=00") timestamp completion_body empty_world);
      try reflexivity; vm_compute; discriminate.
Defined.

Lemma completion_response_hides_outcome_witness :
  dispatch (H := toy_hmac) webhook_secret 1709254900 unsigned_completion
           (fst first_event)
  = (fst first_event, Ok Processing).
Proof.
  destruct (@WebhookFacts.completion_response_hides_outcome
              toy_hmac webhook_secret 1709254900 unsigned_completion
              completion_data (fst first_event) eq_refl) as [H1 _].
  destruct (H1 eq_refl acme_payload eq_refl) as [_ [_ H3]].
  apply H3. vm_compute. reflexivity.
Defined.

Lemma successful_run_fills_the_row_witness :
  exists r' url text s d a page,
    row (fst first_run) 1 = Some r'
    /\ upload_video env_ok = Ok url
    /\ transcribe env_ok = Ok text
    /\ generate_summary env_ok = Ok s
    /\ extract_decisions env_ok = Ok d
    /\ extract_action_items env_ok = Ok a
    /\ create_meeting_page env_ok = Ok page
    /\ DBRecording.status r' = COMPLETED
    /\ DBRecording.completed_at r' = Some (utcnow env_ok)
    /\ DBRecording.youtube_url r' = Some url
    /\ DBRecording.transcript r' = Some text
    /\ DBRecording.summary r' = Some s
    /\ DBRecording.decisions r' = Some d
    /\ DBRecording.action_items r' = Some a
    /\ DBRecording.notion_page_id r' = Some page
    /\ DBRecording.error_message r' = None
    /\ DBRecording.retry_count r' = 0%Z.
Proof.
  apply (@PipelineRows.successful_run_fills_the_row
           ExampleLib.lib env_ok 1 ingested (fst first_run)
           (new_recording 1 acme_payload mp4 1709254800)).
  - vm_compute. reflexivity.
  - vm_compute. reflexivity.
Defined.


Lemma empty_world_wf : clients_wf empty_world.
Proof.
  repeat split; try (vm_compute; constructor). intros c [].
Qed.

Lemma resolver_adds_at_most_one_account_witness :
  clients_wf (fst first_acme_run)
  /\ exists added,
       extends_accounts empty_world (fst first_acme_run) added
       /\ (added = []
           \/ exists c,
                added = [c]
                /\ snd first_acme_run = Ok (Some c)
                /\ DBClient.id c = 1%Z
                /\ DBClient.name c <> []
                /\ trimmed (DBClient.name c)
                /\ ~ In (DBClient.name c) (client_names empty_world)).
Proof.
  apply (@ResolverAccounts.resolver_adds_at_most_one_account
           ExampleLib.lib env_ok acme_title (py "111") None None
           empty_world empty_world_wf).
Defined.

End CaseFacts.
